(** * Solafon MCP server: the adapter of [src/index.ts], embedded and verified

    The server translates tool calls into HTTP requests against the Solafon
    API and wraps the answers into result envelopes.  This file embeds

    - the JavaScript values the program handles, with [JSON.stringify] and
      [JSON.parse] as the program uses them, and the grammar of JSON, which
      [JSON_parse] is proved to read exactly,
    - the HTTP helper [apiCall] and the envelope builder [ok],
    - the seventeen tool handlers, and the schemas of the two tools whose
      bounds the specification states,

    and proves the properties the specification states about them.

    Modelling conventions.
    - A JavaScript string is a [string] holding its UTF-8 bytes (a lone
      surrogate as the three bytes of its code unit), which is how the text
      of an HTTP body and of an envelope goes over the wire.  A surrogate
      pair is the four bytes of its code point.
    - A JavaScript number is a binary64 value.  An integer up to 2^53 in
      magnitude is [JNum n]; every other finite number is [JReal neg m e],
      the number m * 2^e with its sign, in the one normalised form
      (2^52 <= m < 2^53, or e = -1074); [JInfinity] is an infinity.  The
      sign of zero is not kept.  Numerals are rounded to the nearest such
      value, ties to even, and printed with the fewest digits that read
      back, as Number::toString does.
    - An object is an association list in property order, the keys written
      once: array indices first, in ascending order, then the other keys in
      the order of their creation.
    - [await fetch(...)] is a node [Await] of the tree [Async]: the handler
      stops with the request and goes on with whatever the network answers.
    - A URL keeps the text it was built from and its query parameters as a
      list; what the platform does to them (validation, normalisation,
      percent-encoding) is not modelled, so [href] is what the program
      handed to [new URL]. *)

From Stdlib Require Import String Ascii List ZArith NArith Bool Lia.
From Stdlib Require Import DecimalString DecimalPos DecimalN DecimalFacts.
Import ListNotations.

Local Open Scope list_scope.
Local Open Scope string_scope.
Local Open Scope Z_scope.

(* ================================================================== *)
(** * JavaScript values *)
(* ================================================================== *)

#[local] Unset Elimination Schemes.

Inductive JValue : Type :=
| JUndefined
| JNull
| JBool (b : bool)
| JNum (n : Z)
| JReal (negative : bool) (m e : Z)
| JInfinity (negative : bool)
| JStr (s : string)
| JArr (elements : list JValue)
| JObj (members : list (string * JValue)).

#[local] Set Elimination Schemes.

(** ToBoolean: [undefined], [null], [false], [0] and the empty string are
    falsy, every other number and every array and object is truthy. *)
Definition truthy (v : JValue) : bool :=
  match v with
  | JUndefined | JNull => false
  | JBool b => b
  | JNum n => negb (n =? 0)
  | JReal _ m _ => negb (m =? 0)
  | JInfinity _ => true
  | JStr s => negb (s =? "")%string
  | JArr _ | JObj _ => true
  end.

(** [a || b] on strings that may be undefined. *)
Definition str_or (a : option string) (b : string) : string :=
  match a with
  | Some s => if (s =? "")%string then b else s
  | None => b
  end.

(** An optional string argument as the value the handler sees. *)
Definition opt_str (a : option string) : JValue :=
  match a with Some s => JStr s | None => JUndefined end.

(** ** Records: objects as association lists in property order *)

Fixpoint record_get {V : Type} (o : list (string * V)) (k : string) : option V :=
  match o with
  | [] => None
  | (k', v) :: r => if (k' =? k)%string then Some v else record_get r k
  end.

(** [o[k] = v]: an existing key keeps its place, a new key goes last. *)
Fixpoint record_set {V : Type} (o : list (string * V)) (k : string) (v : V)
  : list (string * V) :=
  match o with
  | [] => [(k, v)]
  | (k', v') :: r =>
      if (k' =? k)%string then (k, v) :: r else (k', v') :: record_set r k v
  end.

Definition has_key {V : Type} (o : list (string * V)) (k : string) : bool :=
  match record_get o k with Some _ => true | None => false end.

(** [v.id].  [None] stands for the TypeError that reading a property of
    [null] or [undefined] throws; a primitive or an array has no [id]. *)
Definition dot_id (v : JValue) : option JValue :=
  match v with
  | JUndefined | JNull => None
  | JObj o => Some (match record_get o "id" with Some x => x | None => JUndefined end)
  | JBool _ | JNum _ | JReal _ _ _ | JInfinity _ | JStr _ | JArr _ =>
      Some JUndefined
  end.

(** ** Numbers

    Rounding to binary64 and the digits of Number::toString, in exact
    integer arithmetic. *)

Definition two52 : Z := 4503599627370496.
Definition two53 : Z := 9007199254740992.

Inductive Rounded : Type :=
| RZero
| RFinite (m e : Z)
| ROverflow.

Definition div_half_even (num den : Z) : Z :=
  let q := num / den in
  match 2 * (num mod den) ?= den with
  | Lt => q
  | Gt => q + 1
  | Eq => if Z.even q then q else q + 1
  end.

Definition scaled (a b e : Z) : Z * Z :=
  if 0 <=? e then (a, b * 2 ^ e) else (a * 2 ^ (- e), b).

Definition round_ratio (a b : Z) : Rounded :=
  let e1 := Z.log2 a - Z.log2 b - 52 in
  let (n1, d1) := scaled a b e1 in
  let e2 := if n1 / d1 <? two52 then e1 - 1 else e1 in
  let e3 := Z.max e2 (-1074) in
  let (n3, d3) := scaled a b e3 in
  let m := div_half_even n3 d3 in
  let (m', e') := if m =? two53 then (two52, e3 + 1) else (m, e3) in
  if m' =? 0 then RZero
  else if 971 <? e' then ROverflow
  else RFinite m' e'.

Definition round_decimal (s q : Z) : Rounded :=
  if s <=? 0 then RZero
  else if 400 <? q then ROverflow
  else if Z.log2 s + 1 + q <? -330 then RZero
  else if 0 <=? q then round_ratio (s * 10 ^ q) 1
  else round_ratio s (10 ^ (- q)).

Definition digits_of (s : Z) : string :=
  match s with
  | Zpos p => NilEmpty.string_of_uint (Pos.to_uint p)
  | _ => "0"
  end.

Fixpoint position_below (fuel : nat) (a b j : Z) : Z :=
  match fuel with
  | O => j
  | S f => if b <=? a * 10 then j else position_below f (a * 10) b (j + 1)
  end.

Definition position (a b : Z) : Z :=
  if b <=? a then Z.of_nat (String.length (digits_of (a / b)))
  else 1 - position_below 400 a b 1.

Definition candidate (m e a b n k : Z) : option Z :=
  let p := k - n in
  let (sa, sb) := if 0 <=? p then (a * 10 ^ p, b) else (a, b * 10 ^ (- p)) in
  let lo := sa / sb in
  let hi := lo + 1 in
  let ok s :=
    match round_decimal s (- p) with
    | RFinite m' e' => (m' =? m) && (e' =? e)
    | _ => false
    end in
  let r2 := 2 * (sa mod sb) in
  let lo_first := (r2 <? sb) || ((r2 =? sb) && Z.even lo) in
  match ok lo, ok hi with
  | true, true => Some (if lo_first then lo else hi)
  | true, false => Some lo
  | false, true => Some hi
  | false, false => None
  end.

Fixpoint shortest (fuel : nat) (m e a b n k : Z) : Z * Z :=
  match fuel with
  | O => (div_half_even (a * 10 ^ (Z.max 0 (k - n))) (b * 10 ^ (Z.max 0 (n - k))), k)
  | S f =>
      match candidate m e a b n k with
      | Some s => (s, k)
      | None => shortest f m e a b n (k + 1)
      end
  end.

Fixpoint strip_zeros (s : string) : string :=
  match s with
  | EmptyString => ""
  | String c r =>
      let r' := strip_zeros r in
      if ((c =? "0")%char && (r' =? "")%string)%bool then "" else String c r'
  end.

Fixpoint zeros (n : nat) : string :=
  match n with
  | O => ""
  | S m => String "0" (zeros m)
  end.

Definition format_number (ds : string) (n : Z) : string :=
  match ds with
  | EmptyString => "0"
  | String d r =>
      let k := Z.of_nat (String.length ds) in
      if (k <=? n) && (n <=? 21) then String d (r ++ zeros (Z.to_nat (n - k)))
      else if (0 <? n) && (n <=? 21) then
        String d (substring 0 (Z.to_nat (n - 1)) r ++ "."
                  ++ substring (Z.to_nat (n - 1)) (Z.to_nat (k - n)) r)
      else if (-6 <? n) && (n <=? 0) then
        String "0" ("." ++ zeros (Z.to_nat (- n)) ++ ds)
      else
        let x := n - 1 in
        let tail := String "e" (String (if (0 <=? x)%Z then "+"%char else "-"%char)
                                  (digits_of (Z.abs x))) in
        String d (match r with
                  | EmptyString => tail
                  | _ => String "." (r ++ tail)
                  end)
  end.

Definition Double_toString (neg : bool) (m e : Z) : string :=
  let (a, b) := scaled m 1 (- e) in
  let n := position a b in
  let (s, k) := shortest 16 m e a b n 1 in
  let ds := digits_of s in
  let n' := n + (Z.of_nat (String.length ds) - k) in
  (if neg then "-" else "") ++ format_number (strip_zeros ds) n'.

(** Number::toString of the integer-valued number [n]. *)
Definition Number_toString (n : Z) : string :=
  if Z.abs n <=? two53 then
    match n with
    | Z0 => "0"
    | Zpos p => NilEmpty.string_of_uint (Pos.to_uint p)
    | Zneg p => String "-" (NilEmpty.string_of_uint (Pos.to_uint p))
    end
  else
    match round_ratio (Z.abs n) 1 with
    | RFinite m e => Double_toString (n <? 0) m e
    | _ => if n <? 0 then "-Infinity" else "Infinity"
    end.

(** ToString, as a template literal applies it. *)
Fixpoint ToString (v : JValue) : string :=
  match v with
  | JUndefined => "undefined"
  | JNull => "null"
  | JBool true => "true"
  | JBool false => "false"
  | JNum n => Number_toString n
  | JReal neg m e => Double_toString neg m e
  | JInfinity true => "-Infinity"
  | JInfinity false => "Infinity"
  | JStr s => s
  | JArr l =>
      String.concat ","
        (map (fun x => match x with
                       | JUndefined | JNull => ""
                       | _ => ToString x
                       end) l)
  | JObj _ => "[object Object]"
  end.

(* ================================================================== *)
(** * JSON.stringify *)
(* ================================================================== *)

Definition dquote : ascii := "034"%char.
Definition backslash : ascii := "092"%char.
Definition newline : ascii := "010"%char.

Definition hex_digit (n : N) : ascii :=
  if (n <? 10)%N then ascii_of_N (48 + n) else ascii_of_N (87 + n).

(** ** Strings as bytes *)

Definition is_high (u : N) : bool := ((55296 <=? u) && (u <? 56320))%N.
Definition is_low (u : N) : bool := ((56320 <=? u) && (u <? 57344))%N.

(** The code point of a surrogate pair. *)
Definition pair_point (hi lo : N) : N :=
  (65536 + 1024 * (hi - 55296) + (lo - 56320))%N.

(** The bytes of a code point, or of a code unit that stands alone. *)
Definition utf8 (cp : N) : string :=
  let tail (n : N) := ascii_of_N (128 + n mod 64) in
  if (cp <? 128)%N then String (ascii_of_N cp) ""
  else if (cp <? 2048)%N then
    String (ascii_of_N (192 + cp / 64)) (String (tail cp) "")
  else if (cp <? 65536)%N then
    String (ascii_of_N (224 + cp / 4096))
      (String (tail (cp / 64)%N) (String (tail cp) ""))
  else
    String (ascii_of_N (240 + cp / 262144))
      (String (tail (cp / 4096)%N)
         (String (tail (cp / 64)%N) (String (tail cp) ""))).

(** The surrogate the three bytes [c1 c2 c3] are, when they are one. *)
Definition surrogate_unit (c1 c2 c3 : ascii) : option N :=
  let n2 := N_of_ascii c2 in
  let n3 := N_of_ascii c3 in
  if ((N_of_ascii c1 =? 237) && (160 <=? n2) && (n2 <=? 191)
      && (128 <=? n3) && (n3 <=? 191))%N
  then Some (53248 + 64 * (n2 - 128) + (n3 - 128))%N
  else None.

(** ** QuoteJSONString *)

(** One character that is not part of a surrogate. *)
Definition escape_char (c : ascii) : string :=
  let n := N_of_ascii c in
  if (n =? 8)%N then String backslash "b"
  else if (n =? 9)%N then String backslash "t"
  else if (n =? 10)%N then String backslash "n"
  else if (n =? 12)%N then String backslash "f"
  else if (n =? 13)%N then String backslash "r"
  else if (n =? 34)%N then String backslash (String dquote "")
  else if (n =? 92)%N then String backslash (String backslash "")
  else if (n <? 32)%N then
    String backslash
      (String "u" (String "0" (String "0"
         (String (hex_digit (n / 16)) (String (hex_digit (n mod 16)) "")))))
  else String c "".

(** The escape [\uXXXX] of a code unit, in lower case. *)
Definition unicode_escape (u : N) : string :=
  String backslash
    (String "u"
       (String (hex_digit (u / 4096))
          (String (hex_digit ((u / 256) mod 16))
             (String (hex_digit ((u / 16) mod 16))
                (String (hex_digit (u mod 16)) ""))))).

(** A surrogate that stands alone is written as its escape.  A high and a
    low surrogate written one after the other, each with its own three
    bytes, are left as they are. *)
Fixpoint escape (s : string) : string :=
  match s with
  | EmptyString => ""
  | String c1 r1 =>
      match r1 with
      | String c2 (String c3 r3) =>
          match surrogate_unit c1 c2 c3 with
          | Some u =>
              let alone := unicode_escape u ++ escape r3 in
              if is_high u then
                match r3 with
                | String b1 (String b2 (String b3 r6)) =>
                    match surrogate_unit b1 b2 b3 with
                    | Some v =>
                        if is_low v then
                          String c1 (String c2 (String c3
                            (String b1 (String b2 (String b3 (escape r6))))))
                        else alone
                    | None => alone
                    end
                | _ => alone
                end
              else alone
          | None => escape_char c1 ++ escape r1
          end
      | _ => escape_char c1 ++ escape r1
      end
  end.

Definition QuoteJSONString (s : string) : string :=
  String dquote (escape s ++ String dquote "").

(** The line break before an item: nothing when [gap] is empty. *)
Definition nl (gap indent : string) : string :=
  if (gap =? "")%string then "" else String newline indent.

(** The shared tail of SerializeJSONObject and SerializeJSONArray. *)
Definition enclose (open close : ascii) (gap stepback indent : string)
  (partial : list string) : string :=
  match partial with
  | [] => String open (String close "")
  | _ =>
      String open
        (nl gap indent ++ String.concat (String "," (nl gap indent)) partial
           ++ nl gap stepback ++ String close "")
  end.

Definition colon (gap : string) : string :=
  String ":" (if (gap =? "")%string then "" else " ").

(** SerializeJSONProperty without replacer; [None] is [undefined]. *)
Fixpoint SerializeJSONProperty (gap indent : string) (v : JValue)
  : option string :=
  match v with
  | JUndefined => None
  | JNull => Some "null"
  | JBool true => Some "true"
  | JBool false => Some "false"
  | JNum n => Some (Number_toString n)
  | JReal neg m e => Some (Double_toString neg m e)
  | JInfinity _ => Some "null"
  | JStr s => Some (QuoteJSONString s)
  | JArr l =>
      let inner := indent ++ gap in
      Some (enclose "[" "]" gap indent inner
              (map (fun x => match SerializeJSONProperty gap inner x with
                             | Some s => s
                             | None => "null"
                             end) l))
  | JObj o =>
      let inner := indent ++ gap in
      Some (enclose "{" "}" gap indent inner
              ((fix props (o : list (string * JValue)) : list string :=
                  match o with
                  | [] => []
                  | (k, x) :: r =>
                      match SerializeJSONProperty gap inner x with
                      | Some s => (QuoteJSONString k ++ colon gap ++ s) :: props r
                      | None => props r
                      end
                  end) o))
  end.

Fixpoint spaces (n : nat) : string :=
  match n with
  | O => ""
  | S m => String " " (spaces m)
  end.

(** [JSON.stringify(value, null, space)] with a numeric [space]; [space = 0]
    is [JSON.stringify(value)]. *)
Definition JSON_stringify (value : JValue) (space : nat) : option string :=
  SerializeJSONProperty (spaces (Nat.min space 10)) "" value.

(* ================================================================== *)
(** * JSON.parse *)
(* ================================================================== *)

Definition is_ws (c : ascii) : bool :=
  let n := N_of_ascii c in
  ((n =? 32) || (n =? 9) || (n =? 10) || (n =? 13))%N.

Fixpoint skip_ws (s : string) : string :=
  match s with
  | EmptyString => ""
  | String c r => if is_ws c then skip_ws r else s
  end.

Definition is_digit (c : ascii) : bool :=
  let n := N_of_ascii c in ((48 <=? n) && (n <=? 57))%N.

Fixpoint span_digits (s : string) : string * string :=
  match s with
  | EmptyString => ("", "")
  | String c r =>
      if is_digit c
      then let (d, r') := span_digits r in (String c d, r')
      else ("", s)
  end.

Definition leading_zero (ds : string) : bool :=
  match ds with
  | String c (String _ _) => (c =? "0")%char
  | _ => false
  end.

(** The characters a numeral is made of. *)
Definition is_number_char (c : ascii) : bool :=
  is_digit c
  || ((c =? "-") || (c =? "+") || (c =? ".") || (c =? "e") || (c =? "E"))%char.

Fixpoint span_number (s : string) : string * string :=
  match s with
  | EmptyString => ("", "")
  | String c r =>
      if is_number_char c
      then let (d, r') := span_number r in (String c d, r')
      else ("", s)
  end.

Definition digits_value (ds : string) : Z :=
  match NilEmpty.uint_of_string ds with
  | Some d => Z.of_uint d
  | None => 0
  end.

(** The number [s * 10^q] with its sign, as a value. *)
Definition number_value (neg : bool) (s q : Z) : JValue :=
  let sign (n : Z) := if neg then - n else n in
  if (q =? 0) && (s <=? two53) then JNum (sign s)
  else
    match round_decimal s q with
    | RZero => JNum 0
    | ROverflow => JInfinity neg
    | RFinite m e =>
        if 0 <=? e then
          if m * 2 ^ e <=? two53 then JNum (sign (m * 2 ^ e)) else JReal neg m e
        else if m mod 2 ^ (- e) =? 0 then JNum (sign (m / 2 ^ (- e)))
        else JReal neg m e
    end.

(** The fraction of a numeral: nothing, or a point and at least one digit. *)
Definition fraction_part (s : string) : option (string * string) :=
  match s with
  | EmptyString => Some ("", "")
  | String c r =>
      if (c =? ".")%char then
        let (fs, r1) := span_digits r in
        if (fs =? "")%string then None else Some (fs, r1)
      else Some ("", s)
  end.

(** The exponent of a numeral, which ends it: nothing, or [e] or [E], a
    sign or none, and at least one digit. *)
Definition exponent_part (s : string) : option Z :=
  match s with
  | EmptyString => Some 0
  | String c r =>
      if ((c =? "e") || (c =? "E"))%char then
        let (neg, r1) :=
          match r with
          | EmptyString => (false, r)
          | String g r' =>
              if (g =? "-")%char then (true, r')
              else if (g =? "+")%char then (false, r')
              else (false, r)
          end in
        let (es, r2) := span_digits r1 in
        if ((es =? "") || negb (r2 =? ""))%string then None
        else Some (if neg then - digits_value es else digits_value es)
      else None
  end.

(** The value of a whole numeral: a minus sign or none; the digits of the
    integer part, with no leading zero unless it is the only digit; a
    fraction or none; an exponent or none. *)
Definition numeral_value (tok : string) : option JValue :=
  let (neg, r) :=
    match tok with
    | EmptyString => (false, tok)
    | String c r => if (c =? "-")%char then (true, r) else (false, tok)
    end in
  let (ds, r1) := span_digits r in
  if ((ds =? "")%string || leading_zero ds)%bool then None
  else
    match fraction_part r1 with
    | None => None
    | Some (fs, r2) =>
        match exponent_part r2 with
        | None => None
        | Some x =>
            Some (number_value neg (digits_value (ds ++ fs))
                    (x - Z.of_nat (String.length fs)))
        end
    end.

(** A number: the longest run of numeral characters has to be a numeral. *)
Definition parse_number (s : string) : option (JValue * string) :=
  let (tok, rest) := span_number s in
  match numeral_value tok with
  | Some v => Some (v, rest)
  | None => None
  end.

Definition hex_value (c : ascii) : option N :=
  let n := N_of_ascii c in
  if ((48 <=? n) && (n <=? 57))%N then Some (n - 48)%N
  else if ((97 <=? n) && (n <=? 102))%N then Some (n - 87)%N
  else if ((65 <=? n) && (n <=? 70))%N then Some (n - 55)%N
  else None.

(** The code unit of [\uXXXX]. *)
Definition code_unit (h1 h2 h3 h4 : ascii) : option N :=
  match hex_value h1, hex_value h2, hex_value h3, hex_value h4 with
  | Some a, Some b, Some c, Some d => Some (4096 * a + 256 * b + 16 * c + d)%N
  | _, _, _, _ => None
  end.

Definition simple_escape (e : ascii) : option ascii :=
  if (e =? dquote)%char then Some dquote
  else if (e =? backslash)%char then Some backslash
  else if (e =? "/")%char then Some "/"%char
  else if (e =? "b")%char then Some "008"%char
  else if (e =? "f")%char then Some "012"%char
  else if (e =? "n")%char then Some "010"%char
  else if (e =? "r")%char then Some "013"%char
  else if (e =? "t")%char then Some "009"%char
  else None.

Definition cons_char (c : ascii) (r : option (string * string))
  : option (string * string) :=
  match r with
  | Some (s, rest) => Some (String c s, rest)
  | None => None
  end.

Definition prepend (p : string) (r : option (string * string))
  : option (string * string) :=
  match r with
  | Some (s, rest) => Some (p ++ s, rest)
  | None => None
  end.

(** The characters of a string literal after its opening quote, up to and
    including the closing one.  An escaped high surrogate and the escaped
    low surrogate after it are one code point. *)
Fixpoint parse_chars (s : string) : option (string * string) :=
  match s with
  | EmptyString => None
  | String c r =>
      if (c =? dquote)%char then Some ("", r)
      else if (c =? backslash)%char then
        match r with
        | EmptyString => None
        | String e r1 =>
            if (e =? "u")%char then
              match r1 with
              | String h1 (String h2 (String h3 (String h4 r2))) =>
                  match code_unit h1 h2 h3 h4 with
                  | Some u =>
                      let alone := prepend (utf8 u) (parse_chars r2) in
                      if is_high u then
                        match r2 with
                        | String b (String x (String h5 (String h6
                            (String h7 (String h8 r3))))) =>
                            match (if ((b =? backslash) && (x =? "u"))%char
                                   then code_unit h5 h6 h7 h8 else None) with
                            | Some v =>
                                if is_low v
                                then prepend (utf8 (pair_point u v))
                                       (parse_chars r3)
                                else alone
                            | None => alone
                            end
                        | _ => alone
                        end
                      else alone
                  | None => None
                  end
              | _ => None
              end
            else
              match simple_escape e with
              | Some u => cons_char u (parse_chars r1)
              | None => None
              end
        end
      else if (N_of_ascii c <? 32)%N then None
      else cons_char c (parse_chars r)
  end.

(** The array index a key denotes: a numeral without a leading zero, up to
    2^32 - 2. *)
Fixpoint all_digits (s : string) : bool :=
  match s with
  | EmptyString => true
  | String c r => is_digit c && all_digits r
  end.

Definition array_index (k : string) : option Z :=
  if (all_digits k && negb (k =? "")%string && negb (leading_zero k)
      && (String.length k <=? 10)%nat)%bool
  then if digits_value k <=? 4294967294 then Some (digits_value k) else None
  else None.

(** A new property with the index [i] goes before the first property that
    has a larger index or none. *)
Fixpoint insert_index (o : list (string * JValue)) (k : string) (i : Z)
  (v : JValue) : list (string * JValue) :=
  match o with
  | [] => [(k, v)]
  | (k', v') :: r =>
      match array_index k' with
      | Some j => if j <? i then (k', v') :: insert_index r k i v
                  else (k, v) :: o
      | None => (k, v) :: o
      end
  end.

(** CreateDataProperty on an ordinary object, in the order of
    OrdinaryOwnPropertyKeys. *)
Definition define_property (o : list (string * JValue)) (k : string)
  (v : JValue) : list (string * JValue) :=
  if has_key o k then record_set o k v
  else
    match array_index k with
    | Some i => insert_index o k i v
    | None => record_set o k v
    end.

(** [s] without the prefix [lit]. *)
Fixpoint expect (lit s : string) : option string :=
  match lit, s with
  | EmptyString, _ => Some s
  | String a l, String b r => if (a =? b)%char then expect l r else None
  | String _ _, EmptyString => None
  end.

Definition literal (lit : string) (v : JValue) (s : string)
  : option (JValue * string) :=
  match expect lit s with
  | Some r => Some (v, r)
  | None => None
  end.

Fixpoint parse_value (fuel : nat) (s : string) {struct fuel}
  : option (JValue * string) :=
  match fuel with
  | O => None
  | S f =>
      match skip_ws s with
      | EmptyString => None
      | String c r =>
          if (c =? "{")%char then
            match skip_ws r with
            | EmptyString => None
            | String c' r' =>
                if (c' =? "}")%char then Some (JObj [], r')
                else parse_members f [] r
            end
          else if (c =? "[")%char then
            match skip_ws r with
            | EmptyString => None
            | String c' r' =>
                if (c' =? "]")%char then Some (JArr [], r')
                else parse_elements f [] r
            end
          else if (c =? dquote)%char then
            match parse_chars r with
            | Some (str, r') => Some (JStr str, r')
            | None => None
            end
          else if (c =? "n")%char then literal "ull" JNull r
          else if (c =? "t")%char then literal "rue" (JBool true) r
          else if (c =? "f")%char then literal "alse" (JBool false) r
          else parse_number (String c r)
      end
  end

with parse_elements (fuel : nat) (acc : list JValue) (s : string) {struct fuel}
  : option (JValue * string) :=
  match fuel with
  | O => None
  | S f =>
      match parse_value f s with
      | None => None
      | Some (v, r) =>
          match skip_ws r with
          | EmptyString => None
          | String c r' =>
              if (c =? ",")%char then parse_elements f (v :: acc) r'
              else if (c =? "]")%char then Some (JArr (rev (v :: acc)), r')
              else None
          end
      end
  end

with parse_members (fuel : nat) (acc : list (string * JValue)) (s : string)
  {struct fuel} : option (JValue * string) :=
  match fuel with
  | O => None
  | S f =>
      match skip_ws s with
      | EmptyString => None
      | String q r =>
          if (q =? dquote)%char then
            match parse_chars r with
            | None => None
            | Some (k, r1) =>
                match skip_ws r1 with
                | EmptyString => None
                | String c1 r2 =>
                    if (c1 =? ":")%char then
                      match parse_value f r2 with
                      | None => None
                      | Some (v, r3) =>
                          match skip_ws r3 with
                          | EmptyString => None
                          | String c3 r4 =>
                              if (c3 =? ",")%char
                              then parse_members f (define_property acc k v) r4
                              else if (c3 =? "}")%char
                              then Some (JObj (define_property acc k v), r4)
                              else None
                          end
                      end
                    else None
                end
            end
          else None
      end
  end.

(** [JSON.parse(text)]; [None] is the SyntaxError. *)
Definition JSON_parse (text : string) : option JValue :=
  match parse_value (S (String.length text)) text with
  | Some (v, r) =>
      match skip_ws r with
      | EmptyString => Some v
      | String _ _ => None
      end
  | None => None
  end.

(** A JSON value: no [undefined] and no infinity inside, every number in
    its one form, and every object with its keys written once, in property
    order. *)
Fixpoint unique_keys (ks : list string) : bool :=
  match ks with
  | [] => true
  | k :: r => negb (existsb (String.eqb k) r) && unique_keys r
  end.

Definition no_index (k : string) : bool :=
  match array_index k with Some _ => false | None => true end.

Fixpoint ordered_from (lo : Z) (ks : list string) : bool :=
  match ks with
  | [] => true
  | k :: r =>
      match array_index k with
      | Some i => (lo <? i) && ordered_from i r
      | None => forallb no_index r
      end
  end.

Definition property_order (ks : list string) : bool := ordered_from (-1) ks.

(** The number is in its normalised form: its digits read back as it. *)
Definition normalised (neg : bool) (m e : Z) : bool :=
  match parse_number (Double_toString neg m e) with
  | Some (JReal neg' m' e', EmptyString) =>
      Bool.eqb neg neg' && (m =? m') && (e =? e')
  | _ => false
  end.

Fixpoint serializable (v : JValue) : bool :=
  match v with
  | JUndefined | JInfinity _ => false
  | JNull | JBool _ | JStr _ => true
  | JNum n => Z.abs n <=? two53
  | JReal neg m e => normalised neg m e
  | JArr l => forallb serializable l
  | JObj o =>
      unique_keys (map fst o) && property_order (map fst o)
      && forallb (fun kv => let (_, x) := kv : string * JValue in serializable x) o
  end.
(* ================================================================== *)
(** * JSON texts *)
(* ================================================================== *)

(** The grammar of JSON (ECMA-404), with the value each text denotes, to
    compare [JSON_parse] with.  Texts are taken apart by concatenation;
    nothing here scans or recurses on the input. *)

Fixpoint all_ws (s : string) : bool :=
  match s with
  | EmptyString => true
  | String c r => is_ws c && all_ws r
  end.

(** ** Numbers *)

(** The digits of the integer part: [0], or digits that do not start with
    [0]. *)
Inductive json_int : string -> Prop :=
| int_zero : json_int "0"
| int_digits (c : ascii) (s : string) :
    is_digit c = true -> c <> "0"%char -> all_digits s = true ->
    json_int (String c s).

(** A fraction and its digits: nothing, or a point and at least one
    digit. *)
Inductive json_frac : string -> string -> Prop :=
| frac_none : json_frac "" ""
| frac_some (fs : string) :
    all_digits fs = true -> fs <> "" -> json_frac (String "." fs) fs.

Inductive json_sign : string -> bool -> Prop :=
| sign_none : json_sign "" false
| sign_plus : json_sign "+" false
| sign_minus : json_sign "-" true.

(** An exponent and its value: nothing, or [e] or [E], a sign or none, and
    at least one digit. *)
Inductive json_exp : string -> Z -> Prop :=
| exp_none : json_exp "" 0
| exp_some (c : ascii) (sign : string) (neg : bool) (es : string) :
    c = "e"%char \/ c = "E"%char -> json_sign sign neg ->
    all_digits es = true -> es <> "" ->
    json_exp (String c (sign ++ es))
      (if neg then - digits_value es else digits_value es).

(** A number denotes the binary64 value nearest to its decimal value. *)
Inductive json_number : string -> JValue -> Prop :=
| number_intro (neg : bool) (ip fp fs ep : string) (x : Z) :
    json_int ip -> json_frac fp fs -> json_exp ep x ->
    json_number ((if neg then "-" else "") ++ ip ++ fp ++ ep)
      (number_value neg (digits_value (ip ++ fs))
         (x - Z.of_nat (String.length fs))).

(** ** Strings *)

(** The low surrogate escaped at the head of [s], to go with the high
    surrogate [u], and what follows it. *)
Definition low_after (u : N) (s : string) : option (N * string) :=
  if is_high u then
    match s with
    | String b (String x (String h1 (String h2 (String h3 (String h4 r))))) =>
        match (if ((b =? backslash) && (x =? "u"))%char
               then code_unit h1 h2 h3 h4 else None) with
        | Some v => if is_low v then Some (v, r) else None
        | None => None
        end
    | _ => None
    end
  else None.

(** The characters between the quotes of a string, and the string they
    denote: a character other than the quote, the backslash and the
    control characters stands for itself; the two-character escapes; an
    escaped high surrogate followed by an escaped low surrogate is one code
    point; every other [\uXXXX] is the code unit it names. *)
Inductive json_chars : string -> string -> Prop :=
| chars_end : json_chars "" ""
| chars_plain (c : ascii) (s str : string) :
    (N_of_ascii c <? 32)%N = false -> c <> dquote -> c <> backslash ->
    json_chars s str -> json_chars (String c s) (String c str)
| chars_escape (e u : ascii) (s str : string) :
    simple_escape e = Some u -> json_chars s str ->
    json_chars (String backslash (String e s)) (String u str)
| chars_unit (h1 h2 h3 h4 : ascii) (u : N) (s str : string) :
    code_unit h1 h2 h3 h4 = Some u -> low_after u s = None ->
    json_chars s str ->
    json_chars
      (String backslash (String "u" (String h1 (String h2 (String h3
         (String h4 s))))))
      (utf8 u ++ str)
| chars_pair (h1 h2 h3 h4 l1 l2 l3 l4 : ascii) (hi lo : N) (s str : string) :
    code_unit h1 h2 h3 h4 = Some hi -> is_high hi = true ->
    code_unit l1 l2 l3 l4 = Some lo -> is_low lo = true ->
    json_chars s str ->
    json_chars
      (String backslash (String "u" (String h1 (String h2 (String h3
         (String h4
            (String backslash (String "u" (String l1 (String l2 (String l3
               (String l4 s))))))))))))
      (utf8 (pair_point hi lo) ++ str).

(** ** Values *)

(** The object a list of members makes: a key written again replaces the
    value, and the keys are in property order. *)
Definition object_of (ms : list (string * JValue)) : list (string * JValue) :=
  fold_left (fun o kv => define_property o (fst kv) (snd kv)) ms [].

Inductive json_value : string -> JValue -> Prop :=
| value_null : json_value "null" JNull
| value_true : json_value "true" (JBool true)
| value_false : json_value "false" (JBool false)
| value_number (t : string) (v : JValue) :
    json_number t v -> json_value t v
| value_string (s str : string) :
    json_chars s str ->
    json_value (String dquote (s ++ String dquote "")) (JStr str)
| value_empty_array (w : string) :
    all_ws w = true -> json_value (String "[" (w ++ "]")) (JArr [])
| value_array (t : string) (vs : list JValue) :
    json_elements t vs -> json_value (String "[" (t ++ "]")) (JArr vs)
| value_empty_object (w : string) :
    all_ws w = true -> json_value (String "{" (w ++ "}")) (JObj [])
| value_object (t : string) (ms : list (string * JValue)) :
    json_members t ms ->
    json_value (String "{" (t ++ "}")) (JObj (object_of ms))

with json_elements : string -> list JValue -> Prop :=
| elements_last (w1 t w2 : string) (v : JValue) :
    all_ws w1 = true -> all_ws w2 = true -> json_value t v ->
    json_elements (w1 ++ t ++ w2) [v]
| elements_more (w1 t w2 ts : string) (v : JValue) (vs : list JValue) :
    all_ws w1 = true -> all_ws w2 = true -> json_value t v ->
    json_elements ts vs ->
    json_elements (w1 ++ t ++ w2 ++ String "," ts) (v :: vs)

with json_members : string -> list (string * JValue) -> Prop :=
| members_last (w1 k w2 w3 t w4 key : string) (v : JValue) :
    all_ws w1 = true -> all_ws w2 = true -> all_ws w3 = true ->
    all_ws w4 = true -> json_chars k key -> json_value t v ->
    json_members
      (w1 ++ String dquote (k ++ String dquote (w2 ++ String ":" (w3 ++ t ++ w4))))
      [(key, v)]
| members_more (w1 k w2 w3 t w4 key ts : string) (v : JValue)
    (ms : list (string * JValue)) :
    all_ws w1 = true -> all_ws w2 = true -> all_ws w3 = true ->
    all_ws w4 = true -> json_chars k key -> json_value t v ->
    json_members ts ms ->
    json_members
      (w1 ++ String dquote (k ++ String dquote
         (w2 ++ String ":" (w3 ++ t ++ w4 ++ String "," ts))))
      ((key, v) :: ms).

(** A JSON text is a value with white space around it. *)
Definition json_text (text : string) (v : JValue) : Prop :=
  exists w1 t w2,
    all_ws w1 = true /\ all_ws w2 = true
    /\ text = w1 ++ t ++ w2 /\ json_value t v.

(* ================================================================== *)
(** * Requests, responses and asynchronous code *)
(* ================================================================== *)

(** [process.env], as far as the program reads it. *)
Record Env : Type := {
  SOLAFON_API_URL : option string;
  SOLAFON_BOT_TOKEN : option string
}.

Definition API_URL (env : Env) : string :=
  str_or (SOLAFON_API_URL env) "https://api.solafon.com".

Definition BOT_TOKEN (env : Env) : string :=
  str_or (SOLAFON_BOT_TOKEN env) "".

Definition nonempty (s : string) : bool := negb (s =? "")%string.

(** A URL: the text it was made from and its query parameters in order.
    The normalisation and the percent-encoding the platform applies are not
    modelled. *)
Record URL : Type := {
  href : string;
  searchParams : list (string * string)
}.

Definition URL_new (s : string) : URL := {| href := s; searchParams := [] |}.

(** URLSearchParams.set: the first pair named [k] takes the value and the
    other pairs named [k] go; without such a pair, [(k, v)] is appended. *)
Fixpoint params_set (ps : list (string * string)) (k v : string)
  : list (string * string) :=
  match ps with
  | [] => [(k, v)]
  | (k', v') :: r =>
      if (k' =? k)%string
      then (k, v) :: filter (fun p => negb (fst p =? k)%string) r
      else (k', v') :: params_set r k v
  end.

Definition searchParams_set (u : URL) (k v : string) : URL :=
  {| href := href u; searchParams := params_set (searchParams u) k v |}.

Record Request : Type := {
  method : string;
  url : URL;
  headers : list (string * string);
  body : option string
}.

(** What [await fetch(...)] followed by [await res.text()] gives: the
    promise rejects, or there is a response with a status and a text. *)
Inductive FetchOutcome : Type :=
| NetworkError (reason : string)
| HttpResponse (status : Z) (text : string).

Inductive JsError : Type :=
| FetchFailed (reason : string)
| TypeError (message : string)
| InvalidParams.

(** An async function: it returns, throws, or awaits a request and goes on
    with the outcome. *)
Inductive Async (A : Type) : Type :=
| Return (a : A)
| Throw (e : JsError)
| Await (req : Request) (k : FetchOutcome -> Async A).

Arguments Return {A} a.
Arguments Throw {A} e.
Arguments Await {A} req k.

Fixpoint bind {A B : Type} (m : Async A) (f : A -> Async B) : Async B :=
  match m with
  | Return a => f a
  | Throw e => Throw e
  | Await req k => Await req (fun out => bind (k out) f)
  end.

Notation "x <- m ;; k" := (bind m (fun x => k))
  (at level 61, m at next level, right associativity).

(** The network: the outcome of a request, given the requests sent before. *)
Definition Network : Type := list Request -> Request -> FetchOutcome.

Inductive Outcome (A : Type) : Type :=
| Returned (a : A)
| Thrown (e : JsError).

Arguments Returned {A} a.
Arguments Thrown {A} e.

(** Runs [m] against [net]; gives the requests sent, oldest first, and the
    outcome. *)
Fixpoint run {A : Type} (net : Network) (sent : list Request) (m : Async A)
  : list Request * Outcome A :=
  match m with
  | Return a => (sent, Returned a)
  | Throw e => (sent, Thrown e)
  | Await req k => run net (sent ++ [req])%list (k (net sent req))
  end.

Definition requests {A : Type} (net : Network) (m : Async A) : list Request :=
  fst (run net [] m).

Definition outcome {A : Type} (net : Network) (m : Async A) : Outcome A :=
  snd (run net [] m).

(* ================================================================== *)
(** * apiCall and ok *)
(* ================================================================== *)

(** Lines 33-38: the URL with the truthy values of [query]. *)
Definition add_query (u : URL) (query : option (list (string * string))) : URL :=
  match query with
  | Some q =>
      fold_left
        (fun u kv => let (k, v) := kv : string * string in
                     if nonempty v then searchParams_set u k v else u)
        q u
  | None => u
  end.

(** Lines 40-45. *)
Definition make_headers (env : Env) : list (string * string) :=
  let headers := [("Content-Type", "application/json")] in
  if nonempty (BOT_TOKEN env)
  then record_set headers "X-Bot-Token" (BOT_TOKEN env)
  else headers.

(** Lines 33-51: the request [fetch] is called with. *)
Definition make_request (env : Env) (method path : string) (body : JValue)
  (query : option (list (string * string))) : Request :=
  {| method := method;
     url := add_query (URL_new (API_URL env ++ path)) query;
     headers := make_headers env;
     body := if truthy body then JSON_stringify body 0 else None |}.

(** Lines 53-58: the parsed body, or the fallback object. *)
Definition read_response (status : Z) (text : string) : JValue :=
  match JSON_parse text with
  | Some v => v
  | None => JObj [("status", JNum status); ("body", JStr text)]
  end.

Definition apiCall (env : Env) (method path : string) (body : JValue)
  (query : option (list (string * string))) : Async JValue :=
  Await (make_request env method path body query)
    (fun out =>
       match out with
       | NetworkError reason => Throw (FetchFailed reason)
       | HttpResponse status text => Return (read_response status text)
       end).

Module Block.
Record t : Type := { type : string; text : option string }.
End Block.

Record Envelope : Type := { content : list Block.t }.

Definition ok (data : JValue) : Envelope :=
  {| content := [ {| Block.type := "text";
                     Block.text := JSON_stringify data 2 |} ] |}.

(* ================================================================== *)
(** * Schemas *)
(* ================================================================== *)

(** The part of zod the two paginated tools use.  A schema reads a raw
    value; [None] is the validation error. *)
Module z.
Definition schema (A : Type) : Type := JValue -> option A.

Definition string : schema String.string :=
  fun v => match v with JStr s => Some s | _ => None end.

(** [z.number()] gives the value of an integer-valued number: [n] for
    [JNum n], and m * 2^e with its sign for an integer beyond 2^53.  A
    number with a fraction and an infinity are refused here already: every
    [z.number()] of the program is followed by [.int()], which refuses
    them. *)
Definition number : schema Z :=
  fun v => match v with
           | JNum n => Some n
           | JReal neg m e =>
               if (0 <=? e) && (two53 <? m * 2 ^ e)
               then Some (if neg then - (m * 2 ^ e) else m * 2 ^ e)
               else None
           | _ => None
           end.

Definition int (s : schema Z) : schema Z := s.

Definition min (lo : Z) (s : schema Z) : schema Z :=
  fun v => match s v with
           | Some n => if lo <=? n then Some n else None
           | None => None
           end.

Definition max (hi : Z) (s : schema Z) : schema Z :=
  fun v => match s v with
           | Some n => if n <=? hi then Some n else None
           | None => None
           end.

Definition default {A : Type} (d : A) (s : schema A) : schema A :=
  fun v => match v with JUndefined => Some d | _ => s v end.

Definition optional {A : Type} (s : schema A) : schema (option A) :=
  fun v => match v with
           | JUndefined => Some None
           | _ => match s v with Some a => Some (Some a) | None => None end
           end.

(** The value of the key [k] of the raw arguments. *)
Definition field (o : list (String.string * JValue)) (k : String.string) : JValue :=
  match record_get o k with Some v => v | None => JUndefined end.

(** The members of the raw arguments, which have to be an object; a call
    without arguments is read as a call with the empty object. *)
Definition members (raw : JValue) : option (list (String.string * JValue)) :=
  match raw with
  | JObj o => Some o
  | JUndefined => Some []
  | _ => None
  end.
End z.

Notation "s '.>' f" := (f s) (at level 40, left associativity, only parsing).

(** [server.tool(name, description, shape, handler)]: the raw arguments go
    through the schema, and the handler runs on what the schema gives. *)
Definition tool {A : Type} (shape : z.schema A) (handler : A -> Async Envelope)
  (raw : JValue) : Async Envelope :=
  match shape raw with
  | Some args => handler args
  | None => Throw InvalidParams
  end.

(* ================================================================== *)
(** * The tools *)
(* ================================================================== *)

(** The handlers take the arguments as the schema delivers them: defaults
    filled in, optional arguments possibly absent, formats checked. *)

Inductive MessageType : Type := text_type | image_type | carousel_type.

Definition MessageType_string (t : MessageType) : string :=
  match t with
  | text_type => "text"
  | image_type => "image"
  | carousel_type => "carousel"
  end.

Inductive ButtonAction : Type := callback | open_url | webApp.

Definition ButtonAction_string (a : ButtonAction) : string :=
  match a with
  | callback => "callback"
  | open_url => "url"
  | webApp => "webApp"
  end.

(** A key of an object the schema made, present when the argument was. *)
Definition opt_key (k : string) (a : option string) : list (string * JValue) :=
  match a with Some s => [(k, JStr s)] | None => [] end.

Module Button.
Record t : Type := {
  id : string;
  text : string;
  action : ButtonAction;
  payload : option string;
  url : option string
}.

Definition value (b : t) : JValue :=
  JObj ([("id", JStr (id b)); ("text", JStr (text b));
         ("action", JStr (ButtonAction_string (action b)))]
          ++ opt_key "payload" (payload b) ++ opt_key "url" (url b))%list.
End Button.

Definition opt_buttons (a : option (list Button.t)) : JValue :=
  match a with
  | Some l => JArr (map Button.value l)
  | None => JUndefined
  end.

Module Card.
Record t : Type := {
  id : string;
  title : string;
  subtitle : option string;
  imageUrl : option string;
  buttons : option (list Button.t)
}.

Definition value (c : t) : JValue :=
  JObj ([("id", JStr (id c)); ("title", JStr (title c))]
          ++ opt_key "subtitle" (subtitle c) ++ opt_key "imageUrl" (imageUrl c)
          ++ match buttons c with
             | Some l => [("buttons", JArr (map Button.value l))]
             | None => []
             end)%list.
End Card.

Definition opt_cards (a : option (list Card.t)) : JValue :=
  match a with
  | Some l => JArr (map Card.value l)
  | None => JUndefined
  end.

Definition opt_strings (a : option (list string)) : JValue :=
  match a with
  | Some l => JArr (map JStr l)
  | None => JUndefined
  end.

(** [if (v) o[k] = v]. *)
Definition assign_if (o : list (string * JValue)) (k : string) (v : JValue)
  : list (string * JValue) :=
  if truthy v then record_set o k v else o.

(** [if (v) query[k] = v] on a record of strings. *)
Definition query_if (q : list (string * string)) (k : string) (v : option string)
  : list (string * string) :=
  match v with
  | Some s => if nonempty s then record_set q k s else q
  | None => q
  end.

Module get_bot_info.
Definition handler (env : Env) : Async Envelope :=
  result <- apiCall env "GET" "/api/bot/me" JUndefined None ;;
  Return (ok result).
End get_bot_info.

Module send_message.
Record args : Type := {
  conversationId : string;
  type : MessageType;
  text : option string;
  imageUrl : option string;
  buttons : option (list Button.t);
  cards : option (list Card.t)
}.

(** Lines 154-158. *)
Definition content (a : args) : list (string * JValue) :=
  let content := [("type", JStr (MessageType_string (type a)))] in
  let content := assign_if content "text" (opt_str (text a)) in
  let content := assign_if content "imageUrl" (opt_str (imageUrl a)) in
  let content := assign_if content "buttons" (opt_buttons (buttons a)) in
  let content := assign_if content "cards" (opt_cards (cards a)) in
  content.

Definition handler (env : Env) (a : args) : Async Envelope :=
  result <- apiCall env "POST" "/api/bot/messages"
              (JObj [("conversationId", JStr (conversationId a));
                     ("content", JObj (content a))]) None ;;
  Return (ok result).
End send_message.

Module edit_message.
Record args : Type := {
  messageId : string;
  type : MessageType;
  text : option string;
  buttons : option (list Button.t)
}.

(** Lines 188-190. *)
Definition content (a : args) : list (string * JValue) :=
  let content := [("type", JStr (MessageType_string (type a)))] in
  let content := assign_if content "text" (opt_str (text a)) in
  let content := assign_if content "buttons" (opt_buttons (buttons a)) in
  content.

Definition handler (env : Env) (a : args) : Async Envelope :=
  result <- apiCall env "PATCH" ("/api/bot/messages/" ++ messageId a)
              (JObj [("content", JObj (content a))]) None ;;
  Return (ok result).
End edit_message.

Module delete_message.
Record args : Type := { messageId : string }.

Definition handler (env : Env) (a : args) : Async Envelope :=
  result <- apiCall env "DELETE" ("/api/bot/messages/" ++ messageId a)
              JUndefined None ;;
  Return (ok result).
End delete_message.

Module list_conversations.
Record args : Type := { limit : Z; offset : Z }.

Definition limit_schema : z.schema Z :=
  z.number .> z.int .> z.min 1 .> z.max 100 .> z.default 20.

Definition offset_schema : z.schema Z :=
  z.number .> z.int .> z.min 0 .> z.default 0.

Definition shape : z.schema args :=
  fun raw =>
    match z.members raw with
    | Some o =>
        match limit_schema (z.field o "limit"),
              offset_schema (z.field o "offset") with
        | Some l, Some f => Some {| limit := l; offset := f |}
        | _, _ => None
        end
    | None => None
    end.

Definition handler (env : Env) (a : args) : Async Envelope :=
  result <- apiCall env "GET" "/api/bot/conversations" JUndefined
              (Some [("limit", Number_toString (limit a));
                     ("offset", Number_toString (offset a))]) ;;
  Return (ok result).

Definition registered (env : Env) : JValue -> Async Envelope :=
  tool shape (handler env).
End list_conversations.

Module get_conversation_messages.
Record args : Type := {
  conversationId : string;
  limit : Z;
  before : option string
}.

Definition query (a : args) : list (string * string) :=
  let query := [("limit", Number_toString (limit a))] in
  query_if query "before" (before a).

Definition handler (env : Env) (a : args) : Async Envelope :=
  result <- apiCall env "GET"
              ("/api/bot/conversations/" ++ conversationId a ++ "/messages")
              JUndefined (Some (query a)) ;;
  Return (ok result).
End get_conversation_messages.

Module get_user.
Record args : Type := { userId : string }.

Definition handler (env : Env) (a : args) : Async Envelope :=
  result <- apiCall env "GET" ("/api/bot/users/" ++ userId a) JUndefined None ;;
  Return (ok result).
End get_user.

Module set_webhook.
Record args : Type := { url : string; events : option (list string) }.

Definition lookup_failed : JValue :=
  JObj [("error", JStr "Could not determine app ID. Check your bot token.")].

Definition handler (env : Env) (a : args) : Async Envelope :=
  botInfo <- apiCall env "GET" "/api/bot/me" JUndefined None ;;
  match dot_id botInfo with
  | None => Throw (TypeError "Cannot read properties of null (reading 'id')")
  | Some appId =>
      if negb (truthy appId) then Return (ok lookup_failed)
      else
        result <- apiCall env "PUT"
                    ("/api/developer/apps/" ++ ToString appId ++ "/webhook")
                    (JObj [("url", JStr (url a));
                           ("events", opt_strings (events a))]) None ;;
        Return (ok result)
  end.
End set_webhook.

Module set_welcome_message.
Record args : Type := { text : string; buttons : option (list Button.t) }.

Definition lookup_failed : JValue :=
  JObj [("error", JStr "Could not determine app ID.")].

(** Lines 308-309. *)
Definition content (a : args) : list (string * JValue) :=
  let content := [("type", JStr "text"); ("text", JStr (text a))] in
  assign_if content "buttons" (opt_buttons (buttons a)).

Definition handler (env : Env) (a : args) : Async Envelope :=
  botInfo <- apiCall env "GET" "/api/bot/me" JUndefined None ;;
  match dot_id botInfo with
  | None => Throw (TypeError "Cannot read properties of null (reading 'id')")
  | Some appId =>
      if negb (truthy appId) then Return (ok lookup_failed)
      else
        result <- apiCall env "PUT"
                    ("/api/developer/apps/" ++ ToString appId ++ "/welcome-message")
                    (JObj [("content", JObj (content a))]) None ;;
        Return (ok result)
  end.
End set_welcome_message.

Module get_wallet_balance.
Record args : Type := { address : string }.

Definition handler (env : Env) (a : args) : Async Envelope :=
  result <- apiCall env "GET" "/api/wallet/balance" JUndefined
              (Some [("address", address a)]) ;;
  Return (ok result).
End get_wallet_balance.

Module get_token_list.
Definition handler (env : Env) : Async Envelope :=
  result <- apiCall env "GET" "/api/wallet/tokens" JUndefined None ;;
  Return (ok result).
End get_token_list.

Module get_token_prices.
Record args : Type := { mints : option string }.

Definition handler (env : Env) (a : args) : Async Envelope :=
  result <- apiCall env "GET" "/api/wallet/prices" JUndefined
              (Some [("mints", str_or (mints a) "all")]) ;;
  Return (ok result).
End get_token_prices.

Module get_transaction_history.
Record args : Type := {
  address : string;
  limit : Z;
  before : option string
}.

Definition limit_schema : z.schema Z :=
  z.number .> z.int .> z.min 1 .> z.max 50 .> z.default 20.

Definition shape : z.schema args :=
  fun raw =>
    match z.members raw with
    | Some o =>
        match z.string (z.field o "address"),
              limit_schema (z.field o "limit"),
              (z.string .> z.optional) (z.field o "before") with
        | Some a, Some l, Some b =>
            Some {| address := a; limit := l; before := b |}
        | _, _, _ => None
        end
    | None => None
    end.

Definition query (a : args) : list (string * string) :=
  let query := [("address", address a);
                ("limit", Number_toString (limit a))] in
  query_if query "before" (before a).

Definition handler (env : Env) (a : args) : Async Envelope :=
  result <- apiCall env "GET" "/api/wallet/transactions" JUndefined
              (Some (query a)) ;;
  Return (ok result).

Definition registered (env : Env) : JValue -> Async Envelope :=
  tool shape (handler env).
End get_transaction_history.

Module get_transaction_status.
Record args : Type := { signature : string }.

Definition handler (env : Env) (a : args) : Async Envelope :=
  result <- apiCall env "GET" "/api/wallet/status" JUndefined
              (Some [("signature", signature a)]) ;;
  Return (ok result).
End get_transaction_status.

Module get_latest_blockhash.
Definition handler (env : Env) : Async Envelope :=
  result <- apiCall env "GET" "/api/wallet/blockhash" JUndefined None ;;
  Return (ok result).
End get_latest_blockhash.

Module send_transaction.
Record args : Type := { signedTransaction : string }.

Definition handler (env : Env) (a : args) : Async Envelope :=
  result <- apiCall env "POST" "/api/wallet/send"
              (JObj [("signedTransaction", JStr (signedTransaction a))]) None ;;
  Return (ok result).
End send_transaction.

Module simulate_transaction.
Record args : Type := { transaction : string }.

Definition handler (env : Env) (a : args) : Async Envelope :=
  result <- apiCall env "POST" "/api/wallet/simulate"
              (JObj [("transaction", JStr (transaction a))]) None ;;
  Return (ok result).
End simulate_transaction.

(** A call of one of the seventeen tools, with its arguments. *)
Inductive ToolCall : Type :=
| call_get_bot_info
| call_send_message (a : send_message.args)
| call_edit_message (a : edit_message.args)
| call_delete_message (a : delete_message.args)
| call_list_conversations (a : list_conversations.args)
| call_get_conversation_messages (a : get_conversation_messages.args)
| call_get_user (a : get_user.args)
| call_set_webhook (a : set_webhook.args)
| call_set_welcome_message (a : set_welcome_message.args)
| call_get_wallet_balance (a : get_wallet_balance.args)
| call_get_token_list
| call_get_token_prices (a : get_token_prices.args)
| call_get_transaction_history (a : get_transaction_history.args)
| call_get_transaction_status (a : get_transaction_status.args)
| call_get_latest_blockhash
| call_send_transaction (a : send_transaction.args)
| call_simulate_transaction (a : simulate_transaction.args).

Definition handle (env : Env) (c : ToolCall) : Async Envelope :=
  match c with
  | call_get_bot_info => get_bot_info.handler env
  | call_send_message a => send_message.handler env a
  | call_edit_message a => edit_message.handler env a
  | call_delete_message a => delete_message.handler env a
  | call_list_conversations a => list_conversations.handler env a
  | call_get_conversation_messages a => get_conversation_messages.handler env a
  | call_get_user a => get_user.handler env a
  | call_set_webhook a => set_webhook.handler env a
  | call_set_welcome_message a => set_welcome_message.handler env a
  | call_get_wallet_balance a => get_wallet_balance.handler env a
  | call_get_token_list => get_token_list.handler env
  | call_get_token_prices a => get_token_prices.handler env a
  | call_get_transaction_history a => get_transaction_history.handler env a
  | call_get_transaction_status a => get_transaction_status.handler env a
  | call_get_latest_blockhash => get_latest_blockhash.handler env
  | call_send_transaction a => send_transaction.handler env a
  | call_simulate_transaction a => simulate_transaction.handler env a
  end.

(** The identity lookup of the two-step tools. *)
Definition lookup_request (env : Env) : Request :=
  make_request env "GET" "/api/bot/me" JUndefined None.

(* ================================================================== *)
(** * What the specification says, to compare the code with *)
(* ================================================================== *)

(** The definitions of this part follow the words of the specification:
    its catalog of section 4.3 and the properties of its section 8.  The
    theorems compare them with the requests the handlers above build. *)



(** The tools the catalog marks (lookup)+PUT. *)
Definition two_step (c : ToolCall) : bool :=
  match c with
  | call_set_webhook _ | call_set_welcome_message _ => true
  | _ => false
  end.









(** The headers the specification gives a request: the content type always,
    the bot token exactly when a non-empty one is configured, and then
    nothing else. *)
Definition documented_headers (env : Env) (h : list (string * string)) : Prop :=
  record_get h "Content-Type" = Some "application/json"
  /\ (has_key h "X-Bot-Token" = true
      <-> exists t, SOLAFON_BOT_TOKEN env = Some t /\ t <> "")
  /\ (forall t, SOLAFON_BOT_TOKEN env = Some t -> t <> "" ->
      record_get h "X-Bot-Token" = Some t)
  /\ (SOLAFON_BOT_TOKEN env = None \/ SOLAFON_BOT_TOKEN env = Some "" ->
      h = [("Content-Type", "application/json")]).

(** No query parameter has an empty value. *)
Definition no_empty_value (ps : list (string * string)) : Prop :=
  forall k v, In (k, v) ps -> v <> "".

(** The JSON value the webhook request carries: [events] only when given. *)
Definition webhook_body (a : set_webhook.args) : JValue :=
  JObj (("url", JStr (set_webhook.url a))
          :: match set_webhook.events a with
             | Some l => [("events", JArr (map JStr l))]
             | None => []
             end).

(** An optional argument was supplied. *)
Definition supplied {A : Type} (a : option A) : bool :=
  match a with Some _ => true | None => false end.

(** An optional string argument was supplied and is truthy. *)
Definition supplied_nonempty (a : option string) : bool :=
  match a with Some s => nonempty s | None => false end.

(* ================================================================== *)
(** * Sample environments and networks *)
(* ================================================================== *)

(** A network that answers every request with the same status and text. *)
Definition always (status : Z) (text : string) : Network :=
  fun _ _ => HttpResponse status text.

(** The environment without variables, and with a bot token. *)
Definition no_token : Env :=
  {| SOLAFON_API_URL := None; SOLAFON_BOT_TOKEN := None |}.

Definition with_token (token : string) : Env :=
  {| SOLAFON_API_URL := None; SOLAFON_BOT_TOKEN := Some token |}.

(** The text of an object with the single key [id], holding a string. *)
Definition bot_info_text (id : string) : string :=
  "{" ++ QuoteJSONString "id" ++ ":" ++ QuoteJSONString id ++ "}".


(** A price list: an object with the key [usd], holding 142.37. *)
Definition price_text : string :=
  "{" ++ QuoteJSONString "usd" ++ ":142.37}".

(* ================================================================== *)
(** * The schemas of further tools *)
(* ================================================================== *)

(** The shapes of the tools whose arguments are strings and numbers, read
    as the two above.  [uuid] stands for [z.string().uuid()], whose test of
    the format is the library's. *)
Module shapes.
Definition get_conversation_messages_limit : z.schema Z :=
  z.number .> z.int .> z.min 1 .> z.max 100 .> z.default 50.

Definition get_conversation_messages (uuid : z.schema string)
  : z.schema get_conversation_messages.args :=
  fun raw =>
    match z.members raw with
    | Some o =>
        match uuid (z.field o "conversationId"),
              get_conversation_messages_limit (z.field o "limit"),
              (uuid .> z.optional) (z.field o "before") with
        | Some c, Some l, Some b =>
            Some {| get_conversation_messages.conversationId := c;
                    get_conversation_messages.limit := l;
                    get_conversation_messages.before := b |}
        | _, _, _ => None
        end
    | None => None
    end.

Definition get_wallet_balance : z.schema get_wallet_balance.args :=
  fun raw =>
    match z.members raw with
    | Some o =>
        match z.string (z.field o "address") with
        | Some a => Some {| get_wallet_balance.address := a |}
        | None => None
        end
    | None => None
    end.

Definition get_token_prices : z.schema get_token_prices.args :=
  fun raw =>
    match z.members raw with
    | Some o =>
        match (z.string .> z.optional) (z.field o "mints") with
        | Some m => Some {| get_token_prices.mints := m |}
        | None => None
        end
    | None => None
    end.

Definition get_transaction_status : z.schema get_transaction_status.args :=
  fun raw =>
    match z.members raw with
    | Some o =>
        match z.string (z.field o "signature") with
        | Some s => Some {| get_transaction_status.signature := s |}
        | None => None
        end
    | None => None
    end.

Definition send_transaction : z.schema send_transaction.args :=
  fun raw =>
    match z.members raw with
    | Some o =>
        match z.string (z.field o "signedTransaction") with
        | Some s => Some {| send_transaction.signedTransaction := s |}
        | None => None
        end
    | None => None
    end.

Definition simulate_transaction : z.schema simulate_transaction.args :=
  fun raw =>
    match z.members raw with
    | Some o =>
        match z.string (z.field o "transaction") with
        | Some s => Some {| simulate_transaction.transaction := s |}
        | None => None
        end
    | None => None
    end.
End shapes.

(** The member [k] of an object built with [if (v) o[k] = v]: there when
    [v] is truthy. *)
Definition present (k : string) (v : JValue) : list (string * JValue) :=
  if truthy v then [(k, v)] else [].

(** The verbs of the requests that carry no body. *)
Definition bodiless (verb : string) : bool :=
  ((verb =? "GET") || (verb =? "DELETE"))%string.


(* ================================================================== *)
(** * Notions used by the proofs *)
(* ================================================================== *)

Fixpoint JValue_ind (P : JValue -> Prop)
  (Hundef : P JUndefined) (Hnull : P JNull)
  (Hbool : forall b, P (JBool b)) (Hnum : forall n, P (JNum n))
  (Hreal : forall neg m e, P (JReal neg m e))
  (Hinf : forall neg, P (JInfinity neg))
  (Hstr : forall s, P (JStr s))
  (Harr : forall l, Forall P l -> P (JArr l))
  (Hobj : forall o, Forall (fun kv => P (snd kv)) o -> P (JObj o))
  (v : JValue) {struct v} : P v :=
  match v with
  | JUndefined => Hundef
  | JNull => Hnull
  | JBool b => Hbool b
  | JNum n => Hnum n
  | JReal neg m e => Hreal neg m e
  | JInfinity neg => Hinf neg
  | JStr s => Hstr s
  | JArr l =>
      Harr l
        ((fix go (l : list JValue) : Forall P l :=
            match l with
            | [] => Forall_nil P
            | x :: r =>
                Forall_cons x
                  (JValue_ind P Hundef Hnull Hbool Hnum Hreal Hinf Hstr Harr Hobj x) (go r)
            end) l)
  | JObj o =>
      Hobj o
        ((fix go (o : list (string * JValue)) : Forall (fun kv => P (snd kv)) o :=
            match o with
            | [] => Forall_nil _
            | (k, x) :: r =>
                Forall_cons (k, x)
                  (JValue_ind P Hundef Hnull Hbool Hnum Hreal Hinf Hstr Harr Hobj x ) (go r)
            end) o)
  end.

(** Every byte. *)
Definition bytes : list ascii := map ascii_of_nat (seq 0 256).

(** The three bytes of a surrogate are read back from its escape. *)
Definition surrogate_checked (c2 c3 : ascii) : bool :=
  match surrogate_unit "237" c2 c3 with
  | Some u =>
      (utf8 u =? String "237" (String c2 (String c3 "")))%string
      && match code_unit (hex_digit (u / 4096)) (hex_digit ((u / 256) mod 16))
                 (hex_digit ((u / 16) mod 16)) (hex_digit (u mod 16)) with
         | Some w => (w =? u)%N
         | None => false
         end
      && (is_high u || is_low u)
      && (128 <=? N_of_ascii c2)%N && (128 <=? N_of_ascii c3)%N
  | None => true
  end.

(** A low surrogate, written with its three bytes, heads the string. *)
Definition follows_low (s : string) : bool :=
  match s with
  | String b1 (String b2 (String b3 _)) =>
      match surrogate_unit b1 b2 b3 with
      | Some v => is_low v
      | None => false
      end
  | _ => false
  end.

(** What the recognisers of the parser stop at. *)
Definition no_digit_head (s : string) : bool :=
  match s with
  | EmptyString => true
  | String c _ => negb (is_digit c)
  end.

Fixpoint all_number_chars (s : string) : bool :=
  match s with
  | EmptyString => true
  | String c r => is_number_char c && all_number_chars r
  end.

(** A numeral after its sign. *)
Definition numeral_body (neg : bool) (r : string) : option JValue :=
  let (ds, r1) := span_digits r in
  if ((ds =? "")%string || leading_zero ds)%bool then None
  else
    match fraction_part r1 with
    | None => None
    | Some (fs, r2) =>
        match exponent_part r2 with
        | None => None
        | Some x =>
            Some (number_value neg (digits_value (ds ++ fs))
                    (x - Z.of_nat (String.length fs)))
        end
    end.

(** What may follow a printed value: not a character that would extend a
    numeral. *)
Definition delimited (rest : string) : bool :=
  match rest with
  | EmptyString => true
  | String c _ => negb (is_number_char c)
  end.

(** The fuel a value needs. *)
Fixpoint size (v : JValue) : nat :=
  match v with
  | JArr l => S (list_sum (map (fun x => S (size x)) l))
  | JObj o =>
      S (list_sum (map (fun kv => let (_, x) := kv : string * JValue in S (size x)) o))
  | _ => 1
  end.

(** The text of an array element. *)
Definition item (gap inner : string) (x : JValue) : string :=
  match SerializeJSONProperty gap inner x with
  | Some s => s
  | None => "null"
  end.

(** The texts of the members of an object. *)
Fixpoint props (gap inner : string) (o : list (string * JValue)) : list string :=
  match o with
  | [] => []
  | (k, x) :: r =>
      match SerializeJSONProperty gap inner x with
      | Some s => (QuoteJSONString k ++ colon gap ++ s) :: props gap inner r
      | None => props gap inner r
      end
  end.

(** The first character of a printed value. *)
Definition opens_value (s : string) : bool :=
  match s with
  | EmptyString => false
  | String c _ => negb (is_ws c) && negb (c =? "]")%char && negb (c =? "}")%char
  end.

Definition set_member (a : list (string * JValue)) (kv : string * JValue) :=
  define_property a (fst kv) (snd kv).

(** The text of one member of an object. *)
Definition member (gap inner : string) (kv : string * JValue) : string :=
  QuoteJSONString (fst kv) ++ colon gap ++ item gap inner (snd kv).

Definition serializable_member (kv : string * JValue) : bool :=
  let (_, x) := kv in serializable x.

Scheme json_value_ind' := Minimality for json_value Sort Prop
  with json_elements_ind' := Minimality for json_elements Sort Prop
  with json_members_ind' := Minimality for json_members Sort Prop.

Combined Scheme json_mutual_ind
  from json_value_ind', json_elements_ind', json_members_ind'.

(** What [parse_value], [parse_elements] and [parse_members] read is in
    the grammar. *)
Definition sound_value (f : nat) : Prop :=
  forall s v r,
    parse_value f s = Some (v, r) ->
    exists w t, all_ws w = true /\ s = w ++ t ++ r /\ json_value t v.

Definition sound_elements (f : nat) : Prop :=
  forall acc s v r,
    parse_elements f acc s = Some (v, r) ->
    exists ts vs,
      s = ts ++ String "]" r /\ json_elements ts vs
      /\ v = JArr (rev acc ++ vs).

Definition sound_members (f : nat) : Prop :=
  forall acc s v r,
    parse_members f acc s = Some (v, r) ->
    exists ts ms,
      s = ts ++ String "}" r /\ json_members ts ms
      /\ v = JObj (fold_left set_member ms acc).

(** What is in the grammar is read, with fuel for its characters. *)
Definition complete_value (t : string) (v : JValue) : Prop :=
  forall rest f,
    delimited rest = true -> (String.length t <= f)%nat ->
    parse_value f (t ++ rest) = Some (v, rest).

Definition complete_elements (ts : string) (vs : list JValue) : Prop :=
  forall acc rest f,
    (S (String.length ts) <= f)%nat ->
    parse_elements f acc (ts ++ String "]" rest)
    = Some (JArr (rev acc ++ vs), rest).

Definition complete_members (ts : string) (ms : list (string * JValue))
  : Prop :=
  forall acc rest f,
    (S (String.length ts) <= f)%nat ->
    parse_members f acc (ts ++ String "}" rest)
    = Some (JObj (fold_left set_member ms acc), rest).

(** [v], printed at any indentation and followed by any delimited text, is
    read back by [parse_value] with fuel [size v]. *)
Definition parses_back (v : JValue) : Prop :=
  forall gap indent s rest fuel,
    all_ws gap = true -> all_ws indent = true ->
    serializable v = true ->
    SerializeJSONProperty gap indent v = Some s ->
    delimited rest = true -> (size v <= fuel)%nat ->
    parse_value fuel (s ++ rest) = Some (v, rest).

Definition long_enough (v : JValue) : Prop :=
  forall gap indent s,
    serializable v = true ->
    SerializeJSONProperty gap indent v = Some s ->
    (size v <= String.length s)%nat.

(** A successful parse consumed at least one character, and any fuel that
    covers the characters consumed gives the same result. *)
Definition fuel_free {S : Type} (parse : nat -> S -> string -> option (JValue * string))
  (f : nat) : Prop :=
  forall st s v r,
    parse f st s = Some (v, r) ->
    (String.length r < String.length s)%nat
    /\ forall f', (String.length s - String.length r <= f')%nat ->
                  parse f' st s = Some (v, r).

(** Evaluates the tests on known characters. *)
Ltac known_tests :=
  repeat match goal with
    | |- context [Ascii.eqb ?a ?b] =>
        let v := eval vm_compute in (Ascii.eqb a b) in
        match v with true => idtac | false => idtac end;
        change (Ascii.eqb a b) with v; cbv iota
    | |- context [is_ws ?a] =>
        let v := eval vm_compute in (is_ws a) in
        match v with true => idtac | false => idtac end;
        change (is_ws a) with v; cbv iota
    end.

Ltac known_tests_in H :=
  repeat match type of H with
    | context [Ascii.eqb ?a ?b] =>
        let v := eval vm_compute in (Ascii.eqb a b) in
        match v with true => idtac | false => idtac end;
        change (Ascii.eqb a b) with v in H; cbv iota in H
    | context [is_ws ?a] =>
        let v := eval vm_compute in (is_ws a) in
        match v with true => idtac | false => idtac end;
        change (is_ws a) with v in H; cbv iota in H
    end.

(* ================================================================== *)
(** * JSON.parse reads back what JSON.stringify prints *)
(* ================================================================== *)

Lemma append_assoc (a b c : string) : (a ++ b) ++ c = a ++ (b ++ c).
Proof. induction a as [|x a IH]; simpl; [reflexivity | now rewrite IH]. Qed.

Lemma append_nil_r (a : string) : a ++ "" = a.
Proof. induction a as [|x a IH]; simpl; [reflexivity | now rewrite IH]. Qed.

Lemma length_append (a b : string) :
  String.length (a ++ b) = (String.length a + String.length b)%nat.
Proof. induction a as [|x a IH]; simpl; [reflexivity | now rewrite IH]. Qed.

Lemma skip_ws_app (w s : string) :
  all_ws w = true -> skip_ws (w ++ s) = skip_ws s.
Proof.
  induction w as [|c w IH]; simpl; intros H; [reflexivity|].
  apply andb_true_iff in H as [Hc Hw]. rewrite Hc. auto.
Qed.

Lemma all_ws_app (a b : string) :
  all_ws a = true -> all_ws b = true -> all_ws (a ++ b) = true.
Proof.
  induction a as [|c a IH]; simpl; intros Ha Hb; [assumption|].
  apply andb_true_iff in Ha as [Hc Ha]. rewrite Hc. simpl. auto.
Qed.

Lemma all_ws_spaces (n : nat) : all_ws (spaces n) = true.
Proof. induction n; simpl; auto. Qed.

Lemma all_ws_nl (gap indent : string) :
  all_ws indent = true -> all_ws (nl gap indent) = true.
Proof. unfold nl. intros H. destruct (gap =? "")%string; simpl; auto. Qed.

Lemma parse_chars_escape_char (c : ascii) (tail : string) :
  parse_chars (escape_char c ++ tail) = cons_char c (parse_chars tail).
Proof. destruct c as [[] [] [] [] [] [] [] []]; reflexivity. Qed.

Lemma parse_chars_unit (h1 h2 h3 h4 : ascii) (r2 : string) :
  parse_chars
    (String backslash (String "u" (String h1 (String h2 (String h3
       (String h4 r2))))))
  = match code_unit h1 h2 h3 h4 with
    | Some u =>
        match low_after u r2 with
        | Some (v, r3) => prepend (utf8 (pair_point u v)) (parse_chars r3)
        | None => prepend (utf8 u) (parse_chars r2)
        end
    | None => None
    end.
Proof.
  cbn [parse_chars]. known_tests.
  destruct (code_unit h1 h2 h3 h4) as [u|]; [|reflexivity].
  unfold low_after. cbv zeta. destruct (is_high u); [|reflexivity].
  destruct r2 as [|b [|x [|l1 [|l2 [|l3 [|l4 r3]]]]]]; try reflexivity.
  destruct (if ((b =? backslash) && (x =? "u"))%char
            then code_unit l1 l2 l3 l4 else None) as [v|]; [|reflexivity].
  now destruct (is_low v).
Qed.

Lemma low_after_some (u : N) (s : string) (v : N) (r : string) :
  low_after u s = Some (v, r) ->
  is_high u = true
  /\ exists l1 l2 l3 l4,
       s = String backslash (String "u" (String l1 (String l2 (String l3
             (String l4 r)))))
       /\ code_unit l1 l2 l3 l4 = Some v /\ is_low v = true.
Proof.
  unfold low_after. destruct (is_high u); [|discriminate].
  destruct s as [|b [|x [|l1 [|l2 [|l3 [|l4 r3]]]]]]; try discriminate.
  destruct (Ascii.eqb_spec b backslash) as [->|_]; [|discriminate].
  destruct (Ascii.eqb_spec x "u") as [->|_]; [|discriminate].
  cbn [andb]. destruct (code_unit l1 l2 l3 l4) as [w|] eqn:E; [|discriminate].
  destruct (is_low w) eqn:El; [|discriminate].
  intros [= <- <-]. split; [reflexivity|]. now exists l1, l2, l3, l4.
Qed.

Lemma low_after_pair (hi lo : N) (l1 l2 l3 l4 : ascii) (r : string) :
  is_high hi = true -> code_unit l1 l2 l3 l4 = Some lo -> is_low lo = true ->
  low_after hi
    (String backslash (String "u" (String l1 (String l2 (String l3
       (String l4 r))))))
  = Some (lo, r).
Proof.
  intros Hh Hc Hl. unfold low_after. rewrite Hh. known_tests. cbn [andb].
  now rewrite Hc, Hl.
Qed.

Lemma low_after_other (u : N) (b : ascii) (s : string) :
  (b =? backslash)%char = false -> low_after u (String b s) = None.
Proof.
  intros Hb. unfold low_after. destruct (is_high u); [|reflexivity].
  destruct s as [|x [|l1 [|l2 [|l3 [|l4 r3]]]]]; try reflexivity.
  now rewrite Hb.
Qed.

Lemma low_after_escape (u : N) (x : ascii) (s : string) :
  (x =? "u")%char = false -> low_after u (String backslash (String x s)) = None.
Proof.
  intros Hx. unfold low_after. destruct (is_high u); [|reflexivity].
  destruct s as [|l1 [|l2 [|l3 [|l4 r3]]]]; try reflexivity.
  rewrite Hx. now rewrite andb_false_r.
Qed.

(** Whether a low surrogate follows depends on the six characters of its
    escape only. *)
Lemma low_after_escaped (u : N) (l1 l2 l3 l4 : ascii) (r r' : string) :
  low_after u
    (String backslash (String "u" (String l1 (String l2 (String l3
       (String l4 r))))))
  = None ->
  low_after u
    (String backslash (String "u" (String l1 (String l2 (String l3
       (String l4 r'))))))
  = None.
Proof.
  unfold low_after. destruct (is_high u); [|reflexivity]. known_tests.
  cbn [andb]. destruct (code_unit l1 l2 l3 l4) as [v|]; [|reflexivity].
  now destruct (is_low v).
Qed.

Lemma low_after_escape_char (u : N) (b : ascii) (tail : string) :
  low_after u (escape_char b ++ tail) = None.
Proof.
  destruct b as [[] [] [] [] [] [] [] []];
    match goal with
    | |- context [escape_char ?c] =>
        let e := eval vm_compute in (escape_char c) in
        change (escape_char c) with e
    end;
    cbn [append];
    first [ apply low_after_other; reflexivity
          | apply low_after_escape; reflexivity
          | unfold low_after; destruct (is_high u); reflexivity ].
Qed.

(** ** Surrogates *)

Lemma In_bytes (c : ascii) : In c bytes.
Proof.
  unfold bytes. rewrite <- (ascii_nat_embedding c). apply in_map, in_seq.
  pose proof (nat_ascii_bounded c). lia.
Qed.

Lemma forallb_bytes (P : ascii -> bool) :
  forallb P bytes = true -> forall c, P c = true.
Proof.
  intros H c. apply (proj1 (forallb_forall P bytes) H), In_bytes.
Qed.

Lemma surrogate_checked_all :
  forallb (fun c2 => forallb (surrogate_checked c2) bytes) bytes = true.
Proof. vm_compute. reflexivity. Qed.

Lemma surrogate_unit_spec (c1 c2 c3 : ascii) (u : N) :
  surrogate_unit c1 c2 c3 = Some u ->
  c1 = "237"%char
  /\ utf8 u = String c1 (String c2 (String c3 ""))
  /\ code_unit (hex_digit (u / 4096)) (hex_digit ((u / 256) mod 16))
       (hex_digit ((u / 16) mod 16)) (hex_digit (u mod 16)) = Some u
  /\ (is_high u || is_low u) = true
  /\ (128 <=? N_of_ascii c2)%N = true /\ (128 <=? N_of_ascii c3)%N = true.
Proof.
  intros H.
  assert (c1 = "237"%char) as ->.
  { unfold surrogate_unit in H.
    destruct (N.eqb_spec (N_of_ascii c1) 237) as [E|_]; [|discriminate H].
    rewrite <- (ascii_N_embedding c1), E. reflexivity. }
  split; [reflexivity|].
  pose proof (forallb_bytes _ (forallb_bytes _ surrogate_checked_all c2) c3)
    as Hc.
  unfold surrogate_checked in Hc. rewrite H in Hc.
  apply andb_true_iff in Hc as [Hc H5]. apply andb_true_iff in Hc as [Hc H4].
  apply andb_true_iff in Hc as [Hc H3]. apply andb_true_iff in Hc as [H1 H2].
  apply String.eqb_eq in H1.
  destruct (code_unit _ _ _ _) as [w|]; [|discriminate H2].
  apply N.eqb_eq in H2. subst w. auto.
Qed.

Lemma parse_chars_byte (c : ascii) (r : string) :
  (128 <=? N_of_ascii c)%N = true ->
  parse_chars (String c r) = cons_char c (parse_chars r).
Proof.
  destruct c as [[] [] [] [] [] [] [] []]; intros H; try discriminate H;
    reflexivity.
Qed.

Lemma escape_plain (c1 : ascii) (r1 : string) :
  match r1 with
  | String c2 (String c3 _) => surrogate_unit c1 c2 c3
  | _ => None
  end = None ->
  escape (String c1 r1) = escape_char c1 ++ escape r1.
Proof.
  destruct r1 as [|c2 [|c3 r3]]; try reflexivity.
  intros H. cbn [escape]. now rewrite H.
Qed.

Lemma escape_alone (c1 c2 c3 : ascii) (r3 : string) (u : N) :
  surrogate_unit c1 c2 c3 = Some u ->
  (is_high u && follows_low r3) = false ->
  escape (String c1 (String c2 (String c3 r3))) = unicode_escape u ++ escape r3.
Proof.
  intros H Hl. cbn [escape]. rewrite H. cbv zeta.
  destruct (is_high u); [|reflexivity]. cbn [andb] in Hl.
  destruct r3 as [|b1 [|b2 [|b3 r6]]]; try reflexivity.
  cbn [follows_low] in Hl.
  destruct (surrogate_unit b1 b2 b3) as [v|]; [|reflexivity].
  now rewrite Hl.
Qed.

Lemma escape_apart (c1 c2 c3 : ascii) (r3 : string) (u : N) :
  surrogate_unit c1 c2 c3 = Some u ->
  (is_high u && follows_low r3) = true ->
  exists b1 b2 b3 r6 v,
    r3 = String b1 (String b2 (String b3 r6))
    /\ surrogate_unit b1 b2 b3 = Some v
    /\ escape (String c1 (String c2 (String c3 r3)))
       = String c1 (String c2 (String c3
           (String b1 (String b2 (String b3 (escape r6)))))).
Proof.
  intros H Hl. apply andb_true_iff in Hl as [Hh Hl].
  destruct r3 as [|b1 [|b2 [|b3 r6]]]; try discriminate Hl.
  cbn [follows_low] in Hl.
  destruct (surrogate_unit b1 b2 b3) as [v|] eqn:Ev; [|discriminate Hl].
  exists b1, b2, b3, r6, v. split; [reflexivity|]. split; [exact Ev|].
  cbn [escape]. now rewrite H, Hh, Ev, Hl.
Qed.

Lemma low_after_unicode_escape (u w : N) (c1 c2 c3 : ascii) (tail : string) :
  surrogate_unit c1 c2 c3 = Some w -> is_low w = false ->
  low_after u (unicode_escape w ++ tail) = None.
Proof.
  intros H Hl. destruct (surrogate_unit_spec _ _ _ _ H) as (_ & _ & Hc & _).
  unfold low_after, unicode_escape. destruct (is_high u); [|reflexivity].
  cbn [append]. known_tests. cbn [andb]. now rewrite Hc, Hl.
Qed.

(** After the escape of a surrogate that stands alone comes no escape of a
    low surrogate. *)
Lemma low_after_escape_text (u : N) (r rest : string) :
  follows_low r = false ->
  low_after u (escape r ++ String dquote rest) = None.
Proof.
  intros Hf. destruct r as [|b1 r4].
  { now apply low_after_other. }
  destruct (match r4 with
            | String b2 (String b3 _) => surrogate_unit b1 b2 b3
            | _ => None
            end) as [w|] eqn:E.
  2:{ rewrite (escape_plain b1 r4 E), append_assoc.
      apply low_after_escape_char. }
  destruct r4 as [|b2 [|b3 r6]]; try discriminate E.
  cbn [follows_low] in Hf. rewrite E in Hf.
  destruct (is_high w && follows_low r6) eqn:Ea.
  - destruct (escape_apart _ _ _ _ _ E Ea) as (x1 & x2 & x3 & r9 & v & _ & _ & ->).
    destruct (surrogate_unit_spec _ _ _ _ E) as (-> & _).
    now apply low_after_other.
  - rewrite (escape_alone _ _ _ _ _ E Ea), append_assoc.
    now apply (low_after_unicode_escape u w b1 b2 b3).
Qed.

Lemma parse_chars_escape_bounded (n : nat) :
  forall s rest,
    (String.length s <= n)%nat ->
    parse_chars (escape s ++ String dquote rest) = Some (s, rest).
Proof.
  induction n as [|n IH]; intros s rest Hn.
  { destruct s; [reflexivity | simpl in Hn; lia]. }
  destruct s as [|c1 r1]; [reflexivity|]. simpl in Hn.
  destruct (match r1 with
            | String c2 (String c3 _) => surrogate_unit c1 c2 c3
            | _ => None
            end) as [u|] eqn:E.
  2:{ rewrite (escape_plain c1 r1 E), append_assoc, parse_chars_escape_char.
      now rewrite IH by lia. }
  destruct r1 as [|c2 [|c3 r3]]; try discriminate E. simpl in Hn.
  destruct (surrogate_unit_spec _ _ _ _ E) as (-> & Hu & Hc & _ & H2 & H3).
  destruct (is_high u && follows_low r3) eqn:Ea.
  - destruct (escape_apart _ _ _ _ _ E Ea)
      as (b1 & b2 & b3 & r6 & v & -> & Ev & ->).
    destruct (surrogate_unit_spec _ _ _ _ Ev) as (-> & _ & _ & _ & H5 & H6).
    simpl in Hn. cbn [append].
    rewrite (parse_chars_byte "237") by reflexivity.
    rewrite (parse_chars_byte c2), (parse_chars_byte c3) by assumption.
    rewrite (parse_chars_byte "237") by reflexivity.
    rewrite (parse_chars_byte b2), (parse_chars_byte b3) by assumption.
    now rewrite IH by lia.
  - rewrite (escape_alone _ _ _ _ _ E Ea), append_assoc.
    unfold unicode_escape. cbn [append]. rewrite parse_chars_unit, Hc.
    assert (low_after u (escape r3 ++ String dquote rest) = None) as ->.
    { destruct (is_high u) eqn:Eh.
      - now apply low_after_escape_text.
      - unfold low_after. now rewrite Eh. }
    rewrite IH by lia. cbn [prepend]. now rewrite Hu.
Qed.

Lemma parse_chars_escape (s rest : string) :
  parse_chars (escape s ++ String dquote rest) = Some (s, rest).
Proof. now apply (parse_chars_escape_bounded (String.length s)). Qed.

Lemma delimited_span (rest : string) :
  delimited rest = true -> span_number rest = ("", rest).
Proof.
  destruct rest as [|c r]; simpl; [reflexivity|].
  intros H. apply negb_true_iff in H. now rewrite H.
Qed.

Lemma delimited_ws_app (w x : string) :
  all_ws w = true -> delimited x = true -> delimited (w ++ x) = true.
Proof.
  destruct w as [|c w]; simpl; [auto|].
  intros H _. apply andb_true_iff in H as [H _]. revert H.
  destruct c as [[] [] [] [] [] [] [] []]; simpl; intros H;
    try discriminate H; reflexivity.
Qed.

Lemma span_number_split (t tok r : string) :
  span_number t = (tok, r) -> t = tok ++ r.
Proof.
  revert tok r. induction t as [|c t IH]; simpl; intros tok r H.
  - now injection H as <- <-.
  - destruct (is_number_char c).
    + destruct (span_number t) as [d r'] eqn:E. injection H as <- <-.
      simpl. now rewrite (IH d r').
    + now injection H as <- <-.
Qed.

Lemma span_number_app (t rest : string) :
  span_number t = (t, "") -> delimited rest = true ->
  span_number (t ++ rest) = (t, rest).
Proof.
  induction t as [|c t IH]; simpl; intros H Hr.
  - now apply delimited_span.
  - destruct (is_number_char c); [|discriminate H].
    destruct (span_number t) as [d r'] eqn:E.
    injection H as Hd Hr'. subst d r'. now rewrite IH.
Qed.

Lemma span_digits_uint (d : Decimal.uint) :
  span_digits (NilEmpty.string_of_uint d) = (NilEmpty.string_of_uint d, "").
Proof. induction d; simpl; try (rewrite IHd; reflexivity). reflexivity. Qed.

Lemma span_number_uint (d : Decimal.uint) :
  span_number (NilEmpty.string_of_uint d) = (NilEmpty.string_of_uint d, "").
Proof. induction d; simpl; try (rewrite IHd; reflexivity). reflexivity. Qed.

Lemma string_of_uint_head (d : Decimal.uint) :
  d <> Decimal.Nil ->
  exists c r, NilEmpty.string_of_uint d = String c r /\ is_digit c = true.
Proof.
  destruct d; intros H; try contradiction; simpl; eauto.
Qed.

Lemma to_uint_normal (p : positive) :
  Decimal.unorm (Pos.to_uint p) = Pos.to_uint p.
Proof.
  rewrite <- (DecimalPos.Unsigned.to_of (Pos.to_uint p)).
  now rewrite DecimalPos.Unsigned.of_to.
Qed.

Lemma nzhead_of_normal (u : Decimal.uint) (p : positive) :
  Decimal.unorm (Decimal.D0 u) = Decimal.D0 u -> Decimal.D0 u = Pos.to_uint p ->
  False.
Proof.
  intros Hn E. pose proof (DecimalPos.Unsigned.to_uint_nonzero p) as Hz.
  rewrite DecimalFacts.unorm_D0 in Hn.
  destruct (Decimal.nzhead u) eqn:Eh;
    try (rewrite DecimalFacts.unorm_nzhead in Hn by (rewrite Eh; discriminate);
         now apply DecimalFacts.nzhead_nonzero in Hn).
  assert (Decimal.unorm u = Decimal.zero) as H0
    by (now apply DecimalFacts.unorm_0).
  rewrite H0 in Hn. apply Hz. now rewrite <- E, <- Hn.
Qed.

Lemma to_uint_leading (p : positive) :
  leading_zero (NilEmpty.string_of_uint (Pos.to_uint p)) = false.
Proof.
  pose proof (to_uint_normal p) as Hn.
  destruct (Pos.to_uint p) as [|u|u|u|u|u|u|u|u|u|u] eqn:E; simpl;
    try reflexivity;
    try (destruct (NilEmpty.string_of_uint u); reflexivity).
  exfalso. now apply (nzhead_of_normal u p).
Qed.

Lemma digits_value_uint (p : positive) :
  digits_value (NilEmpty.string_of_uint (Pos.to_uint p)) = Zpos p.
Proof.
  unfold digits_value. rewrite NilEmpty.usu.
  unfold Z.of_uint. now rewrite DecimalPos.Unsigned.of_to.
Qed.

(** The numeral of a positive integer up to 2^53, with its sign or none. *)
Lemma numeral_value_pos (neg : bool) (p : positive) :
  (Zpos p <=? two53) = true ->
  numeral_value
    ((if neg then "-" else "") ++ NilEmpty.string_of_uint (Pos.to_uint p))
  = Some (JNum (if neg then Zneg p else Zpos p)).
Proof.
  intros Hs.
  destruct (string_of_uint_head (Pos.to_uint p)) as (c & r & E & Hc).
  { apply DecimalPos.Unsigned.to_uint_nonnil. }
  assert ((c =? "-")%char = false) as Hm.
  { apply Ascii.eqb_neq. intros ->. discriminate Hc. }
  assert (forall b,
             (let (ds, r1) := span_digits (NilEmpty.string_of_uint (Pos.to_uint p)) in
              if ((ds =? "")%string || leading_zero ds)%bool then None
              else
                match fraction_part r1 with
                | None => None
                | Some (fs, r2) =>
                    match exponent_part r2 with
                    | None => None
                    | Some x =>
                        Some (number_value b (digits_value (ds ++ fs))
                                (x - Z.of_nat (String.length fs)))
                    end
                end)
             = Some (JNum (if b then Zneg p else Zpos p)) :> option JValue)
    as body.
  { intros b. rewrite span_digits_uint, to_uint_leading.
    replace (NilEmpty.string_of_uint (Pos.to_uint p) =? "")%string with false
      by (now rewrite E).
    cbn [orb fraction_part exponent_part String.length Z.of_nat].
    rewrite append_nil_r, digits_value_uint.
    unfold number_value. cbn [Z.sub Z.opp Z.add Z.eqb andb]. rewrite Hs.
    now destruct b. }
  unfold numeral_value. destruct neg; cbn [append].
  - rewrite Ascii.eqb_refl. apply body.
  - rewrite E at 1. rewrite Hm. apply body.
Qed.

Lemma parse_number_printed (n : Z) (rest : string) :
  (Z.abs n <=? two53) = true -> delimited rest = true ->
  parse_number (Number_toString n ++ rest) = Some (JNum n, rest).
Proof.
  intros Hn H. unfold parse_number, Number_toString. rewrite Hn.
  destruct n as [|p|p].
  - rewrite (span_number_app "0" rest); [reflexivity | reflexivity | assumption].
  - rewrite span_number_app; [| apply span_number_uint | assumption].
    pose proof (numeral_value_pos false p Hn) as Hv. cbn [append] in Hv.
    now rewrite Hv.
  - rewrite span_number_app; [| | assumption].
    + pose proof (numeral_value_pos true p Hn) as Hv. cbn [append] in Hv.
      now rewrite Hv.
    + cbn [span_number]. change (is_number_char "-") with true.
      cbv iota. now rewrite span_number_uint.
Qed.

Lemma parse_number_real (neg : bool) (m e : Z) (rest : string) :
  normalised neg m e = true -> delimited rest = true ->
  parse_number (Double_toString neg m e ++ rest) = Some (JReal neg m e, rest).
Proof.
  unfold normalised, parse_number. intros H Hr.
  destruct (span_number (Double_toString neg m e)) as [tok r] eqn:E.
  destruct (numeral_value tok) as [v|] eqn:Ev; [|discriminate H].
  destruct v; try discriminate H. destruct r; [|discriminate H].
  apply andb_true_iff in H as [H H3]. apply andb_true_iff in H as [H1 H2].
  apply Bool.eqb_prop in H1. apply Z.eqb_eq in H2, H3. subst.
  pose proof (span_number_split _ _ _ E) as Ht. rewrite append_nil_r in Ht.
  rewrite Ht in E |- *.
  rewrite span_number_app by assumption. now rewrite Ev.
Qed.

(** A text that [parse_number] reads starts with a character of a
    numeral. *)
Lemma parse_number_head (t : string) (v : JValue) (r : string) :
  parse_number t = Some (v, r) ->
  exists c r', t = String c r' /\ is_number_char c = true.
Proof.
  unfold parse_number. destruct t as [|c t]; [discriminate|].
  cbn [span_number]. destruct (is_number_char c) eqn:E; [eauto | discriminate].
Qed.

Lemma digit_number_char (c : ascii) :
  (is_digit c || (c =? "-")%char) = true -> is_number_char c = true.
Proof.
  unfold is_number_char. destruct (is_digit c); [reflexivity|].
  cbn [orb]. now intros ->.
Qed.

Lemma Number_toString_head (n : Z) :
  (Z.abs n <=? two53) = true ->
  exists c r, Number_toString n = String c r /\ is_number_char c = true.
Proof.
  intros Hn. unfold Number_toString. rewrite Hn.
  destruct n as [|p|p]; [now eauto | | now eauto].
  destruct (string_of_uint_head (Pos.to_uint p)) as (c & r & E & Hc).
  { apply DecimalPos.Unsigned.to_uint_nonnil. }
  exists c, r. split; [assumption|]. apply digit_number_char. now rewrite Hc.
Qed.

(** The text of a number that is a JSON value starts with a character of a
    numeral. *)
Lemma normalised_head (neg : bool) (m e : Z) :
  normalised neg m e = true ->
  exists c r, Double_toString neg m e = String c r /\ is_number_char c = true.
Proof.
  unfold normalised. intros H.
  destruct (parse_number (Double_toString neg m e)) as [[v r]|] eqn:E;
    [|discriminate H].
  eapply parse_number_head; eassumption.
Qed.




Lemma parse_value_number (f : nat) (c : ascii) (r : string) :
  is_number_char c = true ->
  parse_value (S f) (String c r) = parse_number (String c r).
Proof.
  destruct c as [[] [] [] [] [] [] [] []]; simpl; intros H;
    try discriminate H; reflexivity.
Qed.

Lemma serialize_array (gap indent : string) (l : list JValue) :
  SerializeJSONProperty gap indent (JArr l)
  = Some (enclose "[" "]" gap indent (indent ++ gap)
            (map (item gap (indent ++ gap)) l)).
Proof. reflexivity. Qed.

Lemma serialize_object (gap indent : string) (o : list (string * JValue)) :
  SerializeJSONProperty gap indent (JObj o)
  = Some (enclose "{" "}" gap indent (indent ++ gap)
            (props gap (indent ++ gap) o)).
Proof.
  simpl. do 2 f_equal.
  induction o as [|[k x] r IH]; simpl; [reflexivity|].
  destruct (SerializeJSONProperty gap (indent ++ gap) x); now rewrite IH.
Qed.

Lemma serializable_printed (gap indent : string) (v : JValue) :
  serializable v = true ->
  exists s, SerializeJSONProperty gap indent v = Some s.
Proof.
  destruct v as [| |[]| | | | | |]; simpl; intros H; try discriminate H; eauto.
Qed.

Lemma opens_value_app (a b : string) :
  opens_value a = true -> opens_value (a ++ b) = true.
Proof. destruct a; simpl; [discriminate | auto]. Qed.

Lemma opens_value_skip (s : string) :
  opens_value s = true ->
  exists c r, s = String c r /\ skip_ws s = s
              /\ (c =? "]")%char = false /\ (c =? "}")%char = false.
Proof.
  destruct s as [|c r]; simpl; [discriminate|].
  intros H. apply andb_true_iff in H as [H H3].
  apply andb_true_iff in H as [H1 H2].
  apply negb_true_iff in H1, H2, H3. rewrite H1. eauto 6.
Qed.

Lemma number_head_opens (c : ascii) (r : string) :
  is_number_char c = true -> opens_value (String c r) = true.
Proof.
  destruct c as [[] [] [] [] [] [] [] []]; simpl; intros H;
    try discriminate H; reflexivity.
Qed.

Lemma printed_opens (gap indent : string) (v : JValue) (s : string) :
  serializable v = true ->
  SerializeJSONProperty gap indent v = Some s -> opens_value s = true.
Proof.
  destruct v as [| |[]|n|neg m e|neg|str|l|o]; intros Hs.
  - discriminate.
  - intros [= <-]. reflexivity.
  - intros [= <-]. reflexivity.
  - intros [= <-]. reflexivity.
  - intros [= <-]. destruct (Number_toString_head n Hs) as (c & r & E & H).
    rewrite E. now apply number_head_opens.
  - intros [= <-]. destruct (normalised_head neg m e Hs) as (c & r & E & H).
    rewrite E. now apply number_head_opens.
  - discriminate Hs.
  - intros [= <-]. reflexivity.
  - rewrite serialize_array. intros [= <-]. unfold enclose.
    destruct (map _ l); reflexivity.
  - rewrite serialize_object. intros [= <-]. unfold enclose.
    destruct (props _ _ o); reflexivity.
Qed.

Lemma item_opens (gap inner : string) (x : JValue) :
  serializable x = true -> opens_value (item gap inner x) = true.
Proof.
  intros Hs. unfold item. destruct (SerializeJSONProperty gap inner x) eqn:E.
  - eapply printed_opens; eassumption.
  - reflexivity.
Qed.

Lemma parse_value_ws (f : nat) (w s : string) :
  all_ws w = true -> parse_value f (w ++ s) = parse_value f s.
Proof.
  intros H. destruct f; [reflexivity|].
  cbn [parse_value]. now rewrite skip_ws_app.
Qed.

Lemma parse_elements_ws (f : nat) (acc : list JValue) (w s : string) :
  all_ws w = true -> parse_elements f acc (w ++ s) = parse_elements f acc s.
Proof.
  intros H. destruct f; [reflexivity|].
  cbn [parse_elements]. now rewrite parse_value_ws.
Qed.

Lemma parse_members_ws (f : nat) (acc : list (string * JValue)) (w s : string) :
  all_ws w = true -> parse_members f acc (w ++ s) = parse_members f acc s.
Proof.
  intros H. destruct f; [reflexivity|].
  cbn [parse_members]. now rewrite skip_ws_app.
Qed.

Lemma parse_value_array (f : nat) (w s : string) :
  all_ws w = true -> opens_value s = true ->
  parse_value (S f) (String "[" (w ++ s)) = parse_elements f [] s.
Proof.
  intros Hw Hs. cbn [parse_value skip_ws]. known_tests.
  rewrite skip_ws_app by assumption.
  destruct (opens_value_skip s Hs) as (c & r & E & Hk & H1 & H2).
  rewrite Hk. rewrite E at 1. rewrite H1.
  now apply parse_elements_ws.
Qed.

Lemma parse_value_object (f : nat) (w s : string) :
  all_ws w = true -> opens_value s = true ->
  parse_value (S f) (String "{" (w ++ s)) = parse_members f [] s.
Proof.
  intros Hw Hs. cbn [parse_value skip_ws]. known_tests.
  rewrite skip_ws_app by assumption.
  destruct (opens_value_skip s Hs) as (c & r & E & Hk & H1 & H2).
  rewrite Hk. rewrite E at 1. rewrite H2.
  now apply parse_members_ws.
Qed.

Lemma item_parses_back (v : JValue) (gap inner rest : string) (fuel : nat) :
  parses_back v ->
  all_ws gap = true -> all_ws inner = true -> serializable v = true ->
  delimited rest = true -> (size v <= fuel)%nat ->
  parse_value fuel (item gap inner v ++ rest) = Some (v, rest).
Proof.
  intros HP Hg Hi Hs Hr Hf.
  destruct (serializable_printed gap inner v Hs) as [s E].
  unfold item. rewrite E. now apply (HP gap inner).
Qed.

Lemma concat_more (sep a b : string) (r : list string) :
  String.concat sep (a :: b :: r) = a ++ sep ++ String.concat sep (b :: r).
Proof. reflexivity. Qed.

Lemma elements_printed (l : list JValue) :
  Forall parses_back l ->
  forall x gap inner stepws rest acc fuel,
    parses_back x ->
    all_ws gap = true -> all_ws inner = true -> all_ws stepws = true ->
    forallb serializable (x :: l) = true ->
    (list_sum (map (fun y => S (size y)) (x :: l)) <= fuel)%nat ->
    parse_elements fuel acc
      (String.concat (String "," (nl gap inner)) (map (item gap inner) (x :: l))
         ++ stepws ++ String "]" rest)
    = Some (JArr (rev acc ++ x :: l), rest).
Proof.
  induction 1 as [|y l Hy Hl IH];
    intros x gap inner stepws rest acc fuel Hx Hg Hi Hw Hs Hf;
    simpl in Hs; apply andb_true_iff in Hs as [Hsx Hsl];
    destruct fuel as [|f]; simpl in Hf; try lia;
    cbn [parse_elements].
  - cbn [map String.concat].
    rewrite (item_parses_back x) by
      (auto; try lia; apply delimited_ws_app; auto).
    rewrite skip_ws_app by assumption. cbn [skip_ws]. known_tests.
    reflexivity.
  - cbn [map]. rewrite concat_more, append_assoc.
    rewrite (item_parses_back x) by (auto; lia).
    cbn [append skip_ws]. known_tests.
    rewrite append_assoc, parse_elements_ws by (now apply all_ws_nl).
    change (item gap inner y :: map (item gap inner) l)
      with (map (item gap inner) (y :: l)).
    rewrite IH; auto; try (simpl; lia).
    simpl. now rewrite <- List.app_assoc.
Qed.

Lemma props_map (gap inner : string) (o : list (string * JValue)) :
  forallb serializable_member o = true ->
  props gap inner o = map (member gap inner) o.
Proof.
  induction o as [|[k x] r IH]; simpl; [reflexivity|].
  intros H. apply andb_true_iff in H as [Hx Hr].
  destruct (serializable_printed gap inner x Hx) as [s E].
  unfold member, item. simpl. rewrite E, IH by assumption. reflexivity.
Qed.

Lemma member_shape (gap inner k : string) (x : JValue) (tail : string) :
  member gap inner (k, x) ++ tail
  = String dquote
      (escape k ++ String dquote
         (String ":" ((if (gap =? "")%string then "" else " ")
                        ++ item gap inner x ++ tail))).
Proof.
  unfold member, QuoteJSONString, colon. simpl.
  rewrite !append_assoc. simpl. now rewrite !append_assoc.
Qed.

Lemma members_printed (l : list (string * JValue)) :
  Forall (fun kv => parses_back (snd kv)) l ->
  forall kx gap inner stepws rest acc fuel,
    parses_back (snd kx) ->
    all_ws gap = true -> all_ws inner = true -> all_ws stepws = true ->
    forallb serializable_member (kx :: l) = true ->
    (list_sum (map (fun kv => let (_, y) := kv : string * JValue in S (size y))
                 (kx :: l)) <= fuel)%nat ->
    parse_members fuel acc
      (String.concat (String "," (nl gap inner)) (map (member gap inner) (kx :: l))
         ++ stepws ++ String "}" rest)
    = Some (JObj (fold_left set_member (kx :: l) acc), rest).
Proof.
  induction 1 as [|ky l Hy Hl IH];
    intros [k x] gap inner stepws rest acc fuel Hx Hg Hi Hw Hs Hf;
    simpl in Hx, Hs; apply andb_true_iff in Hs as [Hsx Hsl];
    destruct fuel as [|f]; simpl in Hf; try lia.
  - cbn [map String.concat]. rewrite member_shape.
    cbn [parse_members skip_ws]. known_tests.
    rewrite parse_chars_escape. cbn [skip_ws]. known_tests.
    rewrite parse_value_ws by (now destruct (gap =? "")%string).
    rewrite (item_parses_back x) by
      (auto; try lia; apply delimited_ws_app; auto).
    rewrite skip_ws_app by assumption. cbn [skip_ws]. known_tests.
    reflexivity.
  - cbn [map]. rewrite concat_more, append_assoc, member_shape.
    cbn [parse_members skip_ws]. known_tests.
    rewrite parse_chars_escape. cbn [skip_ws]. known_tests.
    rewrite parse_value_ws by (now destruct (gap =? "")%string).
    rewrite (item_parses_back x) by (auto; destruct ky; lia).
    cbn [append skip_ws]. known_tests.
    rewrite append_assoc, parse_members_ws by (now apply all_ws_nl).
    change (member gap inner ky :: map (member gap inner) l)
      with (map (member gap inner) (ky :: l)).
    rewrite IH; auto.
    destruct ky. simpl in *. lia.
Qed.

Lemma fresh_key (acc : list (string * JValue)) (k : string)
  (v : JValue) (l : list (string * JValue)) :
  unique_keys (map fst (acc ++ (k, v) :: l)) = true ->
  record_get acc k = None.
Proof.
  induction acc as [|[k' v'] acc IH]; simpl; [reflexivity|].
  intros H. apply andb_true_iff in H as [Hk Hu].
  apply negb_true_iff in Hk.
  rewrite map_app, existsb_app in Hk. simpl in Hk.
  apply orb_false_iff in Hk as [_ Hk].
  apply orb_false_iff in Hk as [Hk _].
  rewrite Hk. now apply IH.
Qed.

Lemma record_set_unique (acc : list (string * JValue)) (k : string)
  (v : JValue) (l : list (string * JValue)) :
  unique_keys (map fst (acc ++ (k, v) :: l)) = true ->
  record_set acc k v = (acc ++ [(k, v)])%list.
Proof.
  induction acc as [|[k' v'] acc IH]; simpl; [reflexivity|].
  intros H. apply andb_true_iff in H as [Hk Hu].
  apply negb_true_iff in Hk.
  rewrite map_app, existsb_app in Hk. simpl in Hk.
  apply orb_false_iff in Hk as [_ Hk].
  apply orb_false_iff in Hk as [Hk _].
  rewrite Hk, IH by assumption. reflexivity.
Qed.

(** In property order every key before an array index is a smaller one. *)
Lemma ordered_bound (xs : list string) :
  forall lo k i ys,
    ordered_from lo (xs ++ k :: ys) = true -> array_index k = Some i ->
    lo < i.
Proof.
  induction xs as [|x xs IH]; intros lo k i ys H Hk;
    cbn [app ordered_from] in H.
  - rewrite Hk in H. apply andb_true_iff in H as [H _]. now apply Z.ltb_lt.
  - destruct (array_index x) as [j|] eqn:Ex.
    + apply andb_true_iff in H as [H1 H2]. apply Z.ltb_lt in H1.
      specialize (IH _ _ _ _ H2 Hk). lia.
    + rewrite forallb_app in H. apply andb_true_iff in H as [_ H].
      cbn [forallb] in H. unfold no_index in H. rewrite Hk in H.
      discriminate H.
Qed.

Lemma insert_index_last (acc : list (string * JValue)) :
  forall lo k i v l,
    ordered_from lo (map fst (acc ++ (k, v) :: l)) = true ->
    array_index k = Some i ->
    insert_index acc k i v = (acc ++ [(k, v)])%list.
Proof.
  induction acc as [|[k' v'] acc IH]; intros lo k i v l H Hk;
    cbn [insert_index app]; [reflexivity|].
  cbn [app map fst ordered_from] in H.
  destruct (array_index k') as [j|] eqn:Ex.
  - apply andb_true_iff in H as [H1 H2].
    assert (j < i) as Hlt.
    { rewrite map_app in H2. cbn [map fst] in H2.
      now apply (ordered_bound _ _ _ _ _ H2). }
    apply Z.ltb_lt in Hlt. rewrite Hlt. f_equal. now apply (IH j k i v l).
  - rewrite map_app, forallb_app in H. apply andb_true_iff in H as [_ H].
    cbn [map fst forallb] in H. unfold no_index in H. rewrite Hk in H.
    discriminate H.
Qed.

Lemma define_property_last (acc : list (string * JValue)) (k : string)
  (v : JValue) (l : list (string * JValue)) :
  unique_keys (map fst (acc ++ (k, v) :: l)) = true ->
  property_order (map fst (acc ++ (k, v) :: l)) = true ->
  define_property acc k v = (acc ++ [(k, v)])%list.
Proof.
  intros Hu Ho. unfold define_property, has_key.
  rewrite (fresh_key _ _ _ _ Hu).
  destruct (array_index k) as [i|] eqn:E.
  - now apply (insert_index_last acc (-1) k i v l).
  - now apply (record_set_unique acc k v l).
Qed.

Lemma fold_set_unique (l acc : list (string * JValue)) :
  unique_keys (map fst (acc ++ l)) = true ->
  property_order (map fst (acc ++ l)) = true ->
  fold_left set_member l acc = (acc ++ l)%list.
Proof.
  revert acc. induction l as [|[k v] l IH]; intros acc H Ho; simpl.
  - now rewrite List.app_nil_r.
  - unfold set_member at 2. cbn [fst snd].
    rewrite (define_property_last acc k v l H Ho).
    rewrite IH; rewrite <- List.app_assoc; [reflexivity | exact H | exact Ho].
Qed.

Lemma literal_parses (fuel : nat) (rest : string) :
  (1 <= fuel)%nat ->
  parse_value fuel ("null" ++ rest) = Some (JNull, rest)
  /\ parse_value fuel ("true" ++ rest) = Some (JBool true, rest)
  /\ parse_value fuel ("false" ++ rest) = Some (JBool false, rest).
Proof.
  intros H. destruct fuel as [|f]; [lia|].
  repeat split; cbn [append parse_value skip_ws]; known_tests;
    unfold literal; cbn [expect]; known_tests; reflexivity.
Qed.

Lemma string_parses (fuel : nat) (s rest : string) :
  (1 <= fuel)%nat ->
  parse_value fuel (QuoteJSONString s ++ rest) = Some (JStr s, rest).
Proof.
  intros H. destruct fuel as [|f]; [lia|].
  unfold QuoteJSONString. cbn [append parse_value skip_ws]. known_tests.
  rewrite append_assoc. cbn [append].
  now rewrite parse_chars_escape.
Qed.

Lemma number_parses (fuel : nat) (n : Z) (rest : string) :
  (Z.abs n <=? two53) = true ->
  (1 <= fuel)%nat -> delimited rest = true ->
  parse_value fuel (Number_toString n ++ rest) = Some (JNum n, rest).
Proof.
  intros Hn H Hr. destruct fuel as [|f]; [lia|].
  rewrite <- (parse_number_printed n rest Hn Hr).
  destruct (Number_toString_head n Hn) as (c & r & E & Hc).
  rewrite E. cbn [append]. now apply parse_value_number.
Qed.

Lemma real_parses (fuel : nat) (neg : bool) (m e : Z) (rest : string) :
  normalised neg m e = true ->
  (1 <= fuel)%nat -> delimited rest = true ->
  parse_value fuel (Double_toString neg m e ++ rest)
  = Some (JReal neg m e, rest).
Proof.
  intros Hn H Hr. destruct fuel as [|f]; [lia|].
  rewrite <- (parse_number_real neg m e rest Hn Hr).
  destruct (normalised_head neg m e Hn) as (c & r & E & Hc).
  rewrite E. cbn [append]. now apply parse_value_number.
Qed.

Lemma enclose_cons (open close : ascii) (gap stepback inner x : string)
  (r : list string) (rest : string) :
  enclose open close gap stepback inner (x :: r) ++ rest
  = String open
      (nl gap inner
         ++ (String.concat (String "," (nl gap inner)) (x :: r)
               ++ nl gap stepback ++ String close rest)).
Proof.
  unfold enclose. cbn [append]. rewrite !append_assoc. reflexivity.
Qed.

Lemma concat_opens (sep x : string) (r : list string) (tail : string) :
  opens_value x = true ->
  opens_value (String.concat sep (x :: r) ++ tail) = true.
Proof.
  intros H. apply opens_value_app.
  destruct r; [assumption|]. rewrite concat_more. now apply opens_value_app.
Qed.

(** Every JSON value is read back from its text. *)
Lemma parse_printed (v : JValue) : parses_back v.
Proof.
  induction v as [| |b|n|neg m e|neg|str|l IH|o IH] using JValue_ind;
    intros gap indent s rest fuel Hg Hi Hs Hp Hr Hf.
  - discriminate Hs.
  - injection Hp as <-. now apply literal_parses.
  - destruct b; injection Hp as <-; now apply literal_parses.
  - injection Hp as <-. now apply number_parses.
  - injection Hp as <-. now apply real_parses.
  - discriminate Hs.
  - injection Hp as <-. now apply string_parses.
  - rewrite serialize_array in Hp. injection Hp as <-.
    destruct fuel as [|f]; [simpl in Hf; lia|].
    destruct l as [|x l].
    + cbn [map enclose append parse_value skip_ws]. known_tests. reflexivity.
    + cbn [map]. rewrite enclose_cons.
      rewrite parse_value_array;
        [| apply all_ws_nl, all_ws_app; assumption
         | apply concat_opens, item_opens;
           simpl in Hs; now apply andb_true_iff in Hs as [Hs _]].
      change (item gap (indent ++ gap) x :: map (item gap (indent ++ gap)) l)
        with (map (item gap (indent ++ gap)) (x :: l)).
      inversion IH as [|? ? Hx Hl]; subst.
      rewrite (elements_printed l Hl x); auto.
      * now apply all_ws_app.
      * now apply all_ws_nl.
      * simpl in Hf. simpl. lia.
  - rewrite serialize_object in Hp. injection Hp as <-.
    destruct fuel as [|f]; [simpl in Hf; lia|].
    cbn [serializable] in Hs. apply andb_true_iff in Hs as [Hu Hs].
    apply andb_true_iff in Hu as [Hu Ho].
    change (forallb serializable_member o = true) in Hs.
    rewrite props_map by assumption.
    destruct o as [|kx o].
    + cbn [map enclose append parse_value skip_ws]. known_tests. reflexivity.
    + cbn [map]. rewrite enclose_cons.
      rewrite parse_value_object;
        [| apply all_ws_nl, all_ws_app; assumption
         | apply concat_opens; unfold member, QuoteJSONString; reflexivity].
      change (member gap (indent ++ gap) kx :: map (member gap (indent ++ gap)) o)
        with (map (member gap (indent ++ gap)) (kx :: o)).
      inversion IH as [|? ? Hx Hl]; subst.
      rewrite (members_printed o Hl kx); auto.
      * now rewrite (fold_set_unique (kx :: o) []).
      * now apply all_ws_app.
      * now apply all_ws_nl.
      * simpl in Hf. simpl. lia.
Qed.

(** ** The text of a value is at least as long as the fuel it needs *)

Lemma concat_length (sep : string) (items : list string) :
  (1 <= String.length sep)%nat ->
  (list_sum (map (fun s => S (String.length s)) items)
   <= S (String.length (String.concat sep items)))%nat.
Proof.
  intros Hsep. induction items as [|a [|b r] IH].
  - simpl. lia.
  - simpl. lia.
  - rewrite concat_more, !length_append.
    change (list_sum (map (fun s => S (String.length s)) (a :: b :: r)))
      with (S (String.length a)
            + list_sum (map (fun s => S (String.length s)) (b :: r)))%nat.
    lia.
Qed.

Lemma enclose_length (open close : ascii) (gap stepback inner : string)
  (items : list string) :
  (2 + String.length (String.concat (String "," (nl gap inner)) items)
   <= String.length (enclose open close gap stepback inner items))%nat.
Proof.
  unfold enclose. destruct items as [|a r]; [simpl; lia|].
  cbn [String.length]. rewrite !length_append. cbn [String.length]. lia.
Qed.

Lemma items_length (gap inner : string) (l : list JValue) :
  Forall long_enough l -> forallb serializable l = true ->
  (list_sum (map (fun x => S (size x)) l)
   <= list_sum (map (fun s => S (String.length s)) (map (item gap inner) l)))%nat.
Proof.
  induction 1 as [|x l Hx Hl IH]; simpl; intros Hs; [lia|].
  apply andb_true_iff in Hs as [Hsx Hsl].
  destruct (serializable_printed gap inner x Hsx) as [s E].
  pose proof (Hx gap inner s Hsx E). unfold item at 1. rewrite E.
  specialize (IH Hsl). lia.
Qed.

Lemma members_length (gap inner : string) (o : list (string * JValue)) :
  Forall (fun kv => long_enough (snd kv)) o ->
  forallb serializable_member o = true ->
  (list_sum (map (fun kv => let (_, x) := kv : string * JValue in S (size x)) o)
   <= list_sum (map (fun s => S (String.length s)) (map (member gap inner) o)))%nat.
Proof.
  induction 1 as [|[k x] l Hx Hl IH]; intros Hs; [simpl; lia|].
  simpl in Hs. apply andb_true_iff in Hs as [Hsx Hsl].
  destruct (serializable_printed gap inner x Hsx) as [s E].
  pose proof (Hx gap inner s Hsx E) as H. simpl in H.
  assert (size x <= String.length (member gap inner (k, x)))%nat as Hm.
  { unfold member, item, colon. cbn [fst snd]. rewrite E.
    rewrite length_append. cbn [append String.length].
    rewrite length_append. lia. }
  specialize (IH Hsl). unfold list_sum in *. cbn [map fold_right]. lia.
Qed.

Lemma printed_length (v : JValue) : long_enough v.
Proof.
  induction v as [| |b|n|neg m e|neg|str|l IH|o IH] using JValue_ind;
    intros gap indent s Hs Hp.
  - discriminate Hs.
  - injection Hp as <-. simpl. lia.
  - destruct b; injection Hp as <-; simpl; lia.
  - injection Hp as <-.
    destruct (Number_toString_head n Hs) as (c & r & E & _).
    rewrite E. simpl. lia.
  - injection Hp as <-.
    destruct (normalised_head neg m e Hs) as (c & r & E & _).
    rewrite E. simpl. lia.
  - discriminate Hs.
  - injection Hp as <-. simpl. lia.
  - rewrite serialize_array in Hp. injection Hp as <-.
    pose proof (items_length gap (indent ++ gap) l IH Hs) as H1.
    pose proof (concat_length (String "," (nl gap (indent ++ gap)))
                  (map (item gap (indent ++ gap)) l)) as H2.
    pose proof (enclose_length "[" "]" gap indent (indent ++ gap)
                  (map (item gap (indent ++ gap)) l)) as H3.
    simpl in H2. cbn [size]. lia.
  - rewrite serialize_object in Hp. injection Hp as <-.
    cbn [serializable] in Hs. apply andb_true_iff in Hs as [Hu Hs].
    change (forallb serializable_member o = true) in Hs.
    rewrite props_map by assumption.
    pose proof (members_length gap (indent ++ gap) o IH Hs) as H1.
    pose proof (concat_length (String "," (nl gap (indent ++ gap)))
                  (map (member gap (indent ++ gap)) o)) as H2.
    pose proof (enclose_length "{" "}" gap indent (indent ++ gap)
                  (map (member gap (indent ++ gap)) o)) as H3.
    simpl in H2. cbn [size]. lia.
Qed.

(** [JSON.parse(JSON.stringify(v, null, space))] is [v]. *)
Lemma JSON_parse_stringify (v : JValue) (space : nat) (s : string) :
  serializable v = true ->
  JSON_stringify v space = Some s ->
  JSON_parse s = Some v.
Proof.
  intros Hs Hp. unfold JSON_stringify in Hp. unfold JSON_parse.
  assert (parse_value (S (String.length s)) (s ++ "") = Some (v, "")) as H.
  { apply (parse_printed v (spaces (Nat.min space 10)) ""); auto.
    - apply all_ws_spaces.
    - pose proof (printed_length v _ _ _ Hs Hp). lia. }
  rewrite append_nil_r in H. rewrite H. reflexivity.
Qed.

(** ** The fuel of [JSON_parse] is enough for every text *)

Lemma skip_ws_length (s : string) :
  (String.length (skip_ws s) <= String.length s)%nat.
Proof.
  induction s as [|c s IH]; simpl; [lia|].
  destruct (is_ws c); simpl; lia.
Qed.

Lemma cons_char_some (c : ascii) (p : option (string * string))
  (x r : string) :
  cons_char c p = Some (x, r) -> exists y, p = Some (y, r).
Proof.
  destruct p as [[y r']|]; simpl; [|discriminate].
  intros [= <- <-]. now exists y.
Qed.

Lemma prepend_some (p : string) (q : option (string * string))
  (x r : string) :
  prepend p q = Some (x, r) -> exists y, q = Some (y, r).
Proof.
  destruct q as [[y r']|]; simpl; [|discriminate].
  intros [= <- <-]. now exists y.
Qed.

Lemma parse_chars_length (n : nat) :
  forall s x r,
    (String.length s <= n)%nat -> parse_chars s = Some (x, r) ->
    (String.length r < String.length s)%nat.
Proof.
  induction n as [|n IH]; intros s x r Hn H.
  - destruct s; [discriminate H | simpl in Hn; lia].
  - destruct s as [|c s]; [discriminate H|].
    cbn [parse_chars] in H. simpl in Hn. simpl String.length.
    destruct (c =? dquote)%char.
    { injection H as <- <-. lia. }
    destruct (c =? backslash)%char.
    + destruct s as [|e r1]; [discriminate H|]. simpl in Hn. simpl String.length.
      destruct (e =? "u")%char.
      * destruct r1 as [|h1 [|h2 [|h3 [|h4 r2]]]]; try discriminate H.
        destruct (code_unit h1 h2 h3 h4) as [u|]; [|discriminate H].
        simpl in Hn. simpl String.length.
        assert (forall x r,
                   prepend (utf8 u) (parse_chars r2) = Some (x, r) ->
                   (String.length r < String.length r2)%nat) as alone.
        { intros x0 r0 H0. apply prepend_some in H0 as [y H0].
          apply IH in H0; lia. }
        cbv zeta in H. destruct (is_high u); [|apply alone in H; lia].
        destruct r2 as [|b [|x0 [|h5 [|h6 [|h7 [|h8 r3]]]]]];
          try (apply alone in H; simpl in *; lia).
        destruct (if ((b =? backslash) && (x0 =? "u"))%char
                  then code_unit h5 h6 h7 h8 else None) as [v|];
          [|apply alone in H; simpl in *; lia].
        destruct (is_low v); [|apply alone in H; simpl in *; lia].
        apply prepend_some in H as [y H].
        apply IH in H; simpl in *; lia.
      * destruct (simple_escape e); [|discriminate H].
        apply cons_char_some in H as [y H].
        apply IH in H; simpl in *; lia.
    + destruct (N_of_ascii c <? 32)%N; [discriminate H|].
      apply cons_char_some in H as [y H].
      apply IH in H; lia.
Qed.

Lemma expect_length (lit s r : string) :
  expect lit s = Some r -> (String.length r <= String.length s)%nat.
Proof.
  revert s. induction lit as [|a lit IH]; intros s H; simpl in H.
  - injection H as <-. lia.
  - destruct s as [|b s]; [discriminate H|].
    destruct (a =? b)%char; [|discriminate H].
    apply IH in H. simpl. lia.
Qed.

Lemma parse_number_length (s : string) (v : JValue) (r : string) :
  parse_number s = Some (v, r) ->
  (String.length r < String.length s)%nat.
Proof.
  intros H. destruct (parse_number_head s v r H) as (c & r' & -> & Hc).
  revert H. unfold parse_number. cbn [span_number]. rewrite Hc.
  destruct (span_number r') as [d r0] eqn:E.
  apply span_number_split in E. subst r'.
  destruct (numeral_value (String c d)); [|discriminate].
  intros [= _ <-]. simpl. rewrite length_append. lia.
Qed.

Lemma fuel_adequate (f : nat) :
  fuel_free (fun f (_ : unit) s => parse_value f s) f
  /\ fuel_free parse_elements f
  /\ fuel_free parse_members f.
Proof.
  induction f as [|f (IHv & IHe & IHm)].
  { split; [|split]; intros st s v r H; discriminate H. }
  assert (fuel_free (fun f (_ : unit) s => parse_value f s) (S f)) as Hv.
  { intros _ s v r H. cbn [parse_value] in H.
    pose proof (skip_ws_length s) as Hs.
    destruct (skip_ws s) as [|c r0] eqn:Es; [discriminate H|].
    simpl String.length in Hs.
    assert (forall f', (String.length s - String.length r <= S f')%nat ->
                       (String.length r <= String.length r0)%nat ->
                       (String.length r0 - String.length r <= f')%nat) as arith
      by (intros; lia).
    destruct (c =? "{")%char eqn:E1.
    { pose proof (skip_ws_length r0) as Hs2.
      destruct (skip_ws r0) as [|c' r'] eqn:Es2; [discriminate H|].
      simpl String.length in Hs2.
      destruct (c' =? "}")%char eqn:E2.
      - injection H as <- <-. split; [lia|].
        intros [|f'] Hf; [lia|]. cbn [parse_value].
        now rewrite Es, E1, Es2, E2.
      - apply (IHm []) in H as [Hl Hf0]. split; [lia|].
        intros [|f'] Hf; [lia|]. cbn [parse_value].
        rewrite Es, E1, Es2, E2. apply Hf0. lia. }
    destruct (c =? "[")%char eqn:E2.
    { pose proof (skip_ws_length r0) as Hs2.
      destruct (skip_ws r0) as [|c' r'] eqn:Es2; [discriminate H|].
      simpl String.length in Hs2.
      destruct (c' =? "]")%char eqn:E3.
      - injection H as <- <-. split; [lia|].
        intros [|f'] Hf; [lia|]. cbn [parse_value].
        now rewrite Es, E1, E2, Es2, E3.
      - apply (IHe []) in H as [Hl Hf0]. split; [lia|].
        intros [|f'] Hf; [lia|]. cbn [parse_value].
        rewrite Es, E1, E2, Es2, E3. apply Hf0. lia. }
    assert ((String.length r < String.length (String c r0))%nat ->
            (String.length r < String.length s)%nat
            /\ forall f', (String.length s - String.length r <= f')%nat ->
                          parse_value f' s = Some (v, r)) as flat.
    { intros Hl. simpl in Hl. split; [lia|].
      intros [|f'] Hf; [lia|]. cbn [parse_value].
      now rewrite Es, E1, E2. }
    apply flat. clear flat.
    destruct (c =? dquote)%char.
    { destruct (parse_chars r0) as [[str r1]|] eqn:Ec; [|discriminate H].
      injection H as _ <-.
      apply (parse_chars_length (String.length r0)) in Ec; simpl; lia. }
    unfold literal in H.
    destruct (c =? "n")%char.
    { destruct (expect "ull" r0) eqn:El; [|discriminate H].
      injection H as _ <-. apply expect_length in El. simpl. lia. }
    destruct (c =? "t")%char.
    { destruct (expect "rue" r0) eqn:El; [|discriminate H].
      injection H as _ <-. apply expect_length in El. simpl. lia. }
    destruct (c =? "f")%char.
    { destruct (expect "alse" r0) eqn:El; [|discriminate H].
      injection H as _ <-. apply expect_length in El. simpl. lia. }
    now apply parse_number_length in H. }
  split; [exact Hv|]. split.
  - intros acc s v r H. cbn [parse_elements] in H.
    destruct (parse_value f s) as [[x r1]|] eqn:Ev; [|discriminate H].
    apply (IHv tt) in Ev as [Hl1 Hf1].
    pose proof (skip_ws_length r1) as Hs.
    destruct (skip_ws r1) as [|c r'] eqn:Es; [discriminate H|].
    simpl String.length in Hs.
    destruct (c =? ",")%char eqn:E1.
    + apply IHe in H as [Hl2 Hf2]. split; [lia|].
      intros [|f'] Hf; [lia|]. cbn [parse_elements].
      rewrite (Hf1 f') by lia. rewrite Es, E1. apply Hf2. lia.
    + destruct (c =? "]")%char eqn:E2; [|discriminate H].
      injection H as <- <-. split; [lia|].
      intros [|f'] Hf; [lia|]. cbn [parse_elements].
      rewrite (Hf1 f') by lia. now rewrite Es, E1, E2.
  - intros acc s v r H. cbn [parse_members] in H.
    pose proof (skip_ws_length s) as Hs.
    destruct (skip_ws s) as [|q r0] eqn:Es; [discriminate H|].
    simpl String.length in Hs.
    destruct (q =? dquote)%char eqn:E1; [|discriminate H].
    destruct (parse_chars r0) as [[k r1]|] eqn:Ec; [|discriminate H].
    pose proof (parse_chars_length _ _ _ _ (Nat.le_refl _) Ec) as Hc.
    pose proof (skip_ws_length r1) as Hs1.
    destruct (skip_ws r1) as [|c1 r2] eqn:Es1; [discriminate H|].
    simpl String.length in Hs1.
    destruct (c1 =? ":")%char eqn:E2; [|discriminate H].
    destruct (parse_value f r2) as [[x r3]|] eqn:Ev; [|discriminate H].
    apply (IHv tt) in Ev as [Hl1 Hf1].
    pose proof (skip_ws_length r3) as Hs3.
    destruct (skip_ws r3) as [|c3 r4] eqn:Es3; [discriminate H|].
    simpl String.length in Hs3.
    destruct (c3 =? ",")%char eqn:E3.
    + apply IHm in H as [Hl2 Hf2]. split; [lia|].
      intros [|f'] Hf; [lia|]. cbn [parse_members].
      rewrite Es, E1, Ec, Es1, E2. rewrite (Hf1 f') by lia.
      rewrite Es3, E3. apply Hf2. lia.
    + destruct (c3 =? "}")%char eqn:E4; [|discriminate H].
      injection H as <- <-. split; [lia|].
      intros [|f'] Hf; [lia|]. cbn [parse_members].
      rewrite Es, E1, Ec, Es1, E2. rewrite (Hf1 f') by lia.
      now rewrite Es3, E3, E4.
Qed.

(** [JSON_parse] refuses a text only when no amount of fuel would read a
    value followed by nothing but white space. *)
Lemma JSON_parse_any_fuel (f : nat) (text : string) (v : JValue) (r : string) :
  parse_value f text = Some (v, r) -> skip_ws r = "" ->
  JSON_parse text = Some v.
Proof.
  intros H Hr. destruct (fuel_adequate f) as (Hv & _ & _).
  apply (Hv tt) in H as [Hl Hf]. unfold JSON_parse.
  rewrite (Hf (S (String.length text))) by lia. now rewrite Hr.
Qed.


(* ================================================================== *)
(** * JSON.parse reads the JSON texts, and nothing else *)
(* ================================================================== *)

(** Brings concatenations to one form. *)
Ltac flatten := repeat first [rewrite append_assoc | progress cbn [append]].

(** Spells out the length of a concatenation. *)
Ltac lengths H :=
  repeat first [rewrite length_append in H | progress cbn [String.length] in H].

(** ** Numbers *)

Lemma span_digits_split (s ds r : string) :
  span_digits s = (ds, r) ->
  s = ds ++ r /\ all_digits ds = true /\ no_digit_head r = true.
Proof.
  revert ds r. induction s as [|c s IH]; cbn [span_digits]; intros ds r H.
  - injection H as <- <-. auto.
  - destruct (is_digit c) eqn:E.
    + destruct (span_digits s) as [d r'] eqn:Es. injection H as <- <-.
      destruct (IH d r' eq_refl) as (-> & Hd & Hr).
      cbn [append all_digits]. rewrite E. auto.
    + injection H as <- <-. cbn [append all_digits no_digit_head].
      rewrite E. auto.
Qed.

Lemma span_digits_app (a b : string) :
  all_digits a = true -> no_digit_head b = true ->
  span_digits (a ++ b) = (a, b).
Proof.
  induction a as [|c a IH]; cbn [append all_digits]; intros Ha Hb.
  - destruct b as [|x b]; [reflexivity|].
    cbn [span_digits no_digit_head] in *.
    apply negb_true_iff in Hb. now rewrite Hb.
  - apply andb_true_iff in Ha as [Hc Ha]. cbn [span_digits].
    rewrite Hc, IH by assumption. reflexivity.
Qed.

Lemma numeral_value_body (tok : string) :
  numeral_value tok
  = match tok with
    | EmptyString => None
    | String c r =>
        if (c =? "-")%char then numeral_body true r
        else numeral_body false tok
    end.
Proof.
  destruct tok as [|c r]; [reflexivity|].
  unfold numeral_value. now destruct (c =? "-")%char.
Qed.

Lemma fraction_part_sound (r1 fs r2 : string) :
  fraction_part r1 = Some (fs, r2) ->
  exists fp, r1 = fp ++ r2 /\ json_frac fp fs.
Proof.
  destruct r1 as [|c r]; cbn [fraction_part].
  - intros [= <- <-]. exists "". split; [reflexivity | constructor].
  - destruct (Ascii.eqb_spec c ".") as [->|_].
    + destruct (span_digits r) as [d r'] eqn:E.
      destruct (String.eqb_spec d "") as [->|Hne]; [discriminate|].
      intros [= <- <-]. apply span_digits_split in E as (-> & Hd & _).
      exists (String "." d). split; [reflexivity | now constructor].
    + intros [= <- <-]. exists "". split; [reflexivity | constructor].
Qed.

Lemma exponent_digits_sound (c : ascii) (sign : string) (neg : bool)
  (r1 : string) (x : Z) :
  c = "e"%char \/ c = "E"%char -> json_sign sign neg ->
  (let (es, r2) := span_digits r1 in
   if ((es =? "") || negb (r2 =? ""))%string then None
   else Some (if neg then - digits_value es else digits_value es)) = Some x ->
  json_exp (String c (sign ++ r1)) x.
Proof.
  intros Hc Hs H. destruct (span_digits r1) as [es r2] eqn:E.
  destruct (String.eqb_spec es "") as [->|Hne]; [discriminate|].
  destruct (String.eqb_spec r2 "") as [->|]; [|discriminate].
  cbn in H. injection H as <-. apply span_digits_split in E as (-> & Hd & _).
  rewrite append_nil_r. now apply (exp_some c sign neg es).
Qed.

Lemma exponent_part_sound (r : string) (x : Z) :
  exponent_part r = Some x -> json_exp r x.
Proof.
  destruct r as [|c r]; cbn [exponent_part].
  - intros [= <-]. constructor.
  - destruct ((c =? "e") || (c =? "E"))%char eqn:Ec; [|discriminate].
    assert (c = "e"%char \/ c = "E"%char) as Hc.
    { apply orb_true_iff in Ec as [E|E]; apply Ascii.eqb_eq in E; auto. }
    destruct r as [|g r'].
    + apply (exponent_digits_sound c "" false ""); [assumption | constructor].
    + destruct (Ascii.eqb_spec g "-") as [->|_].
      { apply (exponent_digits_sound c "-" true r'); [assumption | constructor]. }
      destruct (Ascii.eqb_spec g "+") as [->|_].
      { apply (exponent_digits_sound c "+" false r'); [assumption | constructor]. }
      apply (exponent_digits_sound c "" false (String g r'));
        [assumption | constructor].
Qed.

Lemma integer_part_sound (ds : string) :
  all_digits ds = true -> ds <> "" -> leading_zero ds = false -> json_int ds.
Proof.
  destruct ds as [|c d]; [contradiction|]. cbn [all_digits]. intros H _ Hl.
  apply andb_true_iff in H as [Hc Hd].
  destruct (Ascii.eqb_spec c "0") as [->|Hne].
  - destruct d; [constructor | discriminate Hl].
  - now constructor.
Qed.

Lemma numeral_body_sound (neg : bool) (r : string) (v : JValue) :
  numeral_body neg r = Some v ->
  json_number ((if neg then "-" else "") ++ r) v.
Proof.
  unfold numeral_body. destruct (span_digits r) as [ds r1] eqn:E.
  apply span_digits_split in E as (-> & Hd & _).
  destruct (String.eqb_spec ds "") as [->|Hne]; [discriminate|].
  cbn [orb]. destruct (leading_zero ds) eqn:El; [discriminate|].
  destruct (fraction_part r1) as [[fs r2]|] eqn:Ef; [|discriminate].
  destruct (exponent_part r2) as [x|] eqn:Ex; [|discriminate].
  intros [= <-].
  apply fraction_part_sound in Ef as (fp & -> & Hf).
  apply exponent_part_sound in Ex.
  apply number_intro; [now apply integer_part_sound | assumption | assumption].
Qed.

Lemma numeral_value_sound (tok : string) (v : JValue) :
  numeral_value tok = Some v -> json_number tok v.
Proof.
  rewrite numeral_value_body. destruct tok as [|c r]; [discriminate|].
  destruct (Ascii.eqb_spec c "-") as [->|_]; intros H.
  - now apply (numeral_body_sound true).
  - now apply (numeral_body_sound false).
Qed.

Lemma digit_not_symbol (c : ascii) :
  is_digit c = true ->
  (c =? "-")%char = false /\ (c =? "+")%char = false
  /\ (c =? ".")%char = false /\ (c =? "e")%char = false
  /\ (c =? "E")%char = false.
Proof.
  destruct c as [[] [] [] [] [] [] [] []]; intros H; try discriminate H;
    repeat split.
Qed.

Lemma all_digits_head (s : string) :
  all_digits s = true -> s <> "" ->
  exists c r, s = String c r /\ is_digit c = true.
Proof.
  destruct s as [|c r]; [contradiction|]. cbn [all_digits]. intros H _.
  apply andb_true_iff in H as [H _]. eauto.
Qed.

Lemma span_digits_all (s : string) :
  all_digits s = true -> span_digits s = (s, "").
Proof.
  intros H. rewrite <- (append_nil_r s) at 1. now apply span_digits_app.
Qed.

Lemma json_int_digits (ip : string) :
  json_int ip ->
  all_digits ip = true /\ ip <> "" /\ leading_zero ip = false.
Proof.
  intros [|c s Hc Hne Hs].
  - repeat split. discriminate.
  - cbn [all_digits]. rewrite Hc, Hs. repeat split; [discriminate|].
    destruct s; [reflexivity|]. cbn [leading_zero].
    now apply Ascii.eqb_neq.
Qed.

Lemma exponent_part_complete (ep : string) (x : Z) :
  json_exp ep x -> exponent_part ep = Some x.
Proof.
  intros [|c sign neg es Hc Hs Hd Hne]; [reflexivity|].
  cbn [exponent_part].
  replace ((c =? "e") || (c =? "E"))%char with true
    by (destruct Hc as [-> | ->]; reflexivity).
  destruct (all_digits_head es Hd Hne) as (d & es' & E & Hdig).
  destruct (digit_not_symbol d Hdig) as (Hm & Hp & _).
  assert ((es =? "")%string = false) as Hes by (now rewrite E).
  destruct Hs; cbn [append].
  - rewrite E at 1. rewrite Hm, Hp.
    now rewrite (span_digits_all es Hd), Hes.
  - change ("+" =? "-")%char with false. change ("+" =? "+")%char with true.
    cbv iota. now rewrite (span_digits_all es Hd), Hes.
  - change ("-" =? "-")%char with true. cbv iota.
    now rewrite (span_digits_all es Hd), Hes.
Qed.

Lemma json_exp_head (ep : string) (x : Z) :
  json_exp ep x ->
  no_digit_head ep = true
  /\ match ep with
     | EmptyString => True
     | String c _ => (c =? ".")%char = false
     end.
Proof.
  intros [|c sign neg es Hc Hs Hd Hne]; [now split|].
  destruct Hc as [-> | ->]; now split.
Qed.

Lemma fraction_part_complete (fp fs ep : string) (x : Z) :
  json_frac fp fs -> json_exp ep x ->
  fraction_part (fp ++ ep) = Some (fs, ep).
Proof.
  intros Hf He. destruct (json_exp_head ep x He) as [Hn Hp].
  destruct Hf as [|fs Hd Hne]; cbn [append].
  - destruct ep as [|c r]; [reflexivity|]. cbn [fraction_part]. now rewrite Hp.
  - cbn [fraction_part]. change ("." =? ".")%char with true. cbv iota.
    rewrite (span_digits_app fs ep Hd Hn).
    destruct (String.eqb_spec fs "") as [E|_]; [now contradiction Hne|].
    reflexivity.
Qed.

Lemma json_frac_head (fp fs ep : string) (x : Z) :
  json_frac fp fs -> json_exp ep x -> no_digit_head (fp ++ ep) = true.
Proof.
  intros [|fs' Hd Hne] He; [|reflexivity].
  now destruct (json_exp_head ep x He).
Qed.

Lemma numeral_body_complete (neg : bool) (ip fp fs ep : string) (x : Z) :
  json_int ip -> json_frac fp fs -> json_exp ep x ->
  numeral_body neg (ip ++ fp ++ ep)
  = Some (number_value neg (digits_value (ip ++ fs))
            (x - Z.of_nat (String.length fs))).
Proof.
  intros Hi Hf He. destruct (json_int_digits ip Hi) as (Hd & Hne & Hl).
  unfold numeral_body.
  rewrite (span_digits_app ip (fp ++ ep) Hd (json_frac_head fp fs ep x Hf He)).
  destruct (String.eqb_spec ip "") as [E|_]; [now contradiction Hne|].
  cbn [orb]. rewrite Hl, (fraction_part_complete fp fs ep x Hf He).
  now rewrite (exponent_part_complete ep x He).
Qed.

Lemma numeral_value_complete (tok : string) (v : JValue) :
  json_number tok v -> numeral_value tok = Some v.
Proof.
  intros [neg ip fp fs ep x Hi Hf He]. rewrite numeral_value_body.
  destruct neg; cbn [append].
  - change ("-" =? "-")%char with true. cbv iota.
    now apply numeral_body_complete.
  - destruct (json_int_digits ip Hi) as (Hd & Hne & _).
    destruct (all_digits_head ip Hd Hne) as (c & r & E & Hc).
    destruct (digit_not_symbol c Hc) as (Hm & _).
    rewrite E at 1. cbn [append]. rewrite Hm.
    now apply numeral_body_complete.
Qed.

(** [numeral_value] reads exactly the numbers of the grammar. *)
Lemma numeral_value_spec (tok : string) (v : JValue) :
  numeral_value tok = Some v <-> json_number tok v.
Proof.
  split; [apply numeral_value_sound | apply numeral_value_complete].
Qed.

Lemma parse_number_sound (s : string) (v : JValue) (r : string) :
  parse_number s = Some (v, r) -> exists t, s = t ++ r /\ json_number t v.
Proof.
  unfold parse_number. destruct (span_number s) as [tok rest] eqn:E.
  destruct (numeral_value tok) as [x|] eqn:Ev; [|discriminate].
  intros [= <- <-]. apply span_number_split in E. exists tok.
  split; [assumption | now apply numeral_value_sound].
Qed.

Lemma all_number_chars_span (t : string) :
  all_number_chars t = true -> span_number t = (t, "").
Proof.
  induction t as [|c t IH]; cbn [all_number_chars span_number];
    [reflexivity|].
  intros H. apply andb_true_iff in H as [Hc Ht]. now rewrite Hc, IH.
Qed.

Lemma all_number_chars_app (a b : string) :
  all_number_chars a = true -> all_number_chars b = true ->
  all_number_chars (a ++ b) = true.
Proof.
  induction a as [|c a IH]; cbn [append all_number_chars]; intros Ha Hb;
    [assumption|].
  apply andb_true_iff in Ha as [Hc Ha]. now rewrite Hc, IH.
Qed.

Lemma digits_number_chars (s : string) :
  all_digits s = true -> all_number_chars s = true.
Proof.
  induction s as [|c s IH]; cbn [all_digits all_number_chars];
    [reflexivity|].
  intros H. apply andb_true_iff in H as [Hc Hs].
  unfold is_number_char. now rewrite Hc, IH.
Qed.

Lemma json_number_chars (t : string) (v : JValue) :
  json_number t v -> all_number_chars t = true.
Proof.
  intros [neg ip fp fs ep x Hi Hf He].
  destruct (json_int_digits ip Hi) as (Hd & _ & _).
  repeat apply all_number_chars_app.
  - now destruct neg.
  - now apply digits_number_chars.
  - destruct Hf as [|fs' Hfs _]; [reflexivity|].
    cbn [all_number_chars]. now rewrite digits_number_chars.
  - destruct He as [|c sign neg' es Hc Hs Hes _]; [reflexivity|].
    cbn [all_number_chars].
    replace (is_number_char c) with true
      by (destruct Hc as [-> | ->]; reflexivity).
    apply all_number_chars_app; [now destruct Hs|].
    now apply digits_number_chars.
Qed.

Lemma parse_number_complete (t : string) (v : JValue) (rest : string) :
  json_number t v -> delimited rest = true ->
  parse_number (t ++ rest) = Some (v, rest).
Proof.
  intros H Hr. unfold parse_number.
  rewrite span_number_app;
    [| now apply all_number_chars_span, (json_number_chars t v) | assumption].
  now rewrite (numeral_value_complete t v H).
Qed.

Lemma json_number_head (t : string) (v : JValue) :
  json_number t v ->
  exists c r, t = String c r /\ is_number_char c = true.
Proof.
  intros H. pose proof (json_number_chars t v H) as Hc.
  destruct t as [|c r].
  - apply numeral_value_complete in H. discriminate H.
  - cbn [all_number_chars] in Hc. apply andb_true_iff in Hc as [Hc _]. eauto.
Qed.

(** ** Strings *)

Lemma simple_escape_not_u (e u : ascii) :
  simple_escape e = Some u -> (e =? "u")%char = false.
Proof.
  destruct (Ascii.eqb_spec e "u") as [->|]; [discriminate | reflexivity].
Qed.

Lemma low_after_app (cs str : string) (u : N) (tail : string) :
  json_chars cs str ->
  (low_after u (cs ++ String dquote tail) = None <-> low_after u cs = None).
Proof.
  assert (forall s, low_after u (String dquote s) = None) as quote
    by (intros s; now apply low_after_other).
  assert (low_after u "" = None) as empty
    by (unfold low_after; now destruct (is_high u)).
  intros [|c s str' H32 Hq Hb Hs|e x s str' He Hs
          |h1 h2 h3 h4 w s str' Hw Hl Hs
          |h1 h2 h3 h4 l1 l2 l3 l4 hi lo s str' Hh Hhi Hlo Hl Hs];
    cbn [append].
  - now rewrite quote, empty.
  - apply Ascii.eqb_neq in Hb. now rewrite !low_after_other.
  - apply simple_escape_not_u in He. now rewrite !low_after_escape.
  - split; apply low_after_escaped.
  - split; apply low_after_escaped.
Qed.

Lemma prepend_inv (p : string) (q : option (string * string))
  (x r : string) :
  prepend p q = Some (x, r) -> exists y, q = Some (y, r) /\ x = p ++ y.
Proof.
  destruct q as [[y r']|]; cbn [prepend]; [|discriminate].
  intros [= <- <-]. now exists y.
Qed.

Lemma cons_char_inv (c : ascii) (q : option (string * string))
  (x r : string) :
  cons_char c q = Some (x, r) -> exists y, q = Some (y, r) /\ x = String c y.
Proof.
  destruct q as [[y r']|]; cbn [cons_char]; [|discriminate].
  intros [= <- <-]. now exists y.
Qed.

Lemma parse_chars_sound (n : nat) :
  forall s str r,
    (String.length s <= n)%nat -> parse_chars s = Some (str, r) ->
    exists cs, s = cs ++ String dquote r /\ json_chars cs str.
Proof.
  induction n as [|n IH]; intros s str r Hn H.
  { destruct s; [discriminate H | simpl in Hn; lia]. }
  destruct s as [|c s]; [discriminate H|]. simpl in Hn.
  destruct (Ascii.eqb_spec c dquote) as [->|Hq].
  { cbn [parse_chars] in H. known_tests_in H. injection H as <- <-.
    exists "". split; [reflexivity | constructor]. }
  destruct (Ascii.eqb_spec c backslash) as [->|Hb].
  - destruct s as [|e r1]; [discriminate H|]. simpl in Hn.
    destruct (Ascii.eqb_spec e "u") as [->|Hu].
    + destruct r1 as [|h1 [|h2 [|h3 [|h4 r2]]]]; try discriminate H.
      simpl in Hn. rewrite parse_chars_unit in H.
      destruct (code_unit h1 h2 h3 h4) as [u|] eqn:Eu; [|discriminate H].
      destruct (low_after u r2) as [[v r3]|] eqn:El.
      * apply prepend_inv in H as (y & Hy & ->).
        apply low_after_some in El as (Hh & l1 & l2 & l3 & l4 & -> & Hv & Hl).
        simpl in Hn. apply IH in Hy as (cs & -> & Hcs); [|lia].
        exists (String backslash (String "u" (String h1 (String h2 (String h3
                  (String h4 (String backslash (String "u" (String l1
                     (String l2 (String l3 (String l4 cs)))))))))))).
        split; [reflexivity|].
        now apply (chars_pair h1 h2 h3 h4 l1 l2 l3 l4 u v).
      * apply prepend_inv in H as (y & Hy & ->).
        apply IH in Hy as (cs & -> & Hcs); [|lia].
        exists (String backslash (String "u" (String h1 (String h2 (String h3
                  (String h4 cs)))))).
        split; [reflexivity|].
        apply (chars_unit h1 h2 h3 h4 u); [assumption | | assumption].
        now apply (low_after_app cs y u r Hcs).
    + apply Ascii.eqb_neq in Hu. cbn [parse_chars] in H. known_tests_in H.
      rewrite Hu in H.
      destruct (simple_escape e) as [x|] eqn:Ee; [|discriminate H].
      apply cons_char_inv in H as (y & Hy & ->).
      apply IH in Hy as (cs & -> & Hcs); [|lia].
      exists (String backslash (String e cs)).
      split; [reflexivity | now apply (chars_escape e x)].
  - pose proof Hq as Hq'. pose proof Hb as Hb'.
    apply Ascii.eqb_neq in Hq', Hb'. cbn [parse_chars] in H.
    rewrite Hq', Hb' in H.
    destruct (N_of_ascii c <? 32)%N eqn:E32; [discriminate H|].
    apply cons_char_inv in H as (y & Hy & ->).
    apply IH in Hy as (cs & -> & Hcs); [|lia].
    exists (String c cs). split; [reflexivity | now apply (chars_plain c)].
Qed.

Lemma parse_chars_complete (cs str : string) :
  json_chars cs str ->
  forall r, parse_chars (cs ++ String dquote r) = Some (str, r).
Proof.
  induction 1 as [|c s str H32 Hq Hb Hs IH|e x s str He Hs IH
                  |h1 h2 h3 h4 u s str Hu Hl Hs IH
                  |h1 h2 h3 h4 l1 l2 l3 l4 hi lo s str Hh Hhi Hlo Hl Hs IH];
    intros r; cbn [append].
  - cbn [parse_chars]. now rewrite Ascii.eqb_refl.
  - apply Ascii.eqb_neq in Hq, Hb. cbn [parse_chars].
    now rewrite Hq, Hb, H32, IH.
  - pose proof (simple_escape_not_u e x He) as Hne.
    cbn [parse_chars]. known_tests. now rewrite Hne, He, IH.
  - rewrite parse_chars_unit, Hu.
    rewrite (proj2 (low_after_app s str u r Hs) Hl). now rewrite IH.
  - rewrite parse_chars_unit, Hh.
    rewrite (low_after_pair hi lo l1 l2 l3 l4 _ Hhi Hlo Hl). now rewrite IH.
Qed.

(** ** Values *)

Lemma skip_ws_split (s : string) :
  exists w, all_ws w = true /\ s = w ++ skip_ws s.
Proof.
  induction s as [|c s (w & Hw & E)]; [now exists ""|]. cbn [skip_ws].
  destruct (is_ws c) eqn:Ec.
  - exists (String c w). cbn [all_ws append]. rewrite Ec, Hw.
    split; [reflexivity | now rewrite <- E].
  - now exists "".
Qed.

Lemma skip_ws_found (s : string) (c : ascii) (r : string) :
  skip_ws s = String c r ->
  exists w, all_ws w = true /\ s = w ++ String c r.
Proof.
  intros H. destruct (skip_ws_split s) as (w & Hw & E). rewrite H in E. eauto.
Qed.

Lemma skip_ws_nothing (s : string) : skip_ws s = "" -> all_ws s = true.
Proof.
  induction s as [|c s IH]; [reflexivity|]. cbn [skip_ws all_ws].
  destruct (is_ws c); [exact IH | discriminate].
Qed.

Lemma expect_sound (lit s r : string) : expect lit s = Some r -> s = lit ++ r.
Proof.
  revert s. induction lit as [|a lit IH]; intros s H; cbn [expect] in H.
  - now injection H as <-.
  - destruct s as [|b s]; [discriminate H|].
    destruct (Ascii.eqb_spec a b) as [<-|_]; [|discriminate H].
    cbn [append]. now rewrite (IH s H).
Qed.

Lemma literal_sound (lit : string) (x : JValue) (s : string) (v : JValue)
  (r : string) :
  literal lit x s = Some (v, r) -> s = lit ++ r /\ v = x.
Proof.
  unfold literal. destruct (expect lit s) as [r'|] eqn:E; [|discriminate].
  intros [= <- <-]. split; [now apply expect_sound | reflexivity].
Qed.

Lemma parse_sound (f : nat) :
  sound_value f /\ sound_elements f /\ sound_members f.
Proof.
  induction f as [|f (IHv & IHe & IHm)].
  { split; [|split]; intros ? ? ? ?; discriminate. }
  split; [|split].
  - intros s v r H. cbn [parse_value] in H.
    destruct (skip_ws s) as [|c r0] eqn:Es; [discriminate H|].
    apply skip_ws_found in Es as (w & Hw & ->). exists w.
    destruct (Ascii.eqb_spec c "{") as [->|_].
    { destruct (skip_ws r0) as [|c' r'] eqn:Es2; [discriminate H|].
      destruct (Ascii.eqb_spec c' "}") as [->|_].
      - injection H as <- <-.
        apply skip_ws_found in Es2 as (w' & Hw' & ->).
        exists (String "{" (w' ++ "}")). split; [assumption|]. split.
        + now flatten.
        + now constructor.
      - apply IHm in H as (ts & ms & -> & Hms & ->).
        exists (String "{" (ts ++ "}")). split; [assumption|]. split.
        + now flatten.
        + now apply value_object. }
    destruct (Ascii.eqb_spec c "[") as [->|_].
    { destruct (skip_ws r0) as [|c' r'] eqn:Es2; [discriminate H|].
      destruct (Ascii.eqb_spec c' "]") as [->|_].
      - injection H as <- <-.
        apply skip_ws_found in Es2 as (w' & Hw' & ->).
        exists (String "[" (w' ++ "]")). split; [assumption|]. split.
        + now flatten.
        + now constructor.
      - apply IHe in H as (ts & vs & -> & Hvs & ->).
        exists (String "[" (ts ++ "]")). split; [assumption|]. split.
        + now flatten.
        + now apply value_array. }
    destruct (Ascii.eqb_spec c dquote) as [->|_].
    { destruct (parse_chars r0) as [[str r1]|] eqn:Ec; [|discriminate H].
      injection H as <- <-.
      apply (parse_chars_sound _ _ _ _ (Nat.le_refl _)) in Ec
        as (cs & -> & Hcs).
      exists (String dquote (cs ++ String dquote "")).
      split; [assumption|]. split.
      - now flatten.
      - now constructor. }
    destruct (Ascii.eqb_spec c "n") as [->|_].
    { apply literal_sound in H as [-> ->]. exists "null".
      split; [assumption|]. split; [reflexivity | constructor]. }
    destruct (Ascii.eqb_spec c "t") as [->|_].
    { apply literal_sound in H as [-> ->]. exists "true".
      split; [assumption|]. split; [reflexivity | constructor]. }
    destruct (Ascii.eqb_spec c "f") as [->|_].
    { apply literal_sound in H as [-> ->]. exists "false".
      split; [assumption|]. split; [reflexivity | constructor]. }
    apply parse_number_sound in H as (t & E & Ht). exists t.
    split; [assumption|]. split; [now rewrite E | now constructor].
  - intros acc s v r H. cbn [parse_elements] in H.
    destruct (parse_value f s) as [[x r1]|] eqn:Ev; [|discriminate H].
    apply IHv in Ev as (w & t & Hw & -> & Ht).
    destruct (skip_ws r1) as [|c r'] eqn:Es; [discriminate H|].
    apply skip_ws_found in Es as (w2 & Hw2 & ->).
    destruct (Ascii.eqb_spec c ",") as [->|_].
    + apply IHe in H as (ts & vs & -> & Hvs & ->).
      exists (w ++ t ++ w2 ++ String "," ts), (x :: vs). split; [|split].
      * now flatten.
      * now constructor.
      * cbn [rev]. now rewrite <- List.app_assoc.
    + destruct (Ascii.eqb_spec c "]") as [->|_]; [|discriminate H].
      injection H as <- <-.
      exists (w ++ t ++ w2), [x]. split; [|split].
      * now flatten.
      * now constructor.
      * reflexivity.
  - intros acc s v r H. cbn [parse_members] in H.
    destruct (skip_ws s) as [|q r0] eqn:Es; [discriminate H|].
    apply skip_ws_found in Es as (w1 & Hw1 & ->).
    destruct (Ascii.eqb_spec q dquote) as [->|_]; [|discriminate H].
    destruct (parse_chars r0) as [[k r1]|] eqn:Ec; [|discriminate H].
    apply (parse_chars_sound _ _ _ _ (Nat.le_refl _)) in Ec as (cs & -> & Hcs).
    destruct (skip_ws r1) as [|c1 r2] eqn:Es1; [discriminate H|].
    apply skip_ws_found in Es1 as (w2 & Hw2 & ->).
    destruct (Ascii.eqb_spec c1 ":") as [->|_]; [|discriminate H].
    destruct (parse_value f r2) as [[x r3]|] eqn:Ev; [|discriminate H].
    apply IHv in Ev as (w3 & t & Hw3 & -> & Ht).
    destruct (skip_ws r3) as [|c3 r4] eqn:Es3; [discriminate H|].
    apply skip_ws_found in Es3 as (w4 & Hw4 & ->).
    destruct (Ascii.eqb_spec c3 ",") as [->|_].
    + apply IHm in H as (ts & ms & -> & Hms & ->).
      exists (w1 ++ String dquote (cs ++ String dquote
                (w2 ++ String ":" (w3 ++ t ++ w4 ++ String "," ts)))),
        ((k, x) :: ms).
      split; [|split].
      * now flatten.
      * now constructor.
      * reflexivity.
    + destruct (Ascii.eqb_spec c3 "}") as [->|_]; [|discriminate H].
      injection H as <- <-.
      exists (w1 ++ String dquote (cs ++ String dquote
                (w2 ++ String ":" (w3 ++ t ++ w4)))),
        [(k, x)].
      split; [|split].
      * now flatten.
      * now constructor.
      * reflexivity.
Qed.

Lemma json_value_opens (t : string) (v : JValue) :
  json_value t v -> opens_value t = true.
Proof.
  intros [| | |t' v' Hn|s str Hs|w Hw|t' vs He|w Hw|t' ms Hm];
    try reflexivity.
  destruct (json_number_head t' v' Hn) as (c & r & -> & Hc).
  now apply number_head_opens.
Qed.

Lemma json_elements_opens (ts : string) (vs : list JValue) :
  json_elements ts vs ->
  exists w s, all_ws w = true /\ ts = w ++ s /\ opens_value s = true.
Proof.
  intros [w1 t w2 v Hw1 Hw2 Hv|w1 t w2 ts' v vs' Hw1 Hw2 Hv He];
    exists w1; eexists; (split; [assumption|]); (split; [reflexivity|]);
    now apply opens_value_app, (json_value_opens t v).
Qed.

Lemma json_members_opens (ts : string) (ms : list (string * JValue)) :
  json_members ts ms ->
  exists w s, all_ws w = true /\ ts = w ++ s /\ opens_value s = true.
Proof.
  intros [w1 k w2 w3 t w4 key v Hw1 _ _ _ _ _
         |w1 k w2 w3 t w4 key ts' v ms' Hw1 _ _ _ _ _ _];
    exists w1; eexists; (split; [assumption|]); split; reflexivity.
Qed.

Lemma opens_value_length (t : string) :
  opens_value t = true -> (1 <= String.length t)%nat.
Proof. destruct t; [discriminate | simpl; lia]. Qed.

Lemma delimited_before (w : string) (c : ascii) (rest : string) :
  all_ws w = true -> is_number_char c = false ->
  delimited (w ++ String c rest) = true.
Proof.
  intros Hw Hc. apply delimited_ws_app; [assumption|].
  cbn [delimited]. now rewrite Hc.
Qed.

Lemma all_ws_delimited (w : string) : all_ws w = true -> delimited w = true.
Proof.
  intros H. rewrite <- (append_nil_r w). now apply delimited_ws_app.
Qed.

Lemma parse_complete :
  (forall t v, json_value t v -> complete_value t v)
  /\ (forall ts vs, json_elements ts vs -> complete_elements ts vs)
  /\ (forall ts ms, json_members ts ms -> complete_members ts ms).
Proof.
  apply json_mutual_ind.
  - intros rest f Hr Hf. apply literal_parses. simpl in Hf. lia.
  - intros rest f Hr Hf. apply literal_parses. simpl in Hf. lia.
  - intros rest f Hr Hf. apply literal_parses. simpl in Hf. lia.
  - intros t v Hn rest f Hr Hf.
    destruct (json_number_head t v Hn) as (c & r & E & Hc).
    destruct f as [|f]; [rewrite E in Hf; simpl in Hf; lia|].
    rewrite <- (parse_number_complete t v rest Hn Hr). rewrite E.
    cbn [append]. now apply parse_value_number.
  - intros s str Hs rest f Hr Hf.
    destruct f as [|f]; [simpl in Hf; lia|].
    cbn [append parse_value skip_ws]. known_tests.
    rewrite append_assoc. cbn [append].
    now rewrite (parse_chars_complete s str Hs).
  - intros w Hw rest f Hr Hf.
    destruct f as [|f]; [simpl in Hf; lia|].
    cbn [append parse_value skip_ws]. known_tests.
    rewrite append_assoc, skip_ws_app by assumption.
    cbn [append skip_ws]. known_tests. reflexivity.
  - intros t vs He IH rest f Hr Hf.
    destruct f as [|f]; [simpl in Hf; lia|].
    assert (S (String.length t) <= f)%nat as Hfuel.
    { lengths Hf. lia. }
    pose proof (IH [] rest f Hfuel) as Hp.
    destruct (json_elements_opens t vs He) as (w & s & Hw & E & Ho).
    rewrite E in Hp |- *. flatten. rewrite append_assoc in Hp.
    rewrite parse_elements_ws in Hp by assumption.
    rewrite parse_value_array; [exact Hp | assumption |].
    now apply opens_value_app.
  - intros w Hw rest f Hr Hf.
    destruct f as [|f]; [simpl in Hf; lia|].
    cbn [append parse_value skip_ws]. known_tests.
    rewrite append_assoc, skip_ws_app by assumption.
    cbn [append skip_ws]. known_tests. reflexivity.
  - intros t ms Hm IH rest f Hr Hf.
    destruct f as [|f]; [simpl in Hf; lia|].
    assert (S (String.length t) <= f)%nat as Hfuel.
    { lengths Hf. lia. }
    pose proof (IH [] rest f Hfuel) as Hp.
    destruct (json_members_opens t ms Hm) as (w & s & Hw & E & Ho).
    rewrite E in Hp |- *. flatten. rewrite append_assoc in Hp.
    rewrite parse_members_ws in Hp by assumption.
    rewrite parse_value_object; [exact Hp | assumption |].
    now apply opens_value_app.
  - intros w1 t w2 v Hw1 Hw2 Hv IHv acc rest f Hf.
    destruct f as [|f]; [lia|].
    assert (String.length t <= f)%nat as Hfuel.
    { lengths Hf. lia. }
    flatten. cbn [parse_elements]. rewrite parse_value_ws by assumption.
    rewrite (IHv (w2 ++ String "]" rest) f);
      [| now apply delimited_before | assumption].
    rewrite skip_ws_app by assumption. cbn [skip_ws]. known_tests.
    reflexivity.
  - intros w1 t w2 ts v vs Hw1 Hw2 Hv IHv He IHe acc rest f Hf.
    destruct f as [|f]; [lia|].
    assert (String.length t <= f /\ S (String.length ts) <= f)%nat
      as [Hfuel Hmore].
    { lengths Hf. lia. }
    flatten. cbn [parse_elements]. rewrite parse_value_ws by assumption.
    rewrite (IHv (w2 ++ String "," (ts ++ String "]" rest)) f);
      [| now apply delimited_before | assumption].
    rewrite skip_ws_app by assumption. cbn [skip_ws]. known_tests.
    rewrite (IHe (v :: acc) rest f Hmore). cbn [rev].
    now rewrite <- List.app_assoc.
  - intros w1 k w2 w3 t w4 key v Hw1 Hw2 Hw3 Hw4 Hk Hv IHv acc rest f Hf.
    destruct f as [|f]; [lia|].
    assert (String.length t <= f)%nat as Hfuel.
    { lengths Hf. lia. }
    flatten. cbn [parse_members]. rewrite skip_ws_app by assumption.
    cbn [skip_ws]. known_tests.
    rewrite (parse_chars_complete k key Hk).
    rewrite skip_ws_app by assumption. cbn [skip_ws]. known_tests.
    rewrite parse_value_ws by assumption.
    rewrite (IHv (w4 ++ String "}" rest) f);
      [| now apply delimited_before | assumption].
    rewrite skip_ws_app by assumption. cbn [skip_ws]. known_tests.
    reflexivity.
  - intros w1 k w2 w3 t w4 key ts v ms Hw1 Hw2 Hw3 Hw4 Hk Hv IHv Hm IHm
      acc rest f Hf.
    destruct f as [|f]; [lia|].
    assert (String.length t <= f /\ S (String.length ts) <= f)%nat
      as [Hfuel Hmore].
    { lengths Hf. lia. }
    flatten. cbn [parse_members]. rewrite skip_ws_app by assumption.
    cbn [skip_ws]. known_tests.
    rewrite (parse_chars_complete k key Hk).
    rewrite skip_ws_app by assumption. cbn [skip_ws]. known_tests.
    rewrite parse_value_ws by assumption.
    rewrite (IHv (w4 ++ String "," (ts ++ String "}" rest)) f);
      [| now apply delimited_before | assumption].
    rewrite skip_ws_app by assumption. cbn [skip_ws]. known_tests.
    now rewrite (IHm (define_property acc key v) rest f Hmore).
Qed.

(** [JSON_parse] accepts exactly the JSON texts, and gives the value the
    text denotes. *)
Lemma JSON_parse_spec (text : string) (v : JValue) :
  JSON_parse text = Some v <-> json_text text v.
Proof.
  unfold JSON_parse, json_text. split.
  - destruct (parse_value (S (String.length text)) text) as [[x r]|] eqn:E;
      [|discriminate].
    destruct (skip_ws r) eqn:Er; [|discriminate]. intros [= <-].
    apply (proj1 (parse_sound _)) in E as (w & t & Hw & -> & Ht).
    exists w, t, r. split; [assumption|].
    split; [now apply skip_ws_nothing|]. now split.
  - intros (w1 & t & w2 & Hw1 & Hw2 & -> & Ht).
    rewrite parse_value_ws by assumption.
    rewrite (proj1 parse_complete t v Ht w2);
      [| now apply all_ws_delimited
       | rewrite !length_append; lia].
    rewrite <- (append_nil_r w2), skip_ws_app by assumption. reflexivity.
Qed.

(** A text denotes one value at most. *)
Lemma json_text_unique (text : string) (v v' : JValue) :
  json_text text v -> json_text text v' -> v = v'.
Proof.
  intros H H'. apply JSON_parse_spec in H, H'. congruence.
Qed.

(** ** Samples *)

Example sample_numbers :
  map JSON_parse
    ["1e3"; "10.0"; "-0"; "0.1"; "142.37"; "9007199254740993"; "1e21";
     "1e400"; "1e-400"; "01"; "1."; ".5"; "+1"; "1e"]
  = [Some (JNum 1000); Some (JNum 10); Some (JNum 0);
     Some (JReal false 7205759403792794 (-56));
     Some (JReal false 5009199054287012 (-45));
     Some (JNum 9007199254740992);
     Some (JReal false 7629394531250000 17);
     Some (JInfinity false); Some (JNum 0);
     None; None; None; None; None].
Proof. vm_compute. reflexivity. Qed.

Example sample_number_texts :
  map ToString
    [JReal false 7205759403792794 (-56); JReal false 5009199054287012 (-45);
     JReal false 7629394531250000 17; JReal false 4503599627370496 8;
     JReal true 4503599627370496 (-53); JReal false 1 (-1074);
     JReal false 7555786372591432 (-76); JReal false 4722366482869645 (-72);
     JNum 9007199254740992; JInfinity true]
  = ["0.1"; "142.37"; "1e+21"; "1152921504606847000"; "-0.5"; "5e-324";
     "1e-7"; "0.000001"; "9007199254740992"; "-Infinity"].
Proof. vm_compute. reflexivity. Qed.

Example sample_surrogates :
  JSON_parse
    (String dquote
       (String backslash
          ("ud83d" ++ String backslash ("ude00" ++ String dquote ""))))
  = Some (JStr (String "240" (String "159" (String "152" (String "128" ""))))).
Proof. vm_compute. reflexivity. Qed.

Example sample_property_order :
  JSON_parse
    ("{" ++ QuoteJSONString "b" ++ ":1," ++ QuoteJSONString "10" ++ ":2,"
         ++ QuoteJSONString "9" ++ ":3," ++ QuoteJSONString "b" ++ ":4}")
  = Some (JObj [("9", JNum 3); ("10", JNum 2); ("b", JNum 4)]).
Proof. vm_compute. reflexivity. Qed.


(* ================================================================== *)
(** * Facts on the gateway *)
(* ================================================================== *)

Lemma nonempty_true (s : string) : nonempty s = true <-> s <> "".
Proof.
  unfold nonempty. rewrite negb_true_iff. apply String.eqb_neq.
Qed.


(** One call of [apiCall] sends one request and gives what [read_response]
    makes of the answer. *)
Lemma run_apiCall (env : Env) (m p : string) (b : JValue)
  (q : option (list (string * string))) (net : Network) (sent : list Request) :
  run net sent (apiCall env m p b q)
  = ((sent ++ [make_request env m p b q])%list,
     match net sent (make_request env m p b q) with
     | NetworkError reason => Thrown (FetchFailed reason)
     | HttpResponse status text => Returned (read_response status text)
     end).
Proof.
  unfold apiCall. cbn [run].
  now destruct (net sent (make_request env m p b q)).
Qed.

(** A handler that wraps the result of one call. *)
Lemma run_one_call (env : Env) (m p : string) (b : JValue)
  (q : option (list (string * string))) (net : Network) (sent : list Request) :
  run net sent (result <- apiCall env m p b q ;; Return (ok result))
  = ((sent ++ [make_request env m p b q])%list,
     match net sent (make_request env m p b q) with
     | NetworkError reason => Thrown (FetchFailed reason)
     | HttpResponse status text => Returned (ok (read_response status text))
     end).
Proof.
  unfold apiCall. cbn [bind run].
  now destruct (net sent (make_request env m p b q)).
Qed.

Lemma requests_one_call (env : Env) (m p : string) (b : JValue)
  (q : option (list (string * string))) (net : Network) :
  requests net (result <- apiCall env m p b q ;; Return (ok result))
  = [make_request env m p b q].
Proof. unfold requests. now rewrite run_one_call. Qed.

(** ** The two tools that look the application up first *)

(** What a two-step handler does after the lookup, given the value the
    lookup gave. *)
Lemma run_two_step (env : Env) (net : Network)
  (after : JValue -> Async Envelope) :
  run net [] (botInfo <- apiCall env "GET" "/api/bot/me" JUndefined None ;;
              after botInfo)
  = match net [] (lookup_request env) with
    | NetworkError reason => ([lookup_request env], Thrown (FetchFailed reason))
    | HttpResponse status text =>
        run net [lookup_request env] (after (read_response status text))
    end.
Proof.
  unfold apiCall, lookup_request. cbn [bind run app].
  now destruct (net [] (make_request env "GET" "/api/bot/me" JUndefined None)).
Qed.

Lemma run_set_webhook (env : Env) (a : set_webhook.args) (net : Network) :
  run net [] (set_webhook.handler env a)
  = match net [] (lookup_request env) with
    | NetworkError reason => ([lookup_request env], Thrown (FetchFailed reason))
    | HttpResponse status text =>
        match dot_id (read_response status text) with
        | None =>
            ([lookup_request env],
             Thrown (TypeError "Cannot read properties of null (reading 'id')"))
        | Some appId =>
            if truthy appId
            then run net [lookup_request env]
                   (result <- apiCall env "PUT"
                      ("/api/developer/apps/" ++ ToString appId ++ "/webhook")
                      (JObj [("url", JStr (set_webhook.url a));
                             ("events", opt_strings (set_webhook.events a))])
                      None ;;
                    Return (ok result))
            else ([lookup_request env], Returned (ok set_webhook.lookup_failed))
        end
    end.
Proof.
  unfold set_webhook.handler. rewrite run_two_step.
  destruct (net [] (lookup_request env)) as [reason|status text]; [reflexivity|].
  destruct (dot_id (read_response status text)) as [appId|]; [|reflexivity].
  now destruct (truthy appId).
Qed.

Lemma run_set_welcome_message (env : Env) (a : set_welcome_message.args)
  (net : Network) :
  run net [] (set_welcome_message.handler env a)
  = match net [] (lookup_request env) with
    | NetworkError reason => ([lookup_request env], Thrown (FetchFailed reason))
    | HttpResponse status text =>
        match dot_id (read_response status text) with
        | None =>
            ([lookup_request env],
             Thrown (TypeError "Cannot read properties of null (reading 'id')"))
        | Some appId =>
            if truthy appId
            then run net [lookup_request env]
                   (result <- apiCall env "PUT"
                      ("/api/developer/apps/" ++ ToString appId
                         ++ "/welcome-message")
                      (JObj [("content", JObj (set_welcome_message.content a))])
                      None ;;
                    Return (ok result))
            else ([lookup_request env],
                  Returned (ok set_welcome_message.lookup_failed))
        end
    end.
Proof.
  unfold set_welcome_message.handler. rewrite run_two_step.
  destruct (net [] (lookup_request env)) as [reason|status text]; [reflexivity|].
  destruct (dot_id (read_response status text)) as [appId|]; [|reflexivity].
  now destruct (truthy appId).
Qed.

(** Every request of every tool is one [make_request] built. *)
Lemma handle_requests_built (env : Env) (c : ToolCall) (net : Network)
  (req : Request) :
  In req (requests net (handle env c)) ->
  exists m p b q, req = make_request env m p b q.
Proof.
  assert (forall m p b q,
             In req [make_request env m p b q] ->
             exists m p b q, req = make_request env m p b q) as one.
  { intros m p b q [<-|[]]. eauto. }
  assert (forall m p b q,
             In req (fst (run net [lookup_request env]
                            (result <- apiCall env m p b q ;; Return (ok result)))) ->
             exists m p b q, req = make_request env m p b q) as two.
  { intros m p b q. rewrite run_one_call. cbn [fst app].
    intros [<-|[<-|[]]]; unfold lookup_request; eauto. }
  destruct c; cbn [handle];
    try (unfold get_bot_info.handler, send_message.handler,
           edit_message.handler, delete_message.handler,
           list_conversations.handler, get_conversation_messages.handler,
           get_user.handler, get_wallet_balance.handler,
           get_token_list.handler, get_token_prices.handler,
           get_transaction_history.handler, get_transaction_status.handler,
           get_latest_blockhash.handler, send_transaction.handler,
           simulate_transaction.handler;
         rewrite requests_one_call; apply one).
  - unfold requests. rewrite run_set_webhook.
    destruct (net [] (lookup_request env)) as [reason|status text];
      [apply one|].
    destruct (dot_id (read_response status text)) as [appId|]; [|apply one].
    destruct (truthy appId); [apply two | apply one].
  - unfold requests. rewrite run_set_welcome_message.
    destruct (net [] (lookup_request env)) as [reason|status text];
      [apply one|].
    destruct (dot_id (read_response status text)) as [appId|]; [|apply one].
    destruct (truthy appId); [apply two | apply one].
Qed.

(** ** Headers *)

Lemma make_headers_documented (env : Env) :
  documented_headers env (make_headers env).
Proof.
  unfold documented_headers, make_headers, BOT_TOKEN, str_or, nonempty, has_key.
  destruct (SOLAFON_BOT_TOKEN env) as [t|].
  - destruct (String.eqb_spec t "") as [->|Hne].
    + cbn. split; [reflexivity|]. split; [split|split].
      * discriminate.
      * intros (t & [= <-] & H). now contradiction H.
      * intros t [= <-] H. now contradiction H.
      * reflexivity.
    + destruct (String.eqb_spec t "") as [->|_]; [now contradiction Hne|].
      cbn. split; [reflexivity|]. split; [split|split].
      * intros _. eauto.
      * reflexivity.
      * now intros t' [= <-] _.
      * intros [H|[= H]]; [discriminate H | now contradiction Hne].
  - cbn. split; [reflexivity|]. split; [split|split].
    + discriminate.
    + intros (t & H & _). discriminate H.
    + intros t H. discriminate H.
    + reflexivity.
Qed.

(** ** Query parameters *)

Lemma params_set_values (ps : list (string * string)) (k v : string) :
  no_empty_value ps -> v <> "" -> no_empty_value (params_set ps k v).
Proof.
  unfold no_empty_value. intros Hps Hv.
  induction ps as [|[k' v'] r IH]; cbn [params_set].
  - intros k0 v0 [[= <- <-]|[]]. exact Hv.
  - destruct (k' =? k)%string.
    + intros k0 v0 [[= <- <-]|Hin]; [exact Hv|].
      apply filter_In in Hin as [Hin _]. apply (Hps k0). now right.
    + intros k0 v0 [[= <- <-]|Hin].
      * apply (Hps k'). now left.
      * apply (IH (fun k1 v1 H => Hps k1 v1 (or_intror H)) k0 v0 Hin).
Qed.

Lemma params_set_keys (ps : list (string * string)) (k v k0 : string) :
  In k0 (map fst (params_set ps k v)) <-> k0 = k \/ In k0 (map fst ps).
Proof.
  induction ps as [|[k' v'] r IH]; cbn [params_set map fst In].
  - intuition congruence.
  - destruct (String.eqb_spec k' k) as [->|Hne]; cbn [map fst In].
    + split.
      * intros [<-|Hin]; [now left|]. right. right.
        apply in_map_iff in Hin as ([k1 v1] & <- & Hin).
        apply filter_In in Hin as [Hin _].
        apply in_map_iff. now exists (k1, v1).
      * intros [->|[->|Hin]]; try (now left).
        destruct (String.eqb_spec k0 k) as [->|Hk]; [now left|]. right.
        apply in_map_iff in Hin as ([k1 v1] & <- & Hin).
        apply in_map_iff. exists (k1, v1). split; [reflexivity|].
        apply filter_In. split; [assumption|]. cbn.
        apply negb_true_iff. now apply String.eqb_neq.
    + rewrite IH. intuition congruence.
Qed.

(** The loop of lines 35-37, from any parameters already there. *)
Lemma query_loop_values (q : list (string * string)) (u : URL) :
  no_empty_value (searchParams u) ->
  no_empty_value (searchParams (add_query u (Some q))).
Proof.
  cbn [add_query]. revert u.
  induction q as [|[k v] q IH]; intros u Hu; cbn [fold_left]; [exact Hu|].
  apply IH. destruct (nonempty v) eqn:E; [|exact Hu].
  cbn [searchParams_set searchParams]. apply params_set_values; [exact Hu|].
  now apply nonempty_true.
Qed.

Lemma query_loop_keys (q : list (string * string)) (u : URL) (k0 : string) :
  In k0 (map fst (searchParams (add_query u (Some q))))
  <-> In k0 (map fst (searchParams u))
      \/ exists v, In (k0, v) q /\ v <> "".
Proof.
  cbn [add_query]. revert u.
  induction q as [|[k v] q IH]; intros u; cbn [fold_left].
  - split; [now left|]. intros [H|(v & [] & _)]. exact H.
  - rewrite IH. destruct (nonempty v) eqn:E.
    + cbn [searchParams_set searchParams]. rewrite params_set_keys.
      apply nonempty_true in E. split.
      * intros [[->|H]|(v0 & Hin & Hv)].
        -- right. exists v. split; [now left | exact E].
        -- now left.
        -- right. exists v0. split; [now right | exact Hv].
      * intros [H|(v0 & [[= <- <-]|Hin] & Hv)].
        -- left. now right.
        -- left. now left.
        -- right. now exists v0.
    + assert (v = "") as ->.
      { unfold nonempty in E. apply negb_false_iff in E.
        now apply String.eqb_eq. }
      split.
      * intros [H|(v0 & Hin & Hv)]; [now left|].
        right. exists v0. split; [now right | exact Hv].
      * intros [H|(v0 & [[= <- <-]|Hin] & Hv)].
        -- now left.
        -- now contradiction Hv.
        -- right. now exists v0.
Qed.

Lemma record_get_In {V : Type} (o : list (string * V)) (k : string) (v : V) :
  record_get o k = Some v -> In (k, v) o.
Proof.
  induction o as [|[k' v'] r IH]; cbn [record_get]; [discriminate|].
  destruct (String.eqb_spec k' k) as [->|_].
  - intros [= ->]. now left.
  - intros H. right. now apply IH.
Qed.

Lemma In_unique {V : Type} (o : list (string * V)) (k : string) (v w : V) :
  unique_keys (map fst o) = true -> In (k, v) o -> In (k, w) o -> v = w.
Proof.
  induction o as [|[k' v'] r IH]; cbn [map fst unique_keys]; [intros _ []|].
  intros H. apply andb_true_iff in H as [Hk Hu].
  apply negb_true_iff in Hk.
  assert (forall x, In (k', x) r -> False) as fresh.
  { intros x Hin.
    assert (existsb (String.eqb k') (map fst r) = true) as Hex.
    { apply existsb_exists. exists k'. split.
      - apply in_map_iff. now exists (k', x).
      - apply String.eqb_refl. }
    congruence. }
  intros [Hv|Hv] [Hw|Hw].
  - congruence.
  - injection Hv as -> _. now destruct (fresh w).
  - injection Hw as -> _. now destruct (fresh v).
  - now apply IH.
Qed.

(** ** Keys of the objects the handlers assemble *)

Lemma has_key_record_set {V : Type} (o : list (string * V)) (k k' : string)
  (v : V) :
  has_key (record_set o k v) k' = ((k =? k')%string || has_key o k').
Proof.
  unfold has_key. induction o as [|[k0 v0] r IH]; cbn [record_set record_get].
  - now destruct (k =? k')%string.
  - destruct (String.eqb_spec k0 k) as [->|Hne]; cbn [record_get].
    + now destruct (k =? k')%string.
    + destruct (String.eqb_spec k0 k') as [->|_].
      * now rewrite orb_true_r.
      * exact IH.
Qed.

Lemma has_key_assign_if (o : list (string * JValue)) (k k' : string)
  (v : JValue) :
  has_key (assign_if o k v) k'
  = ((truthy v && (k =? k')%string) || has_key o k').
Proof.
  unfold assign_if. destruct (truthy v); [|reflexivity].
  apply has_key_record_set.
Qed.

Lemma truthy_opt_str (a : option string) :
  truthy (opt_str a) = supplied_nonempty a.
Proof. now destruct a. Qed.

Lemma truthy_opt_buttons (a : option (list Button.t)) :
  truthy (opt_buttons a) = supplied a.
Proof. now destruct a. Qed.

Lemma truthy_opt_cards (a : option (list Card.t)) :
  truthy (opt_cards a) = supplied a.
Proof. now destruct a. Qed.

(** ** The two-step tools, case by case *)

(** The lookup gave a value with a falsy or absent [id]: the soft failure,
    and no second request. *)
Lemma set_webhook_soft_failure (env : Env) (a : set_webhook.args)
  (net : Network) (status : Z) (text : string) (appId : JValue) :
  net [] (lookup_request env) = HttpResponse status text ->
  dot_id (read_response status text) = Some appId ->
  truthy appId = false ->
  run net [] (set_webhook.handler env a)
  = ([lookup_request env], Returned (ok set_webhook.lookup_failed)).
Proof.
  intros Hnet Hid Hf. now rewrite run_set_webhook, Hnet, Hid, Hf.
Qed.

Lemma set_welcome_message_soft_failure (env : Env)
  (a : set_welcome_message.args) (net : Network) (status : Z) (text : string)
  (appId : JValue) :
  net [] (lookup_request env) = HttpResponse status text ->
  dot_id (read_response status text) = Some appId ->
  truthy appId = false ->
  run net [] (set_welcome_message.handler env a)
  = ([lookup_request env], Returned (ok set_welcome_message.lookup_failed)).
Proof.
  intros Hnet Hid Hf. now rewrite run_set_welcome_message, Hnet, Hid, Hf.
Qed.

(** The lookup gave a truthy [id]: the PUT addressed by it follows. *)
Lemma set_webhook_put (env : Env) (a : set_webhook.args)
  (net : Network) (status : Z) (text : string) (appId : JValue) :
  net [] (lookup_request env) = HttpResponse status text ->
  dot_id (read_response status text) = Some appId ->
  truthy appId = true ->
  requests net (set_webhook.handler env a)
  = [lookup_request env;
     make_request env "PUT"
       ("/api/developer/apps/" ++ ToString appId ++ "/webhook")
       (JObj [("url", JStr (set_webhook.url a));
              ("events", opt_strings (set_webhook.events a))]) None].
Proof.
  intros Hnet Hid Ht. unfold requests.
  now rewrite run_set_webhook, Hnet, Hid, Ht, run_one_call.
Qed.

Lemma set_welcome_message_put (env : Env) (a : set_welcome_message.args)
  (net : Network) (status : Z) (text : string) (appId : JValue) :
  net [] (lookup_request env) = HttpResponse status text ->
  dot_id (read_response status text) = Some appId ->
  truthy appId = true ->
  requests net (set_welcome_message.handler env a)
  = [lookup_request env;
     make_request env "PUT"
       ("/api/developer/apps/" ++ ToString appId ++ "/welcome-message")
       (JObj [("content", JObj (set_welcome_message.content a))]) None].
Proof.
  intros Hnet Hid Ht. unfold requests.
  now rewrite run_set_welcome_message, Hnet, Hid, Ht, run_one_call.
Qed.

(** Without a truthy [id], whatever else happens, the lookup is the only
    request. *)
Lemma set_webhook_no_put (env : Env) (a : set_webhook.args) (net : Network) :
  (forall status text appId,
      net [] (lookup_request env) = HttpResponse status text ->
      dot_id (read_response status text) = Some appId ->
      truthy appId = false) ->
  requests net (set_webhook.handler env a) = [lookup_request env].
Proof.
  intros H. unfold requests. rewrite run_set_webhook.
  destruct (net [] (lookup_request env)) as [reason|status text] eqn:E;
    [reflexivity|].
  destruct (dot_id (read_response status text)) as [appId|] eqn:Eid;
    [|reflexivity].
  now rewrite (H status text appId eq_refl Eid).
Qed.

Lemma set_welcome_message_no_put (env : Env) (a : set_welcome_message.args)
  (net : Network) :
  (forall status text appId,
      net [] (lookup_request env) = HttpResponse status text ->
      dot_id (read_response status text) = Some appId ->
      truthy appId = false) ->
  requests net (set_welcome_message.handler env a) = [lookup_request env].
Proof.
  intros H. unfold requests. rewrite run_set_welcome_message.
  destruct (net [] (lookup_request env)) as [reason|status text] eqn:E;
    [reflexivity|].
  destruct (dot_id (read_response status text)) as [appId|] eqn:Eid;
    [|reflexivity].
  now rewrite (H status text appId eq_refl Eid).
Qed.

(** ** The body of the webhook request *)

Lemma serializable_strings (l : list string) :
  forallb serializable (map JStr l) = true.
Proof. induction l; simpl; auto. Qed.

Lemma webhook_body_serializable (a : set_webhook.args) :
  serializable (webhook_body a) = true.
Proof.
  unfold webhook_body. destruct (set_webhook.events a) as [l|]; simpl.
  - now rewrite serializable_strings.
  - reflexivity.
Qed.

Lemma webhook_body_text (a : set_webhook.args) :
  JSON_stringify (JObj [("url", JStr (set_webhook.url a));
                        ("events", opt_strings (set_webhook.events a))]) 0
  = JSON_stringify (webhook_body a) 0.
Proof.
  unfold webhook_body. now destruct (set_webhook.events a).
Qed.

(** ** The query of a record with the keys written once *)

Lemma unique_keys_remove (a b : list string) (k : string) :
  unique_keys (a ++ k :: b) = true -> unique_keys (a ++ b) = true.
Proof.
  induction a as [|x a IH]; cbn [app unique_keys]; intros H;
    apply andb_true_iff in H as [Hx Hu].
  - exact Hu.
  - apply andb_true_iff. split; [|now apply IH].
    apply negb_true_iff in Hx. apply negb_true_iff.
    rewrite existsb_app in *. cbn [existsb] in Hx.
    apply orb_false_iff in Hx as [H1 H2].
    apply orb_false_iff in H2 as [_ H2]. now rewrite H1, H2.
Qed.

Lemma params_set_fresh (ps : list (string * string)) (k v : string)
  (l : list string) :
  unique_keys (map fst ps ++ k :: l) = true ->
  params_set ps k v = (ps ++ [(k, v)])%list.
Proof.
  induction ps as [|[k' v'] r IH]; cbn [params_set map fst app unique_keys];
    [reflexivity|].
  intros H. apply andb_true_iff in H as [Hk Hu].
  apply negb_true_iff in Hk. rewrite existsb_app in Hk. cbn [existsb] in Hk.
  apply orb_false_iff in Hk as [_ Hk].
  apply orb_false_iff in Hk as [Hk _].
  now rewrite Hk, IH.
Qed.

Lemma query_loop_unique (q : list (string * string)) (u : URL) :
  unique_keys (map fst (searchParams u) ++ map fst q) = true ->
  searchParams (add_query u (Some q))
  = (searchParams u ++ filter (fun kv => nonempty (snd kv)) q)%list.
Proof.
  cbn [add_query]. revert u.
  induction q as [|[k v] q IH]; intros u Hu; cbn [fold_left filter snd].
  - now rewrite List.app_nil_r.
  - cbn [map fst] in Hu. destruct (nonempty v).
    + rewrite IH; cbn [searchParams_set searchParams];
        rewrite (params_set_fresh _ k v (map fst q) Hu).
      * now rewrite <- List.app_assoc.
      * now rewrite map_app, <- List.app_assoc.
    + apply IH. now apply unique_keys_remove in Hu.
Qed.

(** With the keys written once, the URL has exactly the entries of the
    query with a non-empty value, in order. *)
Lemma make_request_query (env : Env) (m p : string) (b : JValue)
  (q : list (string * string)) :
  unique_keys (map fst q) = true ->
  searchParams (url (make_request env m p b (Some q)))
  = filter (fun kv => nonempty (snd kv)) q.
Proof.
  intros Hu. cbn [make_request url]. now rewrite query_loop_unique.
Qed.



(** ** Every envelope a tool returns reads back *)

Lemma ok_reads_back (v : JValue) :
  serializable v = true ->
  exists s,
    content (ok v) = [ {| Block.type := "text"; Block.text := Some s |} ]
    /\ JSON_parse s = Some v.
Proof.
  intros Hs. destruct (serializable_printed (spaces 2) "" v Hs) as [s E].
  exists s. unfold ok. cbn [content]. unfold JSON_stringify.
  change (Nat.min 2 10) with 2%nat. rewrite E. split; [reflexivity|].
  now apply (JSON_parse_stringify v 2 s).
Qed.

(** ** The scenarios of the specification *)

Example scenario_get_wallet_balance :
  requests (always 200 "{}")
    (get_wallet_balance.handler no_token
       {| get_wallet_balance.address := "7xKXt" |})
  = [ {| method := "GET";
         url := {| href := "https://api.solafon.com/api/wallet/balance";
                   searchParams := [("address", "7xKXt")] |};
         headers := [("Content-Type", "application/json")];
         body := None |} ].
Proof. reflexivity. Qed.

Example scenario_send_message :
  exists r text,
    requests (always 200 "{}")
      (send_message.handler no_token
         {| send_message.conversationId := "11111111-1111-1111-1111-111111111111";
            send_message.type := text_type;
            send_message.text := Some "hi";
            send_message.imageUrl := None;
            send_message.buttons := None;
            send_message.cards := None |})
    = [r]
    /\ method r = "POST"
    /\ href (url r) = "https://api.solafon.com/api/bot/messages"
    /\ body r = Some text
    /\ JSON_parse text
       = Some (JObj [("conversationId",
                      JStr "11111111-1111-1111-1111-111111111111");
                     ("content",
                      JObj [("type", JStr "text"); ("text", JStr "hi")])]).
Proof. do 2 eexists. repeat split; reflexivity. Qed.

Example scenario_not_json :
  outcome (always 502 "<html>Bad Gateway</html>")
    (get_bot_info.handler no_token)
  = Returned
      (ok (JObj [("status", JNum 502);
                 ("body", JStr "<html>Bad Gateway</html>")])).
Proof. reflexivity. Qed.

Example scenario_lookup_without_id :
  run (always 401 "{}")
    [] (set_webhook.handler no_token
          {| set_webhook.url := "https://example.com/hook";
             set_webhook.events := None |})
  = ([lookup_request no_token], Returned (ok set_webhook.lookup_failed)).
Proof. reflexivity. Qed.

Example scenario_lookup_with_id :
  map (fun r => (method r, href (url r)))
    (requests (always 200 (bot_info_text "app-1"))
       (set_welcome_message.handler no_token
          {| set_welcome_message.text := "Welcome";
             set_welcome_message.buttons := None |}))
  = [("GET", "https://api.solafon.com/api/bot/me");
     ("PUT", "https://api.solafon.com/api/developer/apps/app-1/welcome-message")].
Proof. reflexivity. Qed.

Example scenario_prices :
  outcome (always 200 price_text)
    (get_token_prices.handler no_token {| get_token_prices.mints := None |})
  = Returned (ok (JObj [("usd", JReal false 5009199054287012 (-45))]))
  /\ exists s,
       content (ok (JObj [("usd", JReal false 5009199054287012 (-45))]))
       = [ {| Block.type := "text"; Block.text := Some s |} ]
       /\ JSON_parse s = Some (JObj [("usd", JReal false 5009199054287012 (-45))]).
Proof.
  split; [vm_compute; reflexivity|].
  apply ok_reads_back. vm_compute. reflexivity.
Qed.


(* ================================================================== *)
(** * The properties of the specification *)
(* ================================================================== *)

(** C1.  The content object of send_message and of edit_message always has
    the key [type], holding the message type; it has [text] (and, for
    send_message, [imageUrl]) exactly when the argument was supplied and is
    not the empty string, and [buttons] (for send_message, [cards]) exactly
    when the argument was supplied, an array being truthy even when empty.
    edit_message has no argument [imageUrl] or [cards], and its content
    never has these keys.  The content object is the one the request
    carries. *)
Theorem C1_message_content (a : send_message.args) (e : edit_message.args) :
  (record_get (send_message.content a) "type"
   = Some (JStr (MessageType_string (send_message.type a)))
   /\ has_key (send_message.content a) "text"
      = supplied_nonempty (send_message.text a)
   /\ has_key (send_message.content a) "imageUrl"
      = supplied_nonempty (send_message.imageUrl a)
   /\ has_key (send_message.content a) "buttons"
      = supplied (send_message.buttons a)
   /\ has_key (send_message.content a) "cards"
      = supplied (send_message.cards a))
  /\ (record_get (edit_message.content e) "type"
      = Some (JStr (MessageType_string (edit_message.type e)))
      /\ has_key (edit_message.content e) "text"
         = supplied_nonempty (edit_message.text e)
      /\ has_key (edit_message.content e) "buttons"
         = supplied (edit_message.buttons e)
      /\ has_key (edit_message.content e) "imageUrl" = false
      /\ has_key (edit_message.content e) "cards" = false)
  /\ (forall env net,
        requests net (send_message.handler env a)
        = [make_request env "POST" "/api/bot/messages"
             (JObj [("conversationId", JStr (send_message.conversationId a));
                    ("content", JObj (send_message.content a))]) None]
        /\ requests net (edit_message.handler env e)
           = [make_request env "PATCH"
                ("/api/bot/messages/" ++ edit_message.messageId e)
                (JObj [("content", JObj (edit_message.content e))]) None]).
Proof.
  split; [|split].
  - unfold send_message.content.
    rewrite !has_key_assign_if, !truthy_opt_str, !truthy_opt_buttons,
      !truthy_opt_cards.
    split.
    + unfold assign_if.
      destruct (truthy (opt_str (send_message.text a)));
        destruct (truthy (opt_str (send_message.imageUrl a)));
        destruct (truthy (opt_buttons (send_message.buttons a)));
        destruct (truthy (opt_cards (send_message.cards a))); reflexivity.
    + cbn.
      destruct (supplied_nonempty (send_message.text a));
        destruct (supplied_nonempty (send_message.imageUrl a));
        destruct (supplied (send_message.buttons a));
        destruct (supplied (send_message.cards a)); repeat split.
  - unfold edit_message.content.
    rewrite !has_key_assign_if, !truthy_opt_str, !truthy_opt_buttons.
    split.
    + unfold assign_if.
      destruct (truthy (opt_str (edit_message.text e)));
        destruct (truthy (opt_buttons (edit_message.buttons e))); reflexivity.
    + cbn.
      destruct (supplied_nonempty (edit_message.text e));
        destruct (supplied (edit_message.buttons e)); repeat split.
  - intros env net. unfold send_message.handler, edit_message.handler.
    now rewrite !requests_one_call.
Qed.




(** C3, at the input where the code leaves the claim.  When the lookup
    answers with the JSON text [null], whatever the status, reading [id]
    throws: both tools end with a TypeError instead of the envelope with
    the [error] field.  The lookup is still the only request. *)
Theorem C3_null_lookup_throws (env : Env) (a : set_webhook.args)
  (b : set_welcome_message.args) (status : Z) :
  run (always status "null") [] (set_webhook.handler env a)
  = ([lookup_request env],
     Thrown (TypeError "Cannot read properties of null (reading 'id')"))
  /\ run (always status "null") [] (set_welcome_message.handler env b)
     = ([lookup_request env],
        Thrown (TypeError "Cannot read properties of null (reading 'id')")).
Proof.
  split.
  - now rewrite run_set_webhook.
  - now rewrite run_set_welcome_message.
Qed.




(** C5.  Whatever the status code, a response whose body is a JSON text
    makes the gateway call return the value the text denotes; a response
    whose body is not a JSON text makes the call return the object with
    [status], the status code, and [body], the raw text. *)
Theorem C5_gateway_response (env : Env) (m p : string) (b : JValue)
  (q : option (list (string * string))) (net : Network)
  (status : Z) (text : string) :
  net [] (make_request env m p b q) = HttpResponse status text ->
  (forall v, json_text text v ->
     outcome net (apiCall env m p b q) = Returned v)
  /\ ((forall v, ~ json_text text v) ->
      outcome net (apiCall env m p b q)
      = Returned (JObj [("status", JNum status); ("body", JStr text)])).
Proof.
  intros Hnet. unfold outcome. rewrite run_apiCall, Hnet. cbn [snd].
  unfold read_response. split.
  - intros v Hv. apply JSON_parse_spec in Hv. now rewrite Hv.
  - intros Hno. destruct (JSON_parse text) as [v|] eqn:E; [|reflexivity].
    apply JSON_parse_spec in E. now contradiction (Hno v).
Qed.

Lemma C5_gateway_response_witness :
  outcome (always 404 "Not Found")
    (apiCall no_token "GET" "/api/bot/users/none" JUndefined None)
  = Returned (JObj [("status", JNum 404); ("body", JStr "Not Found")])
  /\ outcome (always 500 "[500, null]")
       (apiCall no_token "GET" "/api/bot/users/none" JUndefined None)
     = Returned (JArr [JNum 500; JNull])
  /\ outcome (always 200 price_text)
       (apiCall no_token "GET" "/api/wallet/prices" JUndefined None)
     = Returned (JObj [("usd", JReal false 5009199054287012 (-45))]).
Proof.
  split; [|split].
  - apply (proj2 (C5_gateway_response no_token "GET" "/api/bot/users/none"
                    JUndefined None (always 404 "Not Found") 404 "Not Found"
                    eq_refl)).
    intros v H. apply JSON_parse_spec in H. discriminate H.
  - apply (proj1 (C5_gateway_response no_token "GET" "/api/bot/users/none"
                    JUndefined None (always 500 "[500, null]") 500
                    "[500, null]" eq_refl)).
    apply JSON_parse_spec. reflexivity.
  - apply (proj1 (C5_gateway_response no_token "GET" "/api/wallet/prices"
                    JUndefined None (always 200 price_text) 200 price_text
                    eq_refl)).
    apply JSON_parse_spec. reflexivity.
Defined.



(** C7.  Every request the gateway builds carries [Content-Type:
    application/json]; it carries [X-Bot-Token] exactly when a non-empty
    token is configured, with that token as value, and without one the
    content type is the only header.  The same holds of every request of
    every tool. *)
Theorem C7_request_headers (env : Env) :
  (forall m p b q, documented_headers env (headers (make_request env m p b q)))
  /\ (forall c net req,
        In req (requests net (handle env c)) ->
        documented_headers env (headers req)).
Proof.
  split.
  - intros m p b q. apply make_headers_documented.
  - intros c net req Hin.
    destruct (handle_requests_built env c net req Hin) as (m & p & b & q & ->).
    apply make_headers_documented.
Qed.

Lemma C7_request_headers_witness :
  documented_headers (with_token "secret")
    (headers (lookup_request (with_token "secret")))
  /\ headers (lookup_request (with_token "secret"))
     = [("Content-Type", "application/json"); ("X-Bot-Token", "secret")]
  /\ headers (lookup_request no_token) = [("Content-Type", "application/json")].
Proof.
  split; [|split; reflexivity].
  apply (proj2 (C7_request_headers (with_token "secret"))
           call_get_bot_info (always 200 "{}")).
  left. reflexivity.
Defined.

(** C8.  In the URL of a gateway call, no query parameter has an empty
    value: the keys of the URL are the keys the query maps to a non-empty
    string, so a key mapped to the empty string is left out.  The same
    holds of every request of every tool. *)
Theorem C8_empty_values_omitted (env : Env) :
  (forall m p b q,
      let ps := searchParams (url (make_request env m p b (Some q))) in
      no_empty_value ps
      /\ (forall k, In k (map fst ps) <-> exists v, In (k, v) q /\ v <> "")
      /\ (forall k, unique_keys (map fst q) = true -> In (k, "") q ->
                    ~ In k (map fst ps)))
  /\ (forall c net req,
        In req (requests net (handle env c)) ->
        no_empty_value (searchParams (url req))).
Proof.
  split.
  - intros m p b q ps. subst ps. cbn [make_request url].
    assert (forall k,
               In k (map fst (searchParams
                                (add_query (URL_new (API_URL env ++ p)) (Some q))))
               <-> exists v, In (k, v) q /\ v <> "") as keys.
    { intros k. rewrite query_loop_keys. cbn [URL_new searchParams map In].
      tauto. }
    split; [|split].
    + apply query_loop_values. intros k v [].
    + exact keys.
    + intros k Hu Hin Hk. apply keys in Hk as (v & Hv & Hne).
      apply Hne. symmetry. exact (In_unique q k "" v Hu Hin Hv).
  - intros c net req Hin.
    destruct (handle_requests_built env c net req Hin) as (m & p & b & q & ->).
    cbn [make_request url]. destruct q as [q|].
    + apply query_loop_values. intros k v [].
    + intros k v [].
Qed.

Lemma C8_empty_values_omitted_witness :
  ~ In "before"
      (map fst (searchParams
                  (url (make_request no_token "GET" "/api/wallet/transactions"
                          JUndefined
                          (Some [("address", "7xKXt"); ("before", "")])))))
  /\ no_empty_value
       (searchParams
          (url (make_request no_token "GET" "/api/wallet/tokens"
                  JUndefined None))).
Proof.
  split.
  - apply (proj1 (C8_empty_values_omitted no_token) "GET"
             "/api/wallet/transactions" JUndefined
             [("address", "7xKXt"); ("before", "")]).
    + reflexivity.
    + right. left. reflexivity.
  - apply (proj2 (C8_empty_values_omitted no_token)
             call_get_token_list (always 200 "[]")).
    left. reflexivity.
Defined.

(** C9.  The request of get_token_prices always has the query parameter
    [mints], and no other: its value is [all] when the argument is absent
    or the empty string, and the argument itself otherwise. *)
Theorem C9_mints_always_sent (env : Env) (a : get_token_prices.args)
  (net : Network) :
  exists r,
    requests net (get_token_prices.handler env a) = [r]
    /\ has_key (searchParams (url r)) "mints" = true
    /\ (get_token_prices.mints a = None \/ get_token_prices.mints a = Some "" ->
        searchParams (url r) = [("mints", "all")])
    /\ (forall s, get_token_prices.mints a = Some s -> s <> "" ->
                  searchParams (url r) = [("mints", s)]).
Proof.
  unfold get_token_prices.handler. rewrite requests_one_call.
  eexists. split; [reflexivity|].
  cbn [make_request url add_query fold_left].
  destruct (get_token_prices.mints a) as [s|]; cbn [str_or].
  - destruct (String.eqb_spec s "") as [->|Hne].
    + cbn. split; [reflexivity|]. split; [reflexivity|].
      intros s [= <-] H. now contradiction H.
    + assert (nonempty s = true) as -> by now apply nonempty_true.
      cbn. split; [reflexivity|]. split.
      * intros [H|[= H]]; [discriminate H | now contradiction Hne].
      * now intros s' [= <-] _.
  - cbn. split; [reflexivity|]. split; [reflexivity|]. intros s H. discriminate H.
Qed.

Lemma C9_mints_always_sent_witness :
  (exists r,
      requests (always 200 "[]")
        (get_token_prices.handler no_token {| get_token_prices.mints := Some "" |})
      = [r]
      /\ searchParams (url r) = [("mints", "all")])
  /\ (exists r,
         requests (always 200 "[]")
           (get_token_prices.handler no_token
              {| get_token_prices.mints := Some "So11,EPjF" |})
         = [r]
         /\ searchParams (url r) = [("mints", "So11,EPjF")]).
Proof.
  split.
  - destruct (C9_mints_always_sent no_token {| get_token_prices.mints := Some "" |}
                (always 200 "[]")) as (r & Hr & _ & Hall & _).
    exists r. split; [exact Hr|]. apply Hall. right. reflexivity.
  - destruct (C9_mints_always_sent no_token
                {| get_token_prices.mints := Some "So11,EPjF" |}
                (always 200 "[]")) as (r & Hr & _ & _ & Hs).
    exists r. split; [exact Hr|]. apply (Hs "So11,EPjF"); [reflexivity|].
    discriminate.
Defined.

(** C10.  The body of the PUT request of set_webhook is the text of an
    object that has the key [events] exactly when the argument was
    supplied: [JSON.parse] reads it back as the object with [url] alone
    when [events] was left out, and with [url] and [events] otherwise. *)
Theorem C10_webhook_body_events (env : Env) (a : set_webhook.args)
  (net : Network) (req : Request) :
  In req (requests net (set_webhook.handler env a)) ->
  method req = "PUT" ->
  exists text members,
    body req = Some text
    /\ JSON_parse text = Some (JObj members)
    /\ has_key members "events" = supplied (set_webhook.events a)
    /\ JObj members = webhook_body a
    /\ (set_webhook.events a = None ->
        members = [("url", JStr (set_webhook.url a))]
        /\ text = String "{" (QuoteJSONString "url" ++ ":"
                                ++ QuoteJSONString (set_webhook.url a) ++ "}")).
Proof.
  intros Hin Hput.
  assert (exists appId,
             req = make_request env "PUT"
                     ("/api/developer/apps/" ++ ToString appId ++ "/webhook")
                     (JObj [("url", JStr (set_webhook.url a));
                            ("events", opt_strings (set_webhook.events a))])
                     None) as [appId ->].
  { unfold requests in Hin. rewrite run_set_webhook in Hin.
    assert (In req [lookup_request env] -> False) as not_lookup.
    { intros [<-|[]]. discriminate Hput. }
    destruct (net [] (lookup_request env)) as [reason|status text];
      [now apply not_lookup in Hin|].
    destruct (dot_id (read_response status text)) as [appId|];
      [|now apply not_lookup in Hin].
    destruct (truthy appId); [|now apply not_lookup in Hin].
    rewrite run_one_call in Hin. cbn [fst app] in Hin.
    destruct Hin as [<-|[<-|[]]]; [discriminate Hput|]. now exists appId. }
  cbn [make_request body truthy]. rewrite webhook_body_text.
  destruct (serializable_printed "" "" (webhook_body a)
              (webhook_body_serializable a)) as [text E].
  assert (JSON_stringify (webhook_body a) 0 = Some text) as Et by exact E.
  pose proof (JSON_parse_stringify _ 0 text (webhook_body_serializable a) Et)
    as Hparse.
  unfold webhook_body in *.
  destruct (set_webhook.events a) as [l|].
  - exists text, [("url", JStr (set_webhook.url a)); ("events", JArr (map JStr l))].
    split; [exact Et|]. split; [exact Hparse|].
    split; [reflexivity|]. split; [reflexivity|]. discriminate.
  - exists text, [("url", JStr (set_webhook.url a))].
    split; [exact Et|]. split; [exact Hparse|].
    split; [reflexivity|]. split; [reflexivity|]. intros _.
    split; [reflexivity|].
    cbn in Et. injection Et as <-. reflexivity.
Qed.

Lemma C10_webhook_body_events_witness :
  exists text members,
    body (make_request no_token "PUT" "/api/developer/apps/app-1/webhook"
            (JObj [("url", JStr "https://example.com/hook");
                   ("events", JUndefined)]) None)
    = Some text
    /\ JSON_parse text = Some (JObj members)
    /\ has_key members "events" = false.
Proof.
  destruct (C10_webhook_body_events no_token
              {| set_webhook.url := "https://example.com/hook";
                 set_webhook.events := None |}
              (always 200 (bot_info_text "app-1"))
              (make_request no_token "PUT" "/api/developer/apps/app-1/webhook"
                 (JObj [("url", JStr "https://example.com/hook");
                        ("events", JUndefined)]) None))
    as (text & members & Hbody & Hparse & Hkey & _).
  - vm_compute. right. left. reflexivity.
  - reflexivity.
  - exists text, members. auto.
Defined.

(* ================================================================== *)
(** * Further properties of the code *)
(* ================================================================== *)

(** ** Shared facts *)

(** A tool that is not two-step is one call of [apiCall], wrapped. *)
Lemma one_step_handle (env : Env) (c : ToolCall) :
  two_step c = false ->
  exists m p b q,
    handle env c = (result <- apiCall env m p b q ;; Return (ok result)).
Proof.
  destruct c; cbn [two_step]; intros H; try discriminate H;
    do 4 eexists; reflexivity.
Qed.

Lemma truthy_printed (b : JValue) :
  truthy b = true -> exists text, JSON_stringify b 0 = Some text.
Proof.
  destruct b as [| |[]| | | | | |]; cbn; intros H; try discriminate H; eauto.
Qed.

(** A truthy JSON value travels as a text that reads back as the value. *)
Lemma body_reads_back (env : Env) (m p : string) (b : JValue)
  (q : option (list (string * string))) :
  truthy b = true -> serializable b = true ->
  exists text,
    body (make_request env m p b q) = Some text /\ JSON_parse text = Some b.
Proof.
  intros Ht Hs. destruct (truthy_printed b Ht) as [text E].
  exists text. cbn [make_request body]. rewrite Ht. split; [exact E|].
  now apply (JSON_parse_stringify b 0).
Qed.

Lemma button_serializable (b : Button.t) : serializable (Button.value b) = true.
Proof.
  unfold Button.value, opt_key.
  destruct (Button.payload b), (Button.url b); reflexivity.
Qed.

Lemma buttons_serializable (l : list Button.t) :
  forallb serializable (map Button.value l) = true.
Proof.
  induction l as [|b l IH]; cbn [map forallb]; [reflexivity|].
  now rewrite button_serializable, IH.
Qed.

Lemma card_serializable (c : Card.t) : serializable (Card.value c) = true.
Proof.
  unfold Card.value, opt_key.
  destruct (Card.subtitle c), (Card.imageUrl c), (Card.buttons c) as [l|];
    cbn; rewrite ?buttons_serializable; reflexivity.
Qed.

Lemma cards_serializable (l : list Card.t) :
  forallb serializable (map Card.value l) = true.
Proof.
  induction l as [|c l IH]; cbn [map forallb]; [reflexivity|].
  now rewrite card_serializable, IH.
Qed.

Lemma present_serializable (k : string) (v : JValue) :
  (truthy v = true -> serializable v = true) ->
  forallb serializable_member (present k v) = true.
Proof.
  unfold present. destruct (truthy v); intros H; cbn; [|reflexivity].
  now rewrite H.
Qed.

Lemma opt_str_serializable (a : option string) :
  truthy (opt_str a) = true -> serializable (opt_str a) = true.
Proof. now destruct a. Qed.

Lemma opt_buttons_serializable (a : option (list Button.t)) :
  truthy (opt_buttons a) = true -> serializable (opt_buttons a) = true.
Proof.
  destruct a as [l|]; [|discriminate]. intros _. apply buttons_serializable.
Qed.

Lemma opt_cards_serializable (a : option (list Card.t)) :
  truthy (opt_cards a) = true -> serializable (opt_cards a) = true.
Proof.
  destruct a as [l|]; [|discriminate]. intros _. apply cards_serializable.
Qed.

(** The content objects, member by member. *)
Lemma send_message_content_members (a : send_message.args) :
  send_message.content a
  = (("type", JStr (MessageType_string (send_message.type a)))
       :: present "text" (opt_str (send_message.text a))
       ++ present "imageUrl" (opt_str (send_message.imageUrl a))
       ++ present "buttons" (opt_buttons (send_message.buttons a))
       ++ present "cards" (opt_cards (send_message.cards a)))%list.
Proof.
  unfold send_message.content, assign_if, present.
  destruct (truthy (opt_str (send_message.text a)));
    destruct (truthy (opt_str (send_message.imageUrl a)));
    destruct (truthy (opt_buttons (send_message.buttons a)));
    destruct (truthy (opt_cards (send_message.cards a))); reflexivity.
Qed.

Lemma edit_message_content_members (a : edit_message.args) :
  edit_message.content a
  = (("type", JStr (MessageType_string (edit_message.type a)))
       :: present "text" (opt_str (edit_message.text a))
       ++ present "buttons" (opt_buttons (edit_message.buttons a)))%list.
Proof.
  unfold edit_message.content, assign_if, present.
  destruct (truthy (opt_str (edit_message.text a)));
    destruct (truthy (opt_buttons (edit_message.buttons a))); reflexivity.
Qed.

Lemma set_welcome_message_content_members (a : set_welcome_message.args) :
  set_welcome_message.content a
  = (("type", JStr "text") :: ("text", JStr (set_welcome_message.text a))
       :: present "buttons" (opt_buttons (set_welcome_message.buttons a)))%list.
Proof.
  unfold set_welcome_message.content, assign_if, present.
  now destruct (truthy (opt_buttons (set_welcome_message.buttons a))).
Qed.

Lemma send_message_content_serializable (a : send_message.args) :
  serializable (JObj (send_message.content a)) = true.
Proof.
  rewrite send_message_content_members. unfold present.
  pose proof (opt_str_serializable (send_message.text a)) as H1.
  pose proof (opt_str_serializable (send_message.imageUrl a)) as H2.
  pose proof (opt_buttons_serializable (send_message.buttons a)) as H3.
  pose proof (opt_cards_serializable (send_message.cards a)) as H4.
  destruct (truthy (opt_str (send_message.text a)));
    destruct (truthy (opt_str (send_message.imageUrl a)));
    destruct (truthy (opt_buttons (send_message.buttons a)));
    destruct (truthy (opt_cards (send_message.cards a)));
    cbn; rewrite ?H1, ?H2, ?H3, ?H4 by reflexivity; reflexivity.
Qed.

Lemma edit_message_content_serializable (a : edit_message.args) :
  serializable (JObj (edit_message.content a)) = true.
Proof.
  rewrite edit_message_content_members. unfold present.
  pose proof (opt_str_serializable (edit_message.text a)) as H1.
  pose proof (opt_buttons_serializable (edit_message.buttons a)) as H3.
  destruct (truthy (opt_str (edit_message.text a)));
    destruct (truthy (opt_buttons (edit_message.buttons a)));
    cbn; rewrite ?H1, ?H3 by reflexivity; reflexivity.
Qed.

Lemma set_welcome_message_content_serializable (a : set_welcome_message.args) :
  serializable (JObj (set_welcome_message.content a)) = true.
Proof.
  rewrite set_welcome_message_content_members. unfold present.
  pose proof (opt_buttons_serializable (set_welcome_message.buttons a)) as H3.
  destruct (truthy (opt_buttons (set_welcome_message.buttons a)));
    cbn; rewrite ?H3 by reflexivity; reflexivity.
Qed.

(** ** apiCall *)

(** X1.  The query parameters of a request are the entries of the query
    record whose value is not empty, in the order of the record and with
    their values; without a query there is none. *)
Theorem X1_query_in_record_order (env : Env) (m p : string) (b : JValue) :
  (forall q, unique_keys (map fst q) = true ->
     searchParams (url (make_request env m p b (Some q)))
     = filter (fun kv => nonempty (snd kv)) q)
  /\ searchParams (url (make_request env m p b None)) = [].
Proof.
  split; [|reflexivity]. intros q Hu. now apply make_request_query.
Qed.

Lemma X1_query_in_record_order_witness :
  searchParams
    (url (make_request no_token "GET" "/api/wallet/transactions" JUndefined
            (Some [("address", "7xKXt"); ("limit", "20"); ("before", "")])))
  = [("address", "7xKXt"); ("limit", "20")].
Proof.
  apply (proj1 (X1_query_in_record_order no_token "GET"
                  "/api/wallet/transactions" JUndefined)
           [("address", "7xKXt"); ("limit", "20"); ("before", "")]).
  reflexivity.
Defined.

(** X3.  A body that is falsy ([undefined], [null], [false], [0] or the
    empty string) is not sent.  A truthy body is sent as its JSON text, and
    when it is a JSON value the text reads back as the body. *)
Theorem X3_body_sent_when_truthy (env : Env) (m p : string) (b : JValue)
  (q : option (list (string * string))) :
  (truthy b = false -> body (make_request env m p b q) = None)
  /\ (truthy b = true ->
      exists text,
        body (make_request env m p b q) = Some text
        /\ JSON_stringify b 0 = Some text
        /\ (serializable b = true -> JSON_parse text = Some b)).
Proof.
  cbn [make_request body]. split.
  - now intros ->.
  - intros Ht. rewrite Ht. destruct (truthy_printed b Ht) as [text E].
    exists text. split; [exact E|]. split; [exact E|].
    intros Hs. now apply (JSON_parse_stringify b 0).
Qed.

Lemma X3_body_sent_when_truthy_witness :
  body (make_request no_token "POST" "/api/wallet/send" (JNum 0) None) = None
  /\ exists text,
       body (make_request no_token "POST" "/api/wallet/send"
               (JObj [("signedTransaction", JStr "AQID")]) None)
       = Some text
       /\ JSON_parse text = Some (JObj [("signedTransaction", JStr "AQID")]).
Proof.
  split.
  - apply (proj1 (X3_body_sent_when_truthy no_token "POST" "/api/wallet/send"
                    (JNum 0) None)).
    reflexivity.
  - destruct (proj2 (X3_body_sent_when_truthy no_token "POST" "/api/wallet/send"
                       (JObj [("signedTransaction", JStr "AQID")]) None)
                eq_refl) as (text & Hb & _ & Hp).
    exists text. split; [exact Hb|]. now apply Hp.
Defined.

(** ** What every tool does *)

(** X4.  A network failure ends the tool.  Whichever request of a tool
    the network fails, that request is the last one the tool sends, so it
    is not sent again and nothing follows it, and the tool throws that very
    error; and a tool throws a network error only when the network failed
    the last request it sent. *)
Theorem X4_network_failure_propagates (env : Env) (c : ToolCall)
  (net : Network) :
  (forall sent r rest reason,
      requests net (handle env c) = (sent ++ r :: rest)%list ->
      net sent r = NetworkError reason ->
      rest = []
      /\ outcome net (handle env c) = Thrown (FetchFailed reason))
  /\ (forall reason,
        outcome net (handle env c) = Thrown (FetchFailed reason) ->
        exists sent r,
          requests net (handle env c) = (sent ++ [r])%list
          /\ net sent r = NetworkError reason).
Proof.
  assert (forall (x : Request) sent r rest,
             [x] = (sent ++ r :: rest)%list ->
             sent = [] /\ r = x /\ rest = []) as one.
  { intros x [|y sent] r rest H; [now injection H as <- <-|].
    injection H as _ H. now destruct sent. }
  assert (forall (x y : Request) sent r rest,
             [x; y] = (sent ++ r :: rest)%list ->
             (sent = [] /\ r = x /\ rest = [y])
             \/ (sent = [x] /\ r = y /\ rest = [])) as two.
  { intros x y [|z sent] r rest H; [left; now injection H as <- <-|].
    injection H as <- H. right. apply one in H as (-> & -> & ->). auto. }
  assert (forall st m p b q,
             run net st (result <- apiCall env m p b q ;; Return (ok result))
             = ((st ++ [make_request env m p b q])%list,
                match net st (make_request env m p b q) with
                | NetworkError reason => Thrown (FetchFailed reason)
                | HttpResponse status text =>
                    Returned (ok (read_response status text))
                end)) as call.
  { intros st m p b q. rewrite run_one_call.
    now destruct (net st (make_request env m p b q)). }
  assert (forall put status text,
             net [] (lookup_request env) = HttpResponse status text ->
             (forall sent r rest reason,
                 [lookup_request env; put] = (sent ++ r :: rest)%list ->
                 net sent r = NetworkError reason ->
                 rest = []
                 /\ match net [lookup_request env] put with
                    | NetworkError why => Thrown (FetchFailed why)
                    | HttpResponse s t => Returned (ok (read_response s t))
                    end = Thrown (FetchFailed reason))
             /\ (forall reason,
                   match net [lookup_request env] put with
                   | NetworkError why => Thrown (FetchFailed why)
                   | HttpResponse s t => Returned (ok (read_response s t))
                   end = Thrown (FetchFailed reason) ->
                   exists sent r,
                     [lookup_request env; put] = (sent ++ [r])%list
                     /\ net sent r = NetworkError reason)) as second.
  { intros put status text E. split.
    - intros sent r rest reason H Hn.
      apply two in H as [(-> & -> & ->)|(-> & -> & ->)]; [congruence|].
      now rewrite Hn.
    - intros reason H. exists [lookup_request env], put. split; [reflexivity|].
      destruct (net [lookup_request env] put); congruence. }
  assert (forall o : Outcome Envelope,
             (forall reason, net [] (lookup_request env) <> NetworkError reason) ->
             (forall reason, o <> Thrown (FetchFailed reason)) ->
             (forall sent r rest reason,
                 [lookup_request env] = (sent ++ r :: rest)%list ->
                 net sent r = NetworkError reason ->
                 rest = [] /\ o = Thrown (FetchFailed reason))
             /\ (forall reason,
                   o = Thrown (FetchFailed reason) ->
                   exists sent r,
                     [lookup_request env] = (sent ++ [r])%list
                     /\ net sent r = NetworkError reason)) as first.
  { intros o Hok Ho. split.
    - intros sent r rest reason Hs Hn.
      apply one in Hs as (-> & -> & ->). now contradiction (Hok reason).
    - intros reason H. now contradiction (Ho reason). }
  unfold outcome, requests.
  destruct (two_step c) eqn:Etwo.
  - destruct c; try discriminate Etwo; cbn [handle].
    + rewrite run_set_webhook.
      destruct (net [] (lookup_request env)) as [why|status text] eqn:E.
      { cbn [fst snd]. split.
        - intros sent r rest reason Hs Hn.
          apply one in Hs as (-> & -> & ->). split; congruence.
        - intros reason [= ->]. now exists [], (lookup_request env). }
      destruct (dot_id (read_response status text)) as [appId|].
      2:{ cbn [fst snd]. apply first; intros reason; discriminate. }
      destruct (truthy appId).
      2:{ cbn [fst snd]. apply first; intros reason; discriminate. }
      rewrite call. cbn [fst snd app]. now apply (second _ status text).
    + rewrite run_set_welcome_message.
      destruct (net [] (lookup_request env)) as [why|status text] eqn:E.
      { cbn [fst snd]. split.
        - intros sent r rest reason Hs Hn.
          apply one in Hs as (-> & -> & ->). split; congruence.
        - intros reason [= ->]. now exists [], (lookup_request env). }
      destruct (dot_id (read_response status text)) as [appId|].
      2:{ cbn [fst snd]. apply first; intros reason; discriminate. }
      destruct (truthy appId).
      2:{ cbn [fst snd]. apply first; intros reason; discriminate. }
      rewrite call. cbn [fst snd app]. now apply (second _ status text).
  - destruct (one_step_handle env c Etwo) as (m & p & b & q & ->).
    rewrite call. cbn [fst snd app]. split.
    + intros sent r rest reason Hs Hn.
      apply one in Hs as (-> & -> & ->). now rewrite Hn.
    + intros reason H. exists [], (make_request env m p b q).
      split; [reflexivity|].
      destruct (net [] (make_request env m p b q)); congruence.
Qed.

Lemma X4_network_failure_propagates_witness :
  outcome (fun _ _ => NetworkError "ECONNREFUSED")
    (handle no_token call_get_token_list)
  = Thrown (FetchFailed "ECONNREFUSED").
Proof.
  apply (proj1 (X4_network_failure_propagates no_token call_get_token_list
                  (fun _ _ => NetworkError "ECONNREFUSED"))
           [] (make_request no_token "GET" "/api/wallet/tokens" JUndefined None)
           [] "ECONNREFUSED"); reflexivity.
Defined.



(** ** Request bodies *)

Lemma message_body_serializable (a : send_message.args) :
  serializable
    (JObj [("conversationId", JStr (send_message.conversationId a));
           ("content", JObj (send_message.content a))]) = true.
Proof.
  pose proof (send_message_content_serializable a) as H.
  cbn [serializable map fst unique_keys forallb existsb] in *.
  cbn. now rewrite H.
Qed.

Lemma content_body_serializable (o : list (string * JValue)) :
  serializable (JObj o) = true ->
  serializable (JObj [("content", JObj o)]) = true.
Proof.
  intros H. cbn [serializable map fst unique_keys forallb existsb] in *.
  cbn. now rewrite H.
Qed.

(** X7.  A request with the verb GET or DELETE never carries a body; every
    other request of a tool carries the JSON text of an object. *)
Theorem X7_bodies_by_verb (env : Env) (c : ToolCall) (net : Network)
  (req : Request) :
  In req (requests net (handle env c)) ->
  if bodiless (method req) then body req = None
  else exists text o, body req = Some text /\ JSON_parse text = Some (JObj o).
Proof.
  assert (forall m p q,
             bodiless m = true ->
             if bodiless (method (make_request env m p JUndefined q))
             then body (make_request env m p JUndefined q) = None
             else exists text o,
                 body (make_request env m p JUndefined q) = Some text
                 /\ JSON_parse text = Some (JObj o)) as without.
  { intros m p q H. cbn [make_request method body truthy]. now rewrite H. }
  assert (forall m p o q,
             bodiless m = false -> serializable (JObj o) = true ->
             if bodiless (method (make_request env m p (JObj o) q))
             then body (make_request env m p (JObj o) q) = None
             else exists text o',
                 body (make_request env m p (JObj o) q) = Some text
                 /\ JSON_parse text = Some (JObj o')) as carrying.
  { intros m p o q H Hs. cbn [make_request method]. rewrite H.
    destruct (body_reads_back env m p (JObj o) q eq_refl Hs) as (text & Hb & Hp).
    now exists text, o. }
  assert (In req [lookup_request env] ->
          if bodiless (method req) then body req = None
          else exists text o, body req = Some text /\ JSON_parse text = Some (JObj o))
    as lookup.
  { intros [<-|[]]. now apply without. }
  destruct c; cbn [handle];
    try (unfold get_bot_info.handler, delete_message.handler,
           list_conversations.handler, get_conversation_messages.handler,
           get_user.handler, get_wallet_balance.handler,
           get_token_list.handler, get_token_prices.handler,
           get_transaction_history.handler, get_transaction_status.handler,
           get_latest_blockhash.handler;
         rewrite requests_one_call; intros [<-|[]]; now apply without).
  - unfold send_message.handler. rewrite requests_one_call. intros [<-|[]].
    apply carrying; [reflexivity | apply message_body_serializable].
  - unfold edit_message.handler. rewrite requests_one_call. intros [<-|[]].
    apply carrying; [reflexivity|].
    apply content_body_serializable, edit_message_content_serializable.
  - unfold requests. rewrite run_set_webhook.
    destruct (net [] (lookup_request env)) as [why|status text]; [exact lookup|].
    destruct (dot_id (read_response status text)) as [appId|]; [|exact lookup].
    destruct (truthy appId); [|exact lookup].
    rewrite run_one_call. cbn [fst app]. intros [<-|[<-|[]]].
    + now apply without.
    + cbn [make_request method bodiless String.eqb Ascii.eqb Bool.eqb orb body
             truthy].
      rewrite webhook_body_text.
      destruct (serializable_printed "" "" (webhook_body a)
                  (webhook_body_serializable a)) as [sent_text E].
      assert (JSON_stringify (webhook_body a) 0 = Some sent_text) as Et
        by exact E.
      exists sent_text. unfold webhook_body in *. eexists.
      split; [exact Et|].
      apply (JSON_parse_stringify _ 0 sent_text); [|exact Et].
      apply (webhook_body_serializable a).
  - unfold requests. rewrite run_set_welcome_message.
    destruct (net [] (lookup_request env)) as [why|status text]; [exact lookup|].
    destruct (dot_id (read_response status text)) as [appId|]; [|exact lookup].
    destruct (truthy appId); [|exact lookup].
    rewrite run_one_call. cbn [fst app]. intros [<-|[<-|[]]].
    + now apply without.
    + apply carrying; [reflexivity|].
      apply content_body_serializable, set_welcome_message_content_serializable.
  - unfold send_transaction.handler. rewrite requests_one_call. intros [<-|[]].
    now apply carrying.
  - unfold simulate_transaction.handler. rewrite requests_one_call.
    intros [<-|[]]. now apply carrying.
Qed.

Lemma X7_bodies_by_verb_witness :
  body (make_request no_token "DELETE" "/api/bot/messages/m1" JUndefined None)
  = None.
Proof.
  apply (X7_bodies_by_verb no_token
           (call_delete_message {| delete_message.messageId := "m1" |})
           (always 200 "{}")
           (make_request no_token "DELETE" "/api/bot/messages/m1" JUndefined None)).
  left. reflexivity.
Defined.

(** X8.  The body of the request of send_message reads back as the object
    with [conversationId] and [content], and the one of edit_message as the
    object with [content]; [content] holds [type] and then, in this order
    and with the values of the arguments unchanged, those of [text],
    [imageUrl], [buttons] and [cards] that are truthy. *)
Theorem X8_message_bodies (env : Env) (a : send_message.args)
  (e : edit_message.args) (net : Network) :
  (exists r text,
      requests net (send_message.handler env a) = [r]
      /\ method r = "POST"
      /\ body r = Some text
      /\ JSON_parse text
         = Some (JObj
                   [("conversationId", JStr (send_message.conversationId a));
                    ("content",
                     JObj (("type", JStr (MessageType_string (send_message.type a)))
                             :: present "text" (opt_str (send_message.text a))
                             ++ present "imageUrl" (opt_str (send_message.imageUrl a))
                             ++ present "buttons" (opt_buttons (send_message.buttons a))
                             ++ present "cards" (opt_cards (send_message.cards a)))%list)]))
  /\ (exists r text,
         requests net (edit_message.handler env e) = [r]
         /\ method r = "PATCH"
         /\ body r = Some text
         /\ JSON_parse text
            = Some (JObj
                      [("content",
                        JObj (("type", JStr (MessageType_string (edit_message.type e)))
                                :: present "text" (opt_str (edit_message.text e))
                                ++ present "buttons"
                                     (opt_buttons (edit_message.buttons e)))%list)])).
Proof.
  split.
  - unfold send_message.handler. rewrite requests_one_call.
    destruct (body_reads_back env "POST" "/api/bot/messages"
                (JObj [("conversationId", JStr (send_message.conversationId a));
                       ("content", JObj (send_message.content a))])
                None eq_refl (message_body_serializable a))
      as (text & Hb & Hp).
    rewrite send_message_content_members in Hp.
    eexists. exists text. repeat split; assumption.
  - unfold edit_message.handler. rewrite requests_one_call.
    destruct (body_reads_back env "PATCH"
                ("/api/bot/messages/" ++ edit_message.messageId e)
                (JObj [("content", JObj (edit_message.content e))]) None eq_refl
                (content_body_serializable _
                   (edit_message_content_serializable e))) as (text & Hb & Hp).
    rewrite edit_message_content_members in Hp.
    eexists. exists text. repeat split; assumption.
Qed.

(** X9.  The PUT request of set_welcome_message carries an object with
    [content] alone; [content] holds the type [text], the text of the
    argument even when it is empty, and [buttons] when they were
    supplied. *)
Theorem X9_welcome_message_body (env : Env) (a : set_welcome_message.args)
  (net : Network) (req : Request) :
  In req (requests net (set_welcome_message.handler env a)) ->
  method req = "PUT" ->
  exists text,
    body req = Some text
    /\ JSON_parse text
       = Some (JObj
                 [("content",
                   JObj (("type", JStr "text")
                           :: ("text", JStr (set_welcome_message.text a))
                           :: present "buttons"
                                (opt_buttons (set_welcome_message.buttons a)))%list)]).
Proof.
  intros Hin Hput.
  assert (exists p,
             req = make_request env "PUT" p
                     (JObj [("content", JObj (set_welcome_message.content a))])
                     None) as [p ->].
  { unfold requests in Hin. rewrite run_set_welcome_message in Hin.
    assert (In req [lookup_request env] -> False) as not_lookup.
    { intros [<-|[]]. discriminate Hput. }
    destruct (net [] (lookup_request env)) as [why|status text];
      [now apply not_lookup in Hin|].
    destruct (dot_id (read_response status text)) as [appId|];
      [|now apply not_lookup in Hin].
    destruct (truthy appId); [|now apply not_lookup in Hin].
    rewrite run_one_call in Hin. cbn [fst app] in Hin.
    destruct Hin as [<-|[<-|[]]]; [discriminate Hput|]. eauto. }
  destruct (body_reads_back env "PUT" p
              (JObj [("content", JObj (set_welcome_message.content a))])
              None eq_refl
              (content_body_serializable _
                 (set_welcome_message_content_serializable a)))
    as (text & Hb & Hp).
  rewrite set_welcome_message_content_members in Hp.
  now exists text.
Qed.

Lemma X9_welcome_message_body_witness :
  exists text,
    body (make_request no_token "PUT"
            "/api/developer/apps/app-1/welcome-message"
            (JObj [("content", JObj [("type", JStr "text"); ("text", JStr "")])])
            None)
    = Some text
    /\ JSON_parse text
       = Some (JObj [("content", JObj [("type", JStr "text"); ("text", JStr "")])]).
Proof.
  apply (X9_welcome_message_body no_token
           {| set_welcome_message.text := "";
              set_welcome_message.buttons := None |}
           (always 200 (bot_info_text "app-1"))
           (make_request no_token "PUT"
              "/api/developer/apps/app-1/welcome-message"
              (JObj [("content", JObj [("type", JStr "text"); ("text", JStr "")])])
              None)).
  - vm_compute. right. left. reflexivity.
  - reflexivity.
Defined.

(** X10.  send_transaction and simulate_transaction send one POST without
    query, whose body reads back as the object holding the transaction
    under [signedTransaction], respectively [transaction], whatever the
    string, the empty one included. *)
Theorem X10_transaction_bodies (env : Env) (s : send_transaction.args)
  (t : simulate_transaction.args) (net : Network) :
  (exists r text,
      requests net (send_transaction.handler env s) = [r]
      /\ method r = "POST"
      /\ href (url r) = API_URL env ++ "/api/wallet/send"
      /\ searchParams (url r) = []
      /\ body r = Some text
      /\ JSON_parse text
         = Some (JObj [("signedTransaction",
                        JStr (send_transaction.signedTransaction s))]))
  /\ (exists r text,
         requests net (simulate_transaction.handler env t) = [r]
         /\ method r = "POST"
         /\ href (url r) = API_URL env ++ "/api/wallet/simulate"
         /\ searchParams (url r) = []
         /\ body r = Some text
         /\ JSON_parse text
            = Some (JObj [("transaction",
                           JStr (simulate_transaction.transaction t))])).
Proof.
  split.
  - unfold send_transaction.handler. rewrite requests_one_call.
    destruct (body_reads_back env "POST" "/api/wallet/send"
                (JObj [("signedTransaction",
                        JStr (send_transaction.signedTransaction s))])
                None eq_refl eq_refl) as (text & Hb & Hp).
    eexists. exists text. repeat split; assumption.
  - unfold simulate_transaction.handler. rewrite requests_one_call.
    destruct (body_reads_back env "POST" "/api/wallet/simulate"
                (JObj [("transaction",
                        JStr (simulate_transaction.transaction t))])
                None eq_refl eq_refl) as (text & Hb & Hp).
    eexists. exists text. repeat split; assumption.
Qed.

(** ** Validation of the arguments *)






Lemma not_string_rejected (v : JValue) :
  (forall s, v <> JStr s) -> z.string v = None.
Proof.
  intros H. destruct v; try reflexivity. now contradiction (H s).
Qed.

(** X13.  The four wallet tools with one required string argument reject a
    call in which it is left out or is not a string, and send nothing.
    get_wallet_balance and get_transaction_status run on any string: it is
    the one query parameter of the request, and the empty string passes the
    schema and leaves the request without query. *)
Theorem X13_required_string_arguments (env : Env)
  (o : list (string * JValue)) (net : Network) :
  ((forall s, z.field o "address" <> JStr s) ->
   run net [] (tool shapes.get_wallet_balance (get_wallet_balance.handler env)
                 (JObj o))
   = ([], Thrown InvalidParams))
  /\ ((forall s, z.field o "signature" <> JStr s) ->
      run net [] (tool shapes.get_transaction_status
                    (get_transaction_status.handler env) (JObj o))
      = ([], Thrown InvalidParams))
  /\ ((forall s, z.field o "signedTransaction" <> JStr s) ->
      run net [] (tool shapes.send_transaction (send_transaction.handler env)
                    (JObj o))
      = ([], Thrown InvalidParams))
  /\ ((forall s, z.field o "transaction" <> JStr s) ->
      run net [] (tool shapes.simulate_transaction
                    (simulate_transaction.handler env) (JObj o))
      = ([], Thrown InvalidParams))
  /\ (forall s, record_get o "address" = Some (JStr s) ->
      exists r,
        requests net (tool shapes.get_wallet_balance
                        (get_wallet_balance.handler env) (JObj o)) = [r]
        /\ searchParams (url r) = if nonempty s then [("address", s)] else [])
  /\ (forall s, record_get o "signature" = Some (JStr s) ->
      exists r,
        requests net (tool shapes.get_transaction_status
                        (get_transaction_status.handler env) (JObj o)) = [r]
        /\ searchParams (url r) = if nonempty s then [("signature", s)] else []).
Proof.
  unfold tool, shapes.get_wallet_balance, shapes.get_transaction_status,
    shapes.send_transaction, shapes.simulate_transaction, z.members.
  repeat apply conj.
  - intros H. now rewrite (not_string_rejected _ H).
  - intros H. now rewrite (not_string_rejected _ H).
  - intros H. now rewrite (not_string_rejected _ H).
  - intros H. now rewrite (not_string_rejected _ H).
  - intros s Hs. unfold z.field. rewrite Hs. cbn [z.string].
    unfold get_wallet_balance.handler. rewrite requests_one_call.
    eexists. split; [reflexivity|].
    rewrite make_request_query by reflexivity. reflexivity.
  - intros s Hs. unfold z.field. rewrite Hs. cbn [z.string].
    unfold get_transaction_status.handler. rewrite requests_one_call.
    eexists. split; [reflexivity|].
    rewrite make_request_query by reflexivity. reflexivity.
Qed.

Lemma X13_required_string_arguments_witness :
  run (always 200 "{}") []
    (tool shapes.send_transaction (send_transaction.handler no_token)
       (JObj [("signedTransaction", JNum 7)]))
  = ([], Thrown InvalidParams)
  /\ exists r,
       requests (always 200 "{}")
         (tool shapes.get_wallet_balance (get_wallet_balance.handler no_token)
            (JObj [("address", JStr "")])) = [r]
       /\ searchParams (url r) = [].
Proof.
  destruct (X13_required_string_arguments no_token
              [("signedTransaction", JNum 7)] (always 200 "{}"))
    as (_ & _ & H & _).
  destruct (X13_required_string_arguments no_token
              [("address", JStr "")] (always 200 "{}"))
    as (_ & _ & _ & _ & H' & _).
  split.
  - apply H. discriminate.
  - apply (H' ""). reflexivity.
Defined.

(** X14.  get_token_prices accepts a call without [mints] and asks for
    [all]; it accepts any string, asking for [all] when it is empty; it
    rejects a [mints] that is not a string and sends nothing. *)
Theorem X14_token_prices_arguments (env : Env) (o : list (string * JValue))
  (net : Network) :
  (record_get o "mints" = None ->
   exists r,
     requests net (tool shapes.get_token_prices (get_token_prices.handler env)
                     (JObj o)) = [r]
     /\ searchParams (url r) = [("mints", "all")])
  /\ (forall s, record_get o "mints" = Some (JStr s) ->
      exists r,
        requests net (tool shapes.get_token_prices
                        (get_token_prices.handler env) (JObj o)) = [r]
        /\ searchParams (url r) = [("mints", if nonempty s then s else "all")])
  /\ (forall v, record_get o "mints" = Some v ->
      (forall s, v <> JStr s) -> v <> JUndefined ->
      run net [] (tool shapes.get_token_prices (get_token_prices.handler env)
                    (JObj o))
      = ([], Thrown InvalidParams)).
Proof.
  unfold tool, shapes.get_token_prices, z.members, z.optional, z.field.
  repeat apply conj.
  - intros ->. unfold get_token_prices.handler. rewrite requests_one_call.
    eexists. split; reflexivity.
  - intros s ->. cbn [z.string]. unfold get_token_prices.handler.
    rewrite requests_one_call. eexists. split; [reflexivity|].
    rewrite make_request_query by reflexivity.
    cbn [get_token_prices.mints str_or filter snd]. unfold nonempty.
    destruct (s =? "")%string eqn:E; cbn [negb]; [reflexivity|].
    unfold nonempty. now rewrite E.
  - intros v -> Hs Hu. rewrite (not_string_rejected v Hs).
    destruct v; try reflexivity. now contradiction Hu.
Qed.

Lemma X14_token_prices_arguments_witness :
  (exists r,
      requests (always 200 "{}")
        (tool shapes.get_token_prices (get_token_prices.handler no_token)
           (JObj [])) = [r]
      /\ searchParams (url r) = [("mints", "all")])
  /\ run (always 200 "{}") []
       (tool shapes.get_token_prices (get_token_prices.handler no_token)
          (JObj [("mints", JArr [JStr "So11"])]))
     = ([], Thrown InvalidParams).
Proof.
  destruct (X14_token_prices_arguments no_token [] (always 200 "{}"))
    as (H & _).
  destruct (X14_token_prices_arguments no_token [("mints", JArr [JStr "So11"])]
              (always 200 "{}")) as (_ & _ & H').
  split.
  - apply H. reflexivity.
  - apply (H' (JArr [JStr "So11"])); [reflexivity | |]; discriminate.
Defined.

(** ** The two-step tools *)

Lemma fallback_has_no_id (status : Z) (text : string) :
  JSON_parse text = None ->
  dot_id (read_response status text) = Some JUndefined.
Proof. unfold read_response. now intros ->. Qed.

(** X15.  set_webhook ends with the soft failure, having sent the lookup
    alone, exactly when the lookup was answered with a value other than
    [null] whose [id] is absent or falsy.  A body that is not JSON is such
    an answer, whatever its status: the tool reports the failure and sends
    no PUT.  The same holds of set_welcome_message. *)
Theorem X15_soft_failure (env : Env) (a : set_webhook.args)
  (b : set_welcome_message.args) (net : Network) :
  (run net [] (set_webhook.handler env a)
   = ([lookup_request env], Returned (ok set_webhook.lookup_failed))
   <-> exists status text appId,
         net [] (lookup_request env) = HttpResponse status text
         /\ dot_id (read_response status text) = Some appId
         /\ truthy appId = false)
  /\ (run net [] (set_welcome_message.handler env b)
      = ([lookup_request env], Returned (ok set_welcome_message.lookup_failed))
      <-> exists status text appId,
            net [] (lookup_request env) = HttpResponse status text
            /\ dot_id (read_response status text) = Some appId
            /\ truthy appId = false)
  /\ (forall status text,
        net [] (lookup_request env) = HttpResponse status text ->
        JSON_parse text = None ->
        run net [] (set_webhook.handler env a)
        = ([lookup_request env], Returned (ok set_webhook.lookup_failed))
        /\ run net [] (set_welcome_message.handler env b)
           = ([lookup_request env],
              Returned (ok set_welcome_message.lookup_failed))).
Proof.
  split; [|split].
  - rewrite run_set_webhook.
    destruct (net [] (lookup_request env)) as [why|status text].
    { split; [discriminate|]. intros (s & t & i & H & _). discriminate H. }
    destruct (dot_id (read_response status text)) as [appId|] eqn:Eid.
    2:{ split; [discriminate|]. intros (s & t & i & [= <- <-] & H & _).
        congruence. }
    destruct (truthy appId) eqn:Et.
    + rewrite run_one_call. cbn [app]. split; [discriminate|].
      intros (s & t & i & [= <- <-] & H & Hf). congruence.
    + split; [|reflexivity]. intros _. now exists status, text, appId.
  - rewrite run_set_welcome_message.
    destruct (net [] (lookup_request env)) as [why|status text].
    { split; [discriminate|]. intros (s & t & i & H & _). discriminate H. }
    destruct (dot_id (read_response status text)) as [appId|] eqn:Eid.
    2:{ split; [discriminate|]. intros (s & t & i & [= <- <-] & H & _).
        congruence. }
    destruct (truthy appId) eqn:Et.
    + rewrite run_one_call. cbn [app]. split; [discriminate|].
      intros (s & t & i & [= <- <-] & H & Hf). congruence.
    + split; [|reflexivity]. intros _. now exists status, text, appId.
  - intros status text Hnet Hp. split.
    + apply (set_webhook_soft_failure env a net status text JUndefined);
        [exact Hnet | now apply fallback_has_no_id | reflexivity].
    + apply (set_welcome_message_soft_failure env b net status text JUndefined);
        [exact Hnet | now apply fallback_has_no_id | reflexivity].
Qed.

Lemma X15_soft_failure_witness :
  run (always 502 "<html>Bad Gateway</html>") []
    (set_webhook.handler no_token
       {| set_webhook.url := "https://example.com/hook";
          set_webhook.events := None |})
  = ([lookup_request no_token], Returned (ok set_webhook.lookup_failed)).
Proof.
  destruct (X15_soft_failure no_token
              {| set_webhook.url := "https://example.com/hook";
                 set_webhook.events := None |}
              {| set_welcome_message.text := "hi";
                 set_welcome_message.buttons := None |}
              (always 502 "<html>Bad Gateway</html>")) as (_ & _ & H).
  assert (JSON_parse "<html>Bad Gateway</html>" = None) as E
    by (vm_compute; reflexivity).
  exact (proj1 (H 502 "<html>Bad Gateway</html>" eq_refl E)).
Defined.


